(** * Social analytics dashboard: ingestion, sentiment analysis, daily
      analytics, content generation and scheduling.

    A shallow embedding of the request handlers of the repository (the
    Next.js route handlers and the SQL trigger of the README) together with
    the properties the specification states about them.

    Conventions of the model.
    - Text is a [string] of bytes, read as UTF-8.
    - Identifiers (UUIDs) are natural numbers; only their equality matters.
    - Instants are integers: milliseconds since the epoch.
    - The hosted database is a record of tables; a query is a filter over
      the rows, [single] is the client's [.single()].
    - The language model is an oracle: a function of the number of calls
      made so far and of the prompt.  Every call is appended to a log, so
      that "the model was not called" is a statement about the log. *)

From Stdlib Require Import ZArith QArith Qabs Lia List Ascii String Bool DecimalString.
From stdpp Require Import base option list gmap strings.
From stdpp Require Import sorting.

Set Default Proof Using "Type".
Set Warnings "-register-all".

(* ================================================================== *)
(** * JavaScript strings *)
(* ================================================================== *)

Module JS.

Definition code (a : ascii) : N := N_of_ascii a.

(** The line feed, the double quote and the backslash. *)
Definition LF : ascii := "010"%char.
Definition DQUOTE : ascii := "034"%char.
Definition BACKSLASH : ascii := "092"%char.

Definition lf : string := String LF EmptyString.
Definition dq : string := String DQUOTE EmptyString.

(** [quoted s] is [s] between double quotes (a JSON string literal when
    [s] needs no escape). *)
Definition quoted (s : string) : string := dq +:+ s +:+ dq.

(** ** [String.prototype.trim]

    ECMAScript strips WhiteSpace and LineTerminator code points: TAB, LF,
    VT, FF, CR, SP, U+00A0, U+1680, U+2000..U+200A, U+2028, U+2029,
    U+202F, U+205F, U+3000 and U+FEFF.  In UTF-8 the first six are single
    bytes, U+00A0 is two bytes and the others are three bytes. *)

Definition ws1 (a : ascii) : bool :=
  let c := code a in
  ((9 <=? c) && (c <=? 13) || (c =? 32))%N.

Definition ws2 (a b : ascii) : bool :=
  ((code a =? 194) && (code b =? 160))%N.

Definition ws3 (a b c : ascii) : bool :=
  let x := code a in let y := code b in let z := code c in
  ((x =? 225) && (y =? 154) && (z =? 128)
   || (x =? 226) && (y =? 128)
        && ((128 <=? z) && (z <=? 138) || (z =? 168) || (z =? 169) || (z =? 175))
   || (x =? 226) && (y =? 129) && (z =? 159)
   || (x =? 227) && (y =? 128) && (z =? 128)
   || (x =? 239) && (y =? 187) && (z =? 191))%N.

(** Strips white space from the front of [s].  With [back = true] the
    string is read backwards (it is a reversed string), so that the bytes
    of a multi-byte code point arrive last byte first. *)
Fixpoint strip (back : bool) (s : string) : string :=
  match s with
  | EmptyString => EmptyString
  | String a r =>
      if ws1 a then strip back r else
      match r with
      | String b r1 =>
          if (if back then ws2 b a else ws2 a b) then strip back r1 else
          match r1 with
          | String c r2 =>
              if (if back then ws3 c b a else ws3 a b c) then strip back r2
              else s
          | EmptyString => s
          end
      | EmptyString => s
      end
  end.

Definition reverse (s : string) : string :=
  string_of_list_ascii (rev (list_ascii_of_string s)).

Definition trimStart (s : string) : string := strip false s.
Definition trimEnd (s : string) : string := reverse (strip true (reverse s)).
Definition trim (s : string) : string := trimEnd (trimStart s).

(** ** [startsWith] and the global replacement of a code fence *)

Fixpoint startsWith (s p : string) {struct p} : bool :=
  match p with
  | EmptyString => true
  | String a p' =>
      match s with
      | EmptyString => false
      | String b s' => if Ascii.eqb a b then startsWith s' p' else false
      end
  end.

Fixpoint drop_chars (n : nat) (s : string) : string :=
  match n, s with
  | O, _ => s
  | S k, EmptyString => EmptyString
  | S k, String _ r => drop_chars k r
  end.

(** [s.replace(/PAT\n?/g, '')] for a literal, non-empty [PAT]: every
    occurrence of [pat], scanning from the left and never overlapping,
    is deleted together with the line feed that follows it, if any.
    [skip] counts the bytes of the current match still to be dropped. *)
Fixpoint delete_all (pat : string) (skip : nat) (s : string) : string :=
  match s with
  | EmptyString => EmptyString
  | String a r =>
      match skip with
      | S k => delete_all pat k r
      | O =>
          if startsWith s pat then
            let after := drop_chars (String.length pat) s in
            let n := (String.length pat + (if startsWith after lf then 1 else 0))%nat in
            delete_all pat (Nat.pred n) r
          else String a (delete_all pat O r)
      end
  end.

Definition FENCE : string := "```".
Definition FENCE_JSON : string := "```json".

(** The clean-up both model clients apply to a reply before [JSON.parse]:
    [let cleanedText = textContent.trim(); if (startsWith('```json')) ...
    else if (startsWith('```')) ...]. *)
Definition strip_code_fence (textContent : string) : string :=
  let cleanedText := trim textContent in
  if startsWith cleanedText FENCE_JSON then
    trim (delete_all FENCE O (delete_all FENCE_JSON O cleanedText))
  else if startsWith cleanedText FENCE then
    trim (delete_all FENCE O cleanedText)
  else cleanedText.

(** ** Dates

    An instant is a number of milliseconds since the epoch, and the time
    zone of the server is UTC. *)

Definition DAY_MS : Z := 86400000.

(** [getDate()]: the day of the month, from 1 to 31, in the civil
    (proleptic Gregorian) calendar.  The days are counted from the first
    of March of the year 0, in eras of 400 years. *)
Definition getDate (t : Z) : Z :=
  let z := (t / DAY_MS + 719468)%Z in
  let era := (z / 146097)%Z in
  let doe := (z - era * 146097)%Z in
  let yoe := ((doe - doe / 1460 + doe / 36524 - doe / 146096) / 365)%Z in
  let doy := (doe - (365 * yoe + yoe / 4 - yoe / 100))%Z in
  let mp := ((5 * doy + 2) / 153)%Z in
  (doy - (153 * mp + 2) / 5 + 1)%Z.

(** [setDate(day)]: the given day of the same month, at the same time of
    day. *)
Definition setDate (t day : Z) : Z := (t + (day - getDate t) * DAY_MS)%Z.

End JS.

(* ================================================================== *)
(** * JSON values and [JSON.parse] *)
(* ================================================================== *)

Module Json.
Import JS.

(** A number literal is kept as the decimal it was written as,
    [(-1)^neg * mant * 10^expo]; the double the engine makes of it is
    [Number_of] below. *)
Record number := { neg : bool; mant : N; expo : Z }.

Inductive json :=
| JNull
| JBool (b : bool)
| JNumber (n : number)
| JString (s : string)
| JArray (elems : list json)
| JObject (members : list (string * json)).


(** ** Numbers as the engine holds them

    [JSON.parse] makes of a literal the double nearest to it, ties going
    to the even significand and a literal past the largest double to
    [Infinity]; [JSON.stringify] writes a finite double as the shortest
    decimal that reads back as that double, and a double that is not
    finite as [null].

    A finite double is [m * 2^e] with [0 <= m < 2^53] and [-1074 <= e <=
    971], [e] the least exponent that allows it; the sign is kept apart,
    so that there are two zeros. *)

Inductive Number :=
| Finite (negative : bool) (m e : Z)
| Infinity (negative : bool).

#[global] Instance Number_eq_dec : EqDecision Number.
Proof. solve_decision. Defined.

(** The integer nearest to [num / den], for [den] positive; ties to even. *)
Definition nearest_even (num den : Z) : Z :=
  let q := (num / den)%Z in
  let r := (num mod den)%Z in
  if (2 * r <? den)%Z then q
  else if (den <? 2 * r)%Z then (q + 1)%Z
  else if Z.even q then q else (q + 1)%Z.

(** [p / q] divided by [2^e], as a fraction. *)
Definition scaled (p q e : Z) : Z * Z :=
  if (0 <=? e)%Z then (p, q * 2 ^ e)%Z else (p * 2 ^ (- e), q)%Z.

(** The exponent of the double nearest to [p / q], both positive:
    [floor (log2 (p / q)) - 52], and [-1074] for the subnormal ones. *)
Definition exponent_of (p q : Z) : Z :=
  let g := (Z.log2 p - Z.log2 q)%Z in
  let '(n, d) := scaled p q g in
  let floor_log2 := if (d <=? n)%Z then g else (g - 1)%Z in
  Z.max (floor_log2 - 52) (-1074).

(** Round to nearest, ties to even.  A significand rounded up to [2^53]
    is [2^52] at the next exponent; past the exponent 971 the value is
    [2^1024] or more and the result is infinite. *)
Definition round_to_double (negative : bool) (p q : Z) : Number :=
  if (p =? 0)%Z then Finite negative 0 (-1074) else
  let e := exponent_of p q in
  let '(n, d) := scaled p q e in
  let m := nearest_even n d in
  let '(m, e) := if (m =? 2 ^ 53)%Z then (2 ^ 52, e + 1)%Z else (m, e) in
  if (971 <? e)%Z then Infinity negative else Finite negative m e.

Definition Number_of (n : number) : Number :=
  let m := Z.of_N (mant n) in
  match expo n with
  | Z.neg p => round_to_double (neg n) m (10 ^ Z.pos p)
  | e => round_to_double (neg n) (m * 10 ^ e) 1
  end.

(** [s * 10^x], written as a literal. *)
Definition decimal (negative : bool) (s x : Z) : number :=
  {| neg := negative; mant := Z.to_N s; expo := x |}.

(** The shortest decimal of the positive double [v = vp / vq]: the first
    [s * 10^x], going from few digits to many ([x] going down), that
    reads back as [v]; of two at the same [x] the one nearer to [v],
    the even [s] when they are as near. *)
Fixpoint shortest (fuel : nat) (v : Number) (vp vq x : Z) : option (Z * Z) :=
  match fuel with
  | O => None
  | S fuel =>
      let '(n, d) := if (0 <=? x)%Z then (vp, vq * 10 ^ x)%Z
                     else (vp * 10 ^ (- x), vq)%Z in
      let lo := (n / d)%Z in
      let hi := (lo + 1)%Z in
      let r := (n mod d)%Z in
      let reads (s : Z) := bool_decide (Number_of (decimal false s x) = v) in
      match (0 <? lo)%Z && reads lo, reads hi with
      | true, true =>
          Some (if (2 * r <? d)%Z then lo
                else if (d <? 2 * r)%Z then hi
                else if Z.even lo then lo else hi, x)
      | true, false => Some (lo, x)
      | false, true => Some (hi, x)
      | false, false => shortest fuel v vp vq (x - 1)
      end
  end.

(** What [JSON.stringify] writes for a number: [None] is [null].  The
    search starts above the value ([10^x > v]) and seventeen digits
    always do; were they not to, the value itself is written out.  Both
    zeros are written [0]. *)
Definition JSON_stringify_Number (v : Number) : option number :=
  match v with
  | Infinity _ => None
  | Finite negative m e =>
      if (m =? 0)%Z then Some (decimal false 0 0) else
      let '(vp, vq) := scaled m 1 (- e) in
      let x := ((Z.log2 vp - Z.log2 vq + 1) * 30103 / 100000 + 2)%Z in
      match shortest 24 (Finite false m e) vp vq x with
      | Some (s, x) => Some (decimal negative s x)
      | None =>
          Some (if (0 <=? e)%Z then decimal negative (m * 2 ^ e) 0
                else decimal negative (m * 5 ^ (- e)) e)
      end
  end.

(** The literal as it leaves the engine again: [JSON.stringify] of the
    double [JSON.parse] made of it. *)
Definition wire (n : number) : option number :=
  JSON_stringify_Number (Number_of n).

(** ** White space and literals *)

Definition json_ws (a : ascii) : bool :=
  let c := code a in ((c =? 9) || (c =? 10) || (c =? 13) || (c =? 32))%N.

Fixpoint skip_ws (s : string) : string :=
  match s with
  | String a r => if json_ws a then skip_ws r else s
  | EmptyString => s
  end.

(** ** String literals

    The body of a string literal is read by a small automaton.  An escape
    [\uXXXX] yields a UTF-16 code unit; a high surrogate is held back in
    [pend] until the next code unit is known, so that a surrogate pair
    becomes one code point.  The output is UTF-8, most recent byte first. *)

Inductive sstate :=
| SPlain
| SEsc
| SHex (left : nat) (v : N).

Definition byte (n : N) : ascii := ascii_of_N n.

Definition utf8 (cp : N) : list ascii :=
  (if cp <? 128 then [byte cp]
   else if cp <? 2048 then [byte (192 + cp / 64); byte (128 + cp mod 64)]
   else if cp <? 65536 then
     [byte (224 + cp / 4096); byte (128 + (cp / 64) mod 64); byte (128 + cp mod 64)]
   else
     [byte (240 + cp / 262144); byte (128 + (cp / 4096) mod 64);
      byte (128 + (cp / 64) mod 64); byte (128 + cp mod 64)])%N.

Definition push (bs : list ascii) (acc : list ascii) : list ascii := rev_append bs acc.

Definition flush (pend : option N) (acc : list ascii) : list ascii :=
  match pend with Some hi => push (utf8 hi) acc | None => acc end.

Definition is_high (cu : N) : bool := ((55296 <=? cu) && (cu <=? 56319))%N.
Definition is_low (cu : N) : bool := ((56320 <=? cu) && (cu <=? 57343))%N.

Definition code_unit (pend : option N) (acc : list ascii) (cu : N)
  : option N * list ascii :=
  match pend with
  | Some hi =>
      if is_low cu then
        (None, push (utf8 (65536 + (hi - 55296) * 1024 + (cu - 56320))%N) acc)
      else if is_high cu then (Some cu, push (utf8 hi) acc)
      else (None, push (utf8 cu) (push (utf8 hi) acc))
  | None => if is_high cu then (Some cu, acc) else (None, push (utf8 cu) acc)
  end.

Definition hex_digit (a : ascii) : option N :=
  let c := code a in
  (if (48 <=? c) && (c <=? 57) then Some (c - 48)
   else if (65 <=? c) && (c <=? 70) then Some (c - 55)
   else if (97 <=? c) && (c <=? 102) then Some (c - 87)
   else None)%N.

Definition escape (a : ascii) : option ascii :=
  let c := code a in
  (if (c =? 34) || (c =? 92) || (c =? 47) then Some a
   else if c =? 98 then Some (byte 8)
   else if c =? 102 then Some (byte 12)
   else if c =? 110 then Some (byte 10)
   else if c =? 114 then Some (byte 13)
   else if c =? 116 then Some (byte 9)
   else None)%N.

Definition string_of_rev (acc : list ascii) : string :=
  string_of_list_ascii (rev' acc).

(** Reads a string literal from just after its opening quote; gives the
    decoded text and what follows the closing quote. *)
Fixpoint scan_string (st : sstate) (pend : option N) (acc : list ascii) (s : string)
  : option (string * string) :=
  match s with
  | EmptyString => None
  | String a r =>
      match st with
      | SPlain =>
          if (code a =? 34)%N then Some (string_of_rev (flush pend acc), r)
          else if (code a =? 92)%N then scan_string SEsc pend acc r
          else if (code a <? 32)%N then None
          else scan_string SPlain None (a :: flush pend acc) r
      | SEsc =>
          if (code a =? 117)%N then scan_string (SHex 4 0) pend acc r
          else match escape a with
               | Some c => scan_string SPlain None (c :: flush pend acc) r
               | None => None
               end
      | SHex k v =>
          match hex_digit a with
          | None => None
          | Some d =>
              let v' := (v * 16 + d)%N in
              match k with
              | S (S k') => scan_string (SHex (S k') v') pend acc r
              | _ => let '(pend', acc') := code_unit pend acc v' in
                     scan_string SPlain pend' acc' r
              end
          end
      end
  end.

(** ** Numbers

    An optional minus sign; an integer part, which is a single zero or a
    run of digits not starting with zero; an optional fraction of a dot
    and at least one digit; an optional exponent of [e] or [E], an
    optional sign and at least one digit. *)

Definition is_digit (a : ascii) : bool := ((48 <=? code a) && (code a <=? 57))%N.

(** Reads a run of digits: the value read (continuing [acc]), how many
    digits there were, and the rest. *)
Fixpoint digits (acc : N) (cnt : nat) (s : string) : N * nat * string :=
  match s with
  | String a r =>
      if is_digit a then digits (acc * 10 + (code a - 48))%N (S cnt) r
      else (acc, cnt, s)
  | EmptyString => (acc, cnt, s)
  end.

Definition parse_int (s : string) : option (N * string) :=
  match s with
  | String a r =>
      if (code a =? 48)%N then Some (0%N, r)
      else if is_digit a then let '(v, _, r') := digits 0 0 s in Some (v, r')
      else None
  | EmptyString => None
  end.

Definition parse_frac (v : N) (s : string) : option (N * nat * string) :=
  match s with
  | String a r =>
      if (code a =? 46)%N then
        let '(v', n, r') := digits v 0 r in
        match n with O => None | _ => Some (v', n, r') end
      else Some (v, O, s)
  | EmptyString => Some (v, O, s)
  end.

Definition parse_exp (s : string) : option (Z * string) :=
  match s with
  | String a r =>
      if ((code a =? 101) || (code a =? 69))%N then
        let '(minus, r0) :=
          match r with
          | String b r1 =>
              if (code b =? 45)%N then (true, r1)
              else if (code b =? 43)%N then (false, r1)
              else (false, r)
          | EmptyString => (false, r)
          end in
        let '(e, n, r') := digits 0 0 r0 in
        match n with
        | O => None
        | _ => Some (if minus then (- Z.of_N e)%Z else Z.of_N e, r')
        end
      else Some (0%Z, s)
  | EmptyString => Some (0%Z, s)
  end.

Definition parse_number (s : string) : option (number * string) :=
  let '(minus, s0) :=
    match s with
    | String a r => if (code a =? 45)%N then (true, r) else (false, s)
    | EmptyString => (false, s)
    end in
  match parse_int s0 with
  | None => None
  | Some (i, s1) =>
      match parse_frac i s1 with
      | None => None
      | Some (m, nfrac, s2) =>
          match parse_exp s2 with
          | None => None
          | Some (e, s3) =>
              Some ({| neg := minus; mant := m; expo := (e - Z.of_nat nfrac)%Z |}, s3)
          end
      end
  end.

(** ** Values *)

Definition literal (word : string) (v : json) (s : string) : option (json * string) :=
  if startsWith s word then Some (v, drop_chars (String.length word) s) else None.

Fixpoint parse_value (fuel : nat) (s : string) {struct fuel} : option (json * string) :=
  match fuel with
  | O => None
  | S f =>
      match skip_ws s with
      | EmptyString => None
      | String a r as s' =>
          let c := code a in
          if (c =? 123)%N then
            match skip_ws r with
            | String b r' =>
                if (code b =? 125)%N then Some (JObject [], r')
                else parse_members f [] (skip_ws r)
            | EmptyString => None
            end
          else if (c =? 91)%N then
            match skip_ws r with
            | String b r' =>
                if (code b =? 93)%N then Some (JArray [], r')
                else parse_elements f [] r
            | EmptyString => None
            end
          else if (c =? 34)%N then
            match scan_string SPlain None [] r with
            | Some (str, r') => Some (JString str, r')
            | None => None
            end
          else if (c =? 116)%N then literal "true" (JBool true) s'
          else if (c =? 102)%N then literal "false" (JBool false) s'
          else if (c =? 110)%N then literal "null" JNull s'
          else
            match parse_number s' with
            | Some (n, r') => Some (JNumber n, r')
            | None => None
            end
      end
  end

with parse_elements (fuel : nat) (acc : list json) (s : string) {struct fuel}
  : option (json * string) :=
  match fuel with
  | O => None
  | S f =>
      match parse_value f s with
      | None => None
      | Some (v, r) =>
          match skip_ws r with
          | String b r' =>
              if (code b =? 44)%N then parse_elements f (v :: acc) r'
              else if (code b =? 93)%N then Some (JArray (rev' (v :: acc)), r')
              else None
          | EmptyString => None
          end
      end
  end

with parse_members (fuel : nat) (acc : list (string * json)) (s : string) {struct fuel}
  : option (json * string) :=
  match fuel with
  | O => None
  | S f =>
      match s with
      | String q r0 =>
          if negb (code q =? 34)%N then None else
          match scan_string SPlain None [] r0 with
          | None => None
          | Some (k, r1) =>
              match skip_ws r1 with
              | String colon r2 =>
                  if negb (code colon =? 58)%N then None else
                  match parse_value f r2 with
                  | None => None
                  | Some (v, r3) =>
                      match skip_ws r3 with
                      | String b r4 =>
                          if (code b =? 44)%N then
                            parse_members f ((k, v) :: acc) (skip_ws r4)
                          else if (code b =? 125)%N then
                            Some (JObject (rev' ((k, v) :: acc)), r4)
                          else None
                      | EmptyString => None
                      end
                  end
              | EmptyString => None
              end
          end
      | EmptyString => None
      end
  end.

(** [JSON.parse]: [None] is a [SyntaxError].  Along any chain of calls a
    unit of fuel is spent for at least every second byte read, so the
    fuel below is never exhausted ([JSON_parse_fuel]). *)
Definition JSON_parse (s : string) : option json :=
  match parse_value (2 * String.length s + 2) s with
  | Some (v, r) =>
      match skip_ws r with
      | EmptyString => Some v
      | String _ _ => None
      end
  | None => None
  end.

(** ** Reading a property

    [v.k] for the property names this code reads ([score], [label],
    [posts], [content], ...), none of which is defined on a prototype:
    the own property of an object (the last binding when a key repeats),
    [undefined] ([None]) on anything else.  Reading a property of [null]
    throws and is handled where it occurs. *)

Definition prop (v : json) (k : string) : option json :=
  match v with
  | JObject ms =>
      fold_left (fun found kv => if String.eqb (fst kv) k then Some (snd kv) else found)
                ms None
  | _ => None
  end.

(** Truthiness of a value that may be [undefined]. *)
Definition truthy (v : option json) : bool :=
  match v with
  | None | Some JNull | Some (JBool false) => false
  | Some (JNumber n) => negb (mant n =? 0)%N
  | Some (JString s) => negb (String.eqb s EmptyString)
  | Some _ => true
  end.

(** [v || fallback] *)
Definition or_else (v : option json) (fallback : json) : json :=
  match v with
  | Some x => if truthy v then x else fallback
  | None => fallback
  end.

End Json.

(* ================================================================== *)
(** * The database *)
(* ================================================================== *)

Module Db.
Import Json.

Definition uuid := nat.
Definition timestamp := Z.
Bind Scope Z_scope with timestamp.

Inductive sentiment_label := positive | negative | neutral.
Inductive subscription_status := active | inactive | trialing | past_due | canceled.
Inductive subscription_tier := starter | professional.
Inductive post_status := scheduled | published | failed | cancelled.
Inductive draft_status := draft | draft_scheduled | draft_published.

#[global] Instance sentiment_label_eq_dec : EqDecision sentiment_label.
Proof. solve_decision. Defined.
#[global] Instance subscription_status_eq_dec : EqDecision subscription_status.
Proof. solve_decision. Defined.
#[global] Instance subscription_tier_eq_dec : EqDecision subscription_tier.
Proof. solve_decision. Defined.
#[global] Instance post_status_eq_dec : EqDecision post_status.
Proof. solve_decision. Defined.
#[global] Instance draft_status_eq_dec : EqDecision draft_status.
Proof. solve_decision. Defined.

(** ** Rows *)

Record Business := {
  business_id : uuid;
  business_user_id : uuid;
  subscription_status_of : option subscription_status;
  subscription_tier_of : option subscription_tier;
}.

Record SocialAccount := {
  account_row_id : uuid;
  account_user_id : uuid;        (* read by the ingestion route *)
  account_business_id : uuid;    (* read by the scheduling route *)
  account_platform : string;
  account_id : string;
  access_token : string;
  is_active : bool;
  token_expires_at : option timestamp;
}.

(** [sentiment_score] is a NUMERIC(3,1): the model keeps it in tenths. *)
Record Mention := {
  mention_id : uuid;
  user_id : uuid;
  social_account_id : uuid;
  platform : string;
  content : string;
  author : string;
  author_handle : option string;
  post_url : option string;
  posted_at : timestamp;
  sentiment_score : option Z;
  sentiment_label_of : option sentiment_label;
  sentiment_reasoning : option string;
  engagement_count : Z;
}.

(** One row per (user_id, date); [average_score] is a NUMERIC(3,1) in
    tenths, NULL when AVG ranges over no row. *)
Record SentimentAnalytics := {
  positive_count : nat;
  negative_count : nat;
  neutral_count : nat;
  average_score : option Z;
  total_mentions : nat;
}.

Record GeneratedPost := {
  generated_id : uuid;
  generated_business_id : uuid;
  generated_platform : string;
  generated_content : option json;
  generated_hashtags : json;
  generated_cta : option json;
  image_prompt : option json;
  best_time_to_post : json;
  estimated_engagement : json;
  generated_status : draft_status;
  scheduled_post_id : option uuid;
  generated_at : timestamp;
}.

Record ScheduledPost := {
  scheduled_id : uuid;
  scheduled_business_id : uuid;
  scheduled_account_id : uuid;
  scheduled_platform : string;
  scheduled_content : option json;
  scheduled_hashtags : json;
  image_url : option string;
  scheduled_time : timestamp;
  status : post_status;
  created_at : timestamp;
}.

Record ApiUsage := {
  usage_id : uuid;
  usage_business_id : uuid;
  posts_generated : Z;
  usage_created_at : timestamp;
  usage_updated_at : timestamp;
}.

Record Database := {
  businesses : list Business;
  social_accounts : list SocialAccount;
  mentions : list Mention;
  sentiment_analytics : gmap (uuid * Z) SentimentAnalytics;
  generated_posts : list GeneratedPost;
  scheduled_posts : list ScheduledPost;
  api_usage : list ApiUsage;
  next_uuid : uuid;             (* the supply of gen_random_uuid() *)
}.

Definition empty : Database :=
  {| businesses := []; social_accounts := []; mentions := [];
     sentiment_analytics := ∅; generated_posts := []; scheduled_posts := [];
     api_usage := []; next_uuid := O |}.

Definition with_mentions (ms : list Mention) (db : Database) : Database :=
  {| businesses := businesses db; social_accounts := social_accounts db;
     mentions := ms; sentiment_analytics := sentiment_analytics db;
     generated_posts := generated_posts db; scheduled_posts := scheduled_posts db;
     api_usage := api_usage db; next_uuid := next_uuid db |}.

Definition with_analytics (a : gmap (uuid * Z) SentimentAnalytics) (db : Database)
  : Database :=
  {| businesses := businesses db; social_accounts := social_accounts db;
     mentions := mentions db; sentiment_analytics := a;
     generated_posts := generated_posts db; scheduled_posts := scheduled_posts db;
     api_usage := api_usage db; next_uuid := next_uuid db |}.

Definition with_generated_posts (ps : list GeneratedPost) (db : Database) : Database :=
  {| businesses := businesses db; social_accounts := social_accounts db;
     mentions := mentions db; sentiment_analytics := sentiment_analytics db;
     generated_posts := ps; scheduled_posts := scheduled_posts db;
     api_usage := api_usage db; next_uuid := next_uuid db |}.

Definition with_scheduled_posts (ps : list ScheduledPost) (db : Database) : Database :=
  {| businesses := businesses db; social_accounts := social_accounts db;
     mentions := mentions db; sentiment_analytics := sentiment_analytics db;
     generated_posts := generated_posts db; scheduled_posts := ps;
     api_usage := api_usage db; next_uuid := next_uuid db |}.

Definition with_api_usage (us : list ApiUsage) (db : Database) : Database :=
  {| businesses := businesses db; social_accounts := social_accounts db;
     mentions := mentions db; sentiment_analytics := sentiment_analytics db;
     generated_posts := generated_posts db; scheduled_posts := scheduled_posts db;
     api_usage := us; next_uuid := next_uuid db |}.

Definition with_next_uuid (n : uuid) (db : Database) : Database :=
  {| businesses := businesses db; social_accounts := social_accounts db;
     mentions := mentions db; sentiment_analytics := sentiment_analytics db;
     generated_posts := generated_posts db; scheduled_posts := scheduled_posts db;
     api_usage := api_usage db; next_uuid := n |}.

(** ** The client's [.single()]: the row when the query has exactly one,
    an error (no data) when it has none or several. *)
Definition single {A} (rows : list A) : option A :=
  match rows with
  | [x] => Some x
  | _ => None
  end.

(** ** NUMERIC(3,1)

    A value assigned to a NUMERIC(3,1) column is rounded to one decimal,
    ties away from zero, and refused when the result does not fit three
    digits.  [round_half_away n d] is the integer nearest to [n / d]. *)

Definition round_half_away (n : Z) (d : Z) : Z :=
  (Z.sgn n * ((2 * Z.abs n + d) / (2 * d)))%Z.

Definition numeric_3_1 (n : number) : option Z :=
  let m := Z.of_N (mant n) in
  let t := match (expo n + 1)%Z with
           | Z.neg p => round_half_away m (10 ^ Z.pos p)
           | e => (m * 10 ^ e)%Z
           end in
  if (t <? 1000)%Z then Some (if neg n then (- t)%Z else t) else None.

(** ** The trigger [update_sentiment_analytics] *)

(** DATE(posted_at), the session time zone being UTC. *)
Definition DATE (t : timestamp) : Z := (t / 86400000)%Z.

(** [FROM mentions WHERE user_id = NEW.user_id AND DATE(posted_at) =
    DATE(NEW.posted_at) AND sentiment_score IS NOT NULL]. *)
Definition scored_on (user : uuid) (day : Z) (ms : list Mention) : list Mention :=
  filter (λ m, user_id m = user ∧ DATE (posted_at m) = day ∧ is_Some (sentiment_score m)) ms.

Definition count_label (l : sentiment_label) (ms : list Mention) : nat :=
  length (filter (λ m, sentiment_label_of m = Some l) ms).

Definition score_sum (ms : list Mention) : Z :=
  foldr (λ m acc, (default 0 (sentiment_score m) + acc)%Z) 0%Z ms.

(** AVG(sentiment_score), assigned to the NUMERIC(3,1) column. *)
Definition AVG (ms : list Mention) : option Z :=
  match ms with
  | [] => None
  | _ => Some (round_half_away (score_sum ms) (Z.of_nat (length ms)))
  end.

Definition day_aggregate (user : uuid) (day : Z) (ms : list Mention) : SentimentAnalytics :=
  let rows := scored_on user day ms in
  {| positive_count := count_label positive rows;
     negative_count := count_label negative rows;
     neutral_count := count_label neutral rows;
     average_score := AVG rows;
     total_mentions := length rows |}.

(** [OLD] is absent on INSERT, where OLD.sentiment_score IS NULL holds.
    The upsert overwrites every column of the day's row. *)
Definition update_sentiment_analytics (OLD : option Mention) (NEW : Mention)
    (db : Database) : Database :=
  match sentiment_score NEW with
  | Some s =>
      if decide (OLD ≫= sentiment_score = None ∨ OLD ≫= sentiment_score ≠ Some s) then
        let key := (user_id NEW, DATE (posted_at NEW)) in
        with_analytics
          (<[key := day_aggregate (user_id NEW) (DATE (posted_at NEW)) (mentions db)]>
             (sentiment_analytics db)) db
      else db
  | None => db
  end.

(** ** Statements on [mentions]; the trigger fires AFTER each row, at the
    end of the statement. *)

Definition set_sentiment (s : option Z) (l : sentiment_label) (r : string) (m : Mention)
  : Mention :=
  {| mention_id := mention_id m; user_id := user_id m;
     social_account_id := social_account_id m; platform := platform m;
     content := content m; author := author m; author_handle := author_handle m;
     post_url := post_url m; posted_at := posted_at m;
     sentiment_score := s; sentiment_label_of := Some l;
     sentiment_reasoning := Some r; engagement_count := engagement_count m |}.

Definition fire (db : Database) (changes : list (Mention * Mention)) : Database :=
  fold_left (λ d c, update_sentiment_analytics (Some (fst c)) (snd c) d) changes db.

(** [UPDATE mentions SET sentiment_score, sentiment_label,
    sentiment_reasoning WHERE id = ... AND user_id = ...], the score
    already in tenths. *)
Definition update_rows (id user : uuid) (s : Z) (l : sentiment_label) (r : string)
    (db : Database) : Database :=
  let hit := λ m : Mention, mention_id m = id ∧ user_id m = user in
  let ms' := (λ m, if decide (hit m) then set_sentiment (Some s) l r m else m)
               <$> mentions db in
  let changes := (λ m, (m, set_sentiment (Some s) l r m)) <$> filter hit (mentions db) in
  fire (with_mentions ms' db) changes.

(** The same statement with [sentiment_score = NULL].  The trigger fires
    for each row and, the new score being NULL, does nothing. *)
Definition update_rows_null (id user : uuid) (l : sentiment_label) (r : string)
    (db : Database) : Database :=
  let hit := λ m : Mention, mention_id m = id ∧ user_id m = user in
  let ms' := (λ m, if decide (hit m) then set_sentiment None l r m else m)
               <$> mentions db in
  let changes := (λ m, (m, set_sentiment None l r m)) <$> filter hit (mentions db) in
  fire (with_mentions ms' db) changes.

(** The statement as the store receives it from the client, whose values
    travel as JSON: the score is [null] ([None]), and the column is set to
    NULL, or a number, which the column rounds to one decimal or, when
    the result does not fit, refuses ([None]: the statement fails and
    nothing changes). *)
Definition update_mention_sentiment (id user : uuid) (score : option number)
    (l : sentiment_label) (r : string) (db : Database) : option Database :=
  match score with
  | None => Some (update_rows_null id user l r db)
  | Some sent =>
      match numeric_3_1 sent with
      | Some s => Some (update_rows id user s l r db)
      | None => None
      end
  end.

(** INTEGER: a signed integer of 32 bits. *)
Definition INTEGER (z : Z) : bool :=
  ((-2147483648 <=? z) && (z <=? 2147483647))%Z.

(** [INSERT INTO mentions] with the sentiment columns left NULL.  The
    store refuses the row ([None], and nothing changes) when
    [engagement_count] is no INTEGER.  The columns declared NOT NULL are
    never null in a [Mention], and the foreign keys and the insertion
    policy hold of the rows the ingestion route sends: it has just read
    the account, which is the caller's. *)
Definition insert_mention (m : Mention) (db : Database) : option Mention * Database :=
  let row :=
    {| mention_id := next_uuid db; user_id := user_id m;
       social_account_id := social_account_id m; platform := platform m;
       content := content m; author := author m; author_handle := author_handle m;
       post_url := post_url m; posted_at := posted_at m;
       sentiment_score := None; sentiment_label_of := None;
       sentiment_reasoning := None; engagement_count := engagement_count m |} in
  if INTEGER (engagement_count m) then
    let db' := with_next_uuid (S (next_uuid db)) (with_mentions (mentions db ++ [row]) db) in
    (Some row, update_sentiment_analytics None row db')
  else (None, db).

End Db.

(* ================================================================== *)
(** * The language-model client *)
(* ================================================================== *)

Module Anthropic.
Import JS Json Db.

(** What a request to the messages endpoint comes to. *)
Record ContentBlock := { block_type : string; block_text : string }.

Inductive Outcome :=
| Failed (message : string)              (* the request, or reading its body, throws *)
| Status (status : nat) (body : string)  (* [!response.ok]; [body] is the error data *)
| Message (content : list ContentBlock).

(** The oracle: the outcome of a call, given how many calls were made
    before it and the text sent. *)
Definition Oracle := nat → string → Outcome.

(** A thrown value: an instance of [Error] with its message, or the error
    object of a database reply, which is no instance of [Error]. *)
Inductive exn :=
| Error (message : string)
| PostgrestError (message : string).

(** [error instanceof Error ? error.message : ...] *)
Definition message_or (fallback : string) (e : exn) : string :=
  match e with
  | Error message => message
  | PostgrestError _ => fallback
  end.

(** The messages of the engine's own errors are not modelled. *)
Definition SYNTAX_ERROR : string := "SyntaxError".
Definition TYPE_ERROR : string := "TypeError".
Definition RANGE_ERROR : string := "RangeError".

(** [data.content.find(c => c.type === 'text')?.text || ''] *)
Definition text_of (content : list ContentBlock) : string :=
  match List.find (λ c, String.eqb (block_type c) "text") content with
  | Some c => block_text c
  | None => EmptyString
  end.

Definition show_nat (n : nat) : string := NilZero.string_of_uint (Nat.to_uint n).

(** The world a handler runs in: the database and the log of the texts
    sent to the model. *)
Record World := { db : Database; calls : list string }.

Definition with_db (d : Database) (w : World) : World :=
  {| db := d; calls := calls w |}.

(** One call: the outcome is the oracle's, the call is logged. *)
Definition call (anthropic : Oracle) (text : string) (w : World) : Outcome * World :=
  (anthropic (length (calls w)) text, {| db := db w; calls := calls w ++ [text] |}).

End Anthropic.

(* ================================================================== *)
(** * The analysis route ([route.ts]) *)
(* ================================================================== *)

Module Analyze.
Import JS Json Db Anthropic.

(** [score] is kept as the literal of the reply; the double the handler
    holds is [Number_of] it. *)
Record SentimentResult := {
  score : number;
  label : sentiment_label;
  reasoning : string;
  confidence : option json;     (* whatever the reply holds; never checked *)
}.

Definition label_of_string (s : string) : option sentiment_label :=
  if String.eqb s "positive" then Some positive
  else if String.eqb s "negative" then Some negative
  else if String.eqb s "neutral" then Some neutral
  else None.

Definition typeof_number (v : option json) : bool :=
  match v with Some (JNumber _) => true | _ => false end.

Definition typeof_string (v : option json) : bool :=
  match v with Some (JString _) => true | _ => false end.

(** [['positive', 'negative', 'neutral'].includes(v)] *)
Definition includes_label (v : option json) : bool :=
  match v with
  | Some (JString s) => bool_decide (is_Some (label_of_string s))
  | _ => false
  end.

Definition INVALID_RESULT : string := "Invalid sentiment analysis result from Claude".

(** The parsed reply seen through the interface [SentimentResult]. *)
Definition as_SentimentResult (result : json) : option SentimentResult :=
  match prop result "score", prop result "label", prop result "reasoning" with
  | Some (JNumber n), Some (JString l), Some (JString r) =>
      match label_of_string l with
      | Some lab =>
          Some {| score := n; label := lab; reasoning := r;
                  confidence := prop result "confidence" |}
      | None => None
      end
  | _, _, _ => None
  end.

(** "Validate the result": the three tests of the source, in its order.
    Reading [result.score] of [null] throws a TypeError. *)
Definition validate (result : json) : exn + SentimentResult :=
  match result with
  | JNull => inl (Error TYPE_ERROR)
  | _ =>
      if negb (typeof_number (prop result "score"))
         || negb (includes_label (prop result "label"))
         || negb (typeof_string (prop result "reasoning"))
      then inl (Error INVALID_RESULT)
      else match as_SentimentResult result with
           | Some r => inr r
           | None => inl (Error INVALID_RESULT)
           end
  end.

(** From the text of the reply to the result: the clean-up, [JSON.parse],
    the validation. *)
Definition parse_reply (textContent : string) : exn + SentimentResult :=
  match JSON_parse (strip_code_fence textContent) with
  | None => inl (Error SYNTAX_ERROR)
  | Some result => validate result
  end.

Definition interpret (o : Outcome) : exn + SentimentResult :=
  match o with
  | Failed message => inl (Error message)
  | Status status body =>
      inl (Error ("Claude API error: " +:+ show_nat status +:+ " - " +:+ body))
  | Message content => parse_reply (text_of content)
  end.

Inductive ItemResult :=
| ItemFailed (mentionId : uuid) (error : string)
| ItemCached (mentionId : uuid) (score : Z) (label : option sentiment_label)
             (reasoning : option string)
| ItemAnalyzed (mentionId : uuid) (sentiment : SentimentResult).

Definition succeeded (r : ItemResult) : bool :=
  match r with ItemFailed _ _ => false | _ => true end.

Definition is_cached (r : ItemResult) : bool :=
  match r with ItemCached _ _ _ _ => true | _ => false end.

Record AnalyzeRequest := {
  mentionIds : option (list uuid);
  content_of : option string;
  batchSize : option nat;
}.

Inductive Response :=
| Unauthorized
| ByIds (results : list ItemResult) (analyzed cached failed : nat)
| SingleText (sentiment : SentimentResult)
| NoneUnanalyzed
| Batch (results : list ItemResult) (analyzed failed remaining : nat)
| ServerError (details : string).

Section Route.

Variable ANTHROPIC_API_KEY : string.
Variable anthropic : Oracle.

Definition analyzeSentimentWithClaude (text : string) (w : World)
  : (exn + SentimentResult) * World :=
  if String.eqb ANTHROPIC_API_KEY EmptyString then
    (inl (Error "ANTHROPIC_API_KEY is not configured"), w)
  else
    let '(o, w') := call anthropic text w in
    (interpret o, w').

(** The body of both loops from the call of the classifier on: classify,
    store, report.  [sentiment.score] is a double, and the client writes
    it as JSON ([wire]). *)
Definition analyze_and_store (user id : uuid) (text : string) (w : World)
  : ItemResult * World :=
  match analyzeSentimentWithClaude text w with
  | (inl e, w') => (ItemFailed id (message_or "Analysis failed" e), w')
  | (inr sentiment, w') =>
      match update_mention_sentiment id user (wire (score sentiment)) (label sentiment)
                                     (reasoning sentiment) (db w') with
      | None => (ItemFailed id "Analysis failed", w')
      | Some d => (ItemAnalyzed id sentiment, with_db d w')
      end
  end.

(** Case 1, one turn of [for (const mentionId of body.mentionIds)]. *)
Definition by_id_step (user : uuid) (mentionId : uuid) (w : World) : ItemResult * World :=
  match single (filter (λ m, mention_id m = mentionId ∧ user_id m = user)
                       (mentions (db w))) with
  | None => (ItemFailed mentionId "Mention not found or access denied", w)
  | Some mention =>
      match sentiment_score mention with
      | Some s =>
          (ItemCached mentionId s (sentiment_label_of mention)
                      (sentiment_reasoning mention), w)
      | None => analyze_and_store user mentionId (content mention) w
      end
  end.

Fixpoint by_id_loop (user : uuid) (ids : list uuid) (w : World)
  : list ItemResult * World :=
  match ids with
  | [] => ([], w)
  | id :: rest =>
      let '(r, w1) := by_id_step user id w in
      let '(rs, w2) := by_id_loop user rest w1 in
      (r :: rs, w2)
  end.

(** Case 3: the selection and the loop over it. *)
Definition select_unanalyzed (user : uuid) (limit : nat) (d : Database) : list Mention :=
  take limit (filter (λ m, user_id m = user ∧ sentiment_score m = None) (mentions d)).

Fixpoint batch_loop (user : uuid) (batch : list Mention) (w : World)
  : list ItemResult * World :=
  match batch with
  | [] => ([], w)
  | mention :: rest =>
      let '(r, w1) := analyze_and_store user (mention_id mention) (content mention) w in
      let '(rs, w2) := batch_loop user rest w1 in
      (r :: rs, w2)
  end.

Definition count (f : ItemResult → bool) (rs : list ItemResult) : nat :=
  length (List.filter f rs).

Definition POST (user : option uuid) (body : AnalyzeRequest) (w : World)
  : Response * World :=
  match user with
  | None => (Unauthorized, w)
  | Some user =>
      match mentionIds body with
      | Some ((_ :: _) as ids) =>
          let '(results, w') := by_id_loop user ids w in
          (ByIds results
                 (count (λ r, succeeded r && negb (is_cached r)) results)
                 (count (λ r, succeeded r && is_cached r) results)
                 (count (λ r, negb (succeeded r)) results), w')
      | _ =>
          match content_of body with
          | Some (String _ _ as text) =>
              match analyzeSentimentWithClaude text w with
              | (inr sentiment, w') => (SingleText sentiment, w')
              | (inl e, w') => (ServerError (message_or "Unknown error" e), w')
              end
          | _ =>
              let size := match batchSize body with
                          | Some (S _ as n) => n
                          | _ => 10
                          end in
              match select_unanalyzed user size (db w) with
              | [] => (NoneUnanalyzed, w)
              | unanalyzedMentions =>
                  let '(results, w') := batch_loop user unanalyzedMentions w in
                  (Batch results
                         (count succeeded results)
                         (count (λ r, negb (succeeded r)) results)
                         (Nat.max 0 (length unanalyzedMentions - count succeeded results)),
                   w')
              end
          end
      end
  end.

End Route.
End Analyze.

(* ================================================================== *)
(** * The ingestion route *)
(* ================================================================== *)

Module Ingest.
Import JS Json Db Anthropic.

Record IngestRequest := {
  socialAccountId : option uuid;
  platform_of : string;
  forceRefresh : option bool;
}.

Record SocialMention := {
  content : string;
  author : string;
  authorHandle : option string;
  postUrl : option string;
  postedAt : timestamp;
  engagementCount : option Z;
}.

(** The capability every platform adapter offers: from the access token
    and the account identifier (and the clock) to the mentions, or a
    thrown error. *)
Definition MentionSource := string → string → timestamp → exn + list SocialMention.

Definition HOUR : Z := 60 * 60 * 1000.

(** The mock adapters of the source; the real calls are commented out
    there. *)
Definition fetchInstagramMentions : MentionSource := λ accessToken accountId now,
  inr [ {| content := "Love your recent post! The aesthetic is amazing üòç";
           author := "designlover_23"; authorHandle := Some "@designlover_23";
           postUrl := Some "https://instagram.com/p/mock123";
           postedAt := now - 2 * HOUR; engagementCount := Some 15%Z |};
        {| content := "Great content as always! Keep it up üëè";
           author := "creative_minds"; authorHandle := Some "@creative_minds";
           postUrl := Some "https://instagram.com/p/mock124";
           postedAt := now - 5 * HOUR; engagementCount := Some 8%Z |};
        {| content := "Not sure about this one... seems off brand";
           author := "critic_voice"; authorHandle := Some "@critic_voice";
           postUrl := Some "https://instagram.com/p/mock125";
           postedAt := now - 8 * HOUR; engagementCount := Some 3%Z |} ].

Definition fetchFacebookMentions : MentionSource := λ accessToken accountId now,
  inr [ {| content := "This is exactly what I needed! Thank you for sharing üôè";
           author := "Sarah Johnson"; authorHandle := None;
           postUrl := Some "https://facebook.com/posts/mock456";
           postedAt := now - 3 * HOUR; engagementCount := Some 24%Z |};
        {| content := "Interesting perspective, though I disagree with some points";
           author := "Mike Chen"; authorHandle := None;
           postUrl := Some "https://facebook.com/posts/mock457";
           postedAt := now - 6 * HOUR; engagementCount := Some 12%Z |} ].

Definition fetchTwitterMentions : MentionSource := λ accessToken accountId now,
  inr [ {| content := "Just saw your latest tweet - absolutely brilliant! üéØ";
           author := "Tech Enthusiast"; authorHandle := Some "@techenthusiast";
           postUrl := Some "https://twitter.com/user/status/mock789";
           postedAt := now - 1 * HOUR; engagementCount := Some 45%Z |} ].

Definition fetchLinkedInMentions : MentionSource := λ accessToken accountId now,
  inr [ {| content := "Great insights! This really resonates with my experience in the field.";
           author := "Jennifer Smith"; authorHandle := None;
           postUrl := Some "https://linkedin.com/posts/mock321";
           postedAt := now - 4 * HOUR; engagementCount := Some 18%Z |} ].

(** One adapter per platform. *)
Record Sources := {
  instagram : MentionSource;
  facebook : MentionSource;
  twitter : MentionSource;
  linkedin : MentionSource;
}.

Definition mock_sources : Sources :=
  {| instagram := fetchInstagramMentions; facebook := fetchFacebookMentions;
     twitter := fetchTwitterMentions; linkedin := fetchLinkedInMentions |}.

(** The [switch (platform)]: [None] is the default branch. *)
Definition source_of (sources : Sources) (platform : string) : option MentionSource :=
  if String.eqb platform "instagram" then Some (instagram sources)
  else if String.eqb platform "facebook" then Some (facebook sources)
  else if String.eqb platform "twitter" then Some (twitter sources)
  else if String.eqb platform "linkedin" then Some (linkedin sources)
  else None.

Inductive Response :=
| Unauthorized                       (* 401 *)
| MissingFields                      (* 400 *)
| AccountNotFound                    (* 404 *)
| AccountInactive                    (* 400 *)
| TokenExpired                       (* 401 *)
| UnsupportedPlatform                (* 400 *)
| FetchFailed (details : string)     (* 500 *)
| Ingested (fetched : nat) (inserted : list Mention) (skipped : nat).

(** The duplicate check: the rows equal to the mention on tenant,
    account, content, author and posted_at. *)
Definition duplicates (user account : uuid) (mention : SocialMention) (d : Database)
  : list Mention :=
  filter (λ r, user_id r = user ∧ social_account_id r = account
               ∧ Db.content r = content mention ∧ Db.author r = author mention
               ∧ posted_at r = postedAt mention) (mentions d).

(** [value || null] for a string that may be absent. *)
Definition or_null (v : option string) : option string :=
  match v with
  | Some EmptyString | None => None
  | Some s => Some s
  end.

(** The row the route inserts (its identifier is the store's to give). *)
Definition new_row (user account : uuid) (platform : string) (mention : SocialMention)
  : Mention :=
  {| mention_id := O; user_id := user; social_account_id := account;
     Db.platform := platform; Db.content := content mention;
     Db.author := author mention; author_handle := or_null (authorHandle mention);
     post_url := or_null (postUrl mention); posted_at := postedAt mention;
     sentiment_score := None; sentiment_label_of := None;
     sentiment_reasoning := None;
     engagement_count := default 0%Z (engagementCount mention) |}.

(** The insertion and [if (!insertError && inserted)]: a row the store
    refuses is neither among the inserted nor among the skipped. *)
Definition insert_step (user account : uuid) (platform : string)
    (mention : SocialMention) (st : list Mention * list SocialMention * Database)
  : list Mention * list SocialMention * Database :=
  let '(insertedMentions, skippedMentions, d) := st in
  match insert_mention (new_row user account platform mention) d with
  | (Some inserted, d') => (insertedMentions ++ [inserted], skippedMentions, d')
  | (None, d') => (insertedMentions, skippedMentions, d')
  end.

(** One turn of [for (const mention of mentions)]: the mentions inserted
    and skipped so far are carried along. *)
Definition ingest_step (user account : uuid) (platform : string) (force : bool)
    (mention : SocialMention) (st : list Mention * list SocialMention * Database)
  : list Mention * list SocialMention * Database :=
  let '(insertedMentions, skippedMentions, d) := st in
  match single (duplicates user account mention d) with
  | Some existing =>
      if negb force then (insertedMentions, skippedMentions ++ [mention], d)
      else insert_step user account platform mention st
  | None => insert_step user account platform mention st
  end.

Definition ingest_loop (user account : uuid) (platform : string) (force : bool)
    (fetched : list SocialMention) (d : Database)
  : list Mention * list SocialMention * Database :=
  fold_left (λ st mention, ingest_step user account platform force mention st)
            fetched ([], [], d).

Section Route.

Variable sources : Sources.

Definition POST (user : option uuid) (body : IngestRequest) (now : timestamp)
    (d : Database) : Response * Database :=
  match user with
  | None => (Unauthorized, d)
  | Some user =>
      match socialAccountId body with
      | None => (MissingFields, d)
      | Some account =>
          if String.eqb (platform_of body) EmptyString then (MissingFields, d) else
          match single (filter (λ a, account_row_id a = account ∧ account_user_id a = user)
                               (social_accounts d)) with
          | None => (AccountNotFound, d)
          | Some socialAccount =>
              if negb (is_active socialAccount) then (AccountInactive, d) else
              if match token_expires_at socialAccount with
                 | Some expiresAt => (expiresAt <? now)%Z
                 | None => false
                 end
              then (TokenExpired, d) else
              match source_of sources (platform_of body) with
              | None => (UnsupportedPlatform, d)
              | Some fetchMentions =>
                  match fetchMentions (access_token socialAccount)
                                      (account_id socialAccount) now with
                  | inl e => (FetchFailed (message_or "Unknown error" e), d)
                  | inr fetched =>
                      let '(insertedMentions, skippedMentions, d') :=
                        ingest_loop user account (platform_of body)
                                    (default false (forceRefresh body)) fetched d in
                      (Ingested (length fetched) insertedMentions
                                (length skippedMentions), d')
                  end
              end
          end
      end
  end.

End Route.
End Ingest.

(* ================================================================== *)
(** * The content-generation route *)
(* ================================================================== *)

Module Generate.
Import JS Json Db Anthropic.

Record GenerateRequest := {
  industry : string;
  customIndustry : option string;
  postCount : option Z;
  platform_of : option string;
  tone_of : option string;
  includeHashtags : option bool;
  includeCTA : option bool;
}.

(** The post as the response carries it. *)
Record GeneratedPost := {
  id : string;
  content : option json;
  hashtags : json;
  cta : option json;
  estimatedEngagement : json;
  bestTimeToPost : json;
  imagePrompt : option json;
}.

Record IndustryInfo := {
  description : string;
  keywords : list string;
  tone : string;
  commonHashtags : list string;
}.

Definition industryPresets (industry : string) : option IndustryInfo :=
  if String.eqb industry "beauty" then
    Some {| description := "Beauty, skincare, cosmetics, and wellness";
            keywords := ["skincare"; "beauty"; "glow"; "self-care"; "makeup"; "wellness"];
            tone := "inspirational and empowering";
            commonHashtags := ["#BeautyTips"; "#SkincareRoutine"; "#SelfCare";
                               "#GlowingSkin"; "#BeautyAddict"] |}
  else if String.eqb industry "fitness" then
    Some {| description := "Fitness, health, workouts, and nutrition";
            keywords := ["fitness"; "workout"; "health"; "nutrition"; "strength"; "wellness"];
            tone := "motivational and energetic";
            commonHashtags := ["#FitnessMotivation"; "#WorkoutRoutine"; "#HealthyLiving";
                               "#FitnessGoals"; "#StayActive"] |}
  else if String.eqb industry "legal" then
    Some {| description := "Legal services, law firm, attorney services";
            keywords := ["legal"; "law"; "attorney"; "rights"; "justice"; "consultation"];
            tone := "professional and trustworthy";
            commonHashtags := ["#LegalAdvice"; "#KnowYourRights"; "#LawFirm";
                               "#LegalServices"; "#JusticeMatters"] |}
  else if String.eqb industry "homeware" then
    Some {| description := "Home decor, furniture, interior design, and home improvement";
            keywords := ["home"; "decor"; "interior"; "design"; "furniture"; "cozy"];
            tone := "warm and inviting";
            commonHashtags := ["#HomeDecor"; "#InteriorDesign"; "#HomeInspiration";
                               "#CozyHome"; "#DecorIdeas"] |}
  else None.

(** [industry === 'custom' && customIndustry ? {...} : industryPresets[industry]];
    [None] is [undefined], on which the prompt cannot be written. *)
Definition industryInfo_of (industry : string) (customIndustry : option string)
    (tone : string) : option IndustryInfo :=
  match customIndustry with
  | Some (String _ _ as custom) =>
      if String.eqb industry "custom" then
        Some {| description := custom; keywords := []; tone := tone; commonHashtags := [] |}
      else industryPresets industry
  | _ => industryPresets industry
  end.

Definition show_Z (z : Z) : string := NilZero.string_of_int (Z.to_int z).

Definition join (l : list string) : string := String.concat ", " l.

Definition prompt_of (postCount : Z) (platform tone : string) (info : IndustryInfo)
    (includeHashtags includeCTA : bool) : string :=
  "You are an expert social media content creator. Generate " +:+ show_Z postCount
  +:+ " engaging " +:+ platform +:+ " posts for a " +:+ description info +:+ " business.

Requirements:
- Platform: " +:+ platform +:+ "
- Tone: " +:+ tone +:+ "
- Character limit: "
  +:+ (if String.eqb platform "twitter" then "280" else "no strict limit, but keep concise")
  +:+ "
- Each post should be unique and valuable
" +:+ (if includeHashtags then "- Include 3-5 relevant hashtags"
      else "- Do not include hashtags") +:+ "
" +:+ (if includeCTA then "- Include a clear call-to-action"
      else "- No call-to-action needed") +:+ "

Industry context:
- Keywords: " +:+ join (keywords info) +:+ "
- Tone: " +:+ Generate.tone info +:+ "
" +:+ (match commonHashtags info with
      | [] => EmptyString
      | tags => "- Popular hashtags: " +:+ join tags
      end) +:+ "

For each post, provide:
1. The main content/caption
2. Suggested hashtags (if requested)
3. Call-to-action (if requested)
4. A brief image/visual prompt suggestion
5. Best time to post (morning/afternoon/evening)
6. Estimated engagement level (high/medium/low)

Generate posts that:
- Are authentic and relatable
- Provide value (educational, entertaining, or inspirational)
- Encourage engagement (questions, polls, storytelling)
- Follow current social media best practices
- Are varied in content type (tips, behind-scenes, customer stories, promotions, etc.)

Respond ONLY with valid JSON in this exact format:
{
  " +:+ quoted "posts" +:+ ": [
    {
      " +:+ quoted "content" +:+ ": " +:+ quoted "Post caption here..." +:+ ",
      " +:+ quoted "hashtags" +:+ ": [" +:+ quoted "hashtag1" +:+ ", "
  +:+ quoted "hashtag2" +:+ "],
      " +:+ quoted "cta" +:+ ": " +:+ quoted "Call to action text" +:+ ",
      " +:+ quoted "imagePrompt" +:+ ": " +:+ quoted "Description of ideal image" +:+ ",
      " +:+ quoted "bestTimeToPost" +:+ ": " +:+ quoted "morning|afternoon|evening" +:+ ",
      " +:+ quoted "estimatedEngagement" +:+ ": " +:+ quoted "high|medium|low" +:+ "
    }
  ]
}

Generate " +:+ show_Z postCount +:+ " unique, high-quality posts now.".

(** [tierLimits[business.subscription_tier] || 0] *)
Definition tierLimits (tier : option subscription_tier) : Z :=
  match tier with
  | Some starter => 50
  | Some professional => 200
  | None => 0
  end.

(** One element of [response.posts.map((post, index) => ...)]; reading a
    property of [null] throws. *)
Definition generated_post (now : timestamp) (index : nat) (post : json)
  : option GeneratedPost :=
  match post with
  | JNull => None
  | _ =>
      Some {| id := "post_" +:+ show_Z now +:+ "_" +:+ show_nat index;
              content := prop post "content";
              hashtags := or_else (prop post "hashtags") (JArray []);
              cta := prop post "cta";
              estimatedEngagement := or_else (prop post "estimatedEngagement")
                                             (JString "medium");
              bestTimeToPost := or_else (prop post "bestTimeToPost")
                                        (JString "afternoon");
              imagePrompt := prop post "imagePrompt" |}
  end.

Fixpoint map_posts (now : timestamp) (index : nat) (posts : list json)
  : option (list GeneratedPost) :=
  match posts with
  | [] => Some []
  | post :: rest =>
      match generated_post now index post, map_posts now (S index) rest with
      | Some p, Some ps => Some (p :: ps)
      | _, _ => None
      end
  end.

(** [response.posts.map(...)]: a TypeError ([None]) unless [response] is
    an object whose [posts] is an array of values other than [null]. *)
Definition generatedPosts_of (now : timestamp) (response : json)
  : option (list GeneratedPost) :=
  match response with
  | JNull => None
  | _ =>
      match prop response "posts" with
      | Some (JArray posts) => map_posts now O posts
      | _ => None
      end
  end.

(** [postsToSave]: the rows to insert, all drafts. *)
Definition postToSave (business : uuid) (platform : string) (now : timestamp)
    (post : GeneratedPost) : Db.GeneratedPost :=
  {| generated_id := O; generated_business_id := business;
     generated_platform := platform; generated_content := content post;
     generated_hashtags := hashtags post; generated_cta := cta post;
     image_prompt := imagePrompt post; best_time_to_post := bestTimeToPost post;
     estimated_engagement := estimatedEngagement post; generated_status := draft;
     Db.scheduled_post_id := None; generated_at := now |}.

Definition with_generated_id (n : uuid) (row : Db.GeneratedPost) : Db.GeneratedPost :=
  {| generated_id := n; generated_business_id := generated_business_id row;
     generated_platform := generated_platform row;
     generated_content := generated_content row;
     generated_hashtags := generated_hashtags row; generated_cta := generated_cta row;
     image_prompt := image_prompt row; best_time_to_post := best_time_to_post row;
     estimated_engagement := estimated_engagement row;
     generated_status := generated_status row;
     Db.scheduled_post_id := Db.scheduled_post_id row;
     generated_at := generated_at row |}.

(** The rows as stored: identifiers drawn from the supply, in order. *)
Definition stored_rows (first : uuid) (rows : list Db.GeneratedPost)
  : list Db.GeneratedPost :=
  imap (λ i row, with_generated_id (first + i) row) rows.

Inductive Response :=
| Unauthorized                                         (* 401 *)
| NoBusiness                                           (* 404 *)
| SubscriptionRequired                                 (* 403 *)
| QuotaExceeded (usage limit : Z) (tier : option subscription_tier)   (* 429 *)
| Generated (posts : list GeneratedPost) (savedPosts : option (list Db.GeneratedPost))
            (current limit remaining : Z)
| ServerError (details : string).                      (* 500 *)

Definition subscribed (b : Business) : bool :=
  match subscription_status_of b with
  | Some active | Some trialing => true
  | _ => false
  end.

Section Route.

Variable anthropic : Oracle.

(** [new Date(new Date().setDate(1))], the instant the usage is counted
    from.  The handler is written for any such function; the source's is
    [first_of_the_month] below. *)
Variable setDate1 : timestamp → timestamp.

(** The tables [generated_posts] and [api_usage] are declared outside the
    sources: whether an insertion is accepted, and which row an upsert of
    [(business_id, posts_generated, updated_at)] replaces, are theirs to
    say. *)
Variable accepts : list Db.GeneratedPost → bool.
Variable upsert : uuid → Z → timestamp → list ApiUsage → list ApiUsage.

(** [usageData?.posts_generated || 0] over the usage row of the month. *)
Definition currentUsage_of (business : uuid) (now : timestamp) (d : Database) : Z :=
  match single (filter (λ u, usage_business_id u = business
                             ∧ (setDate1 now <= usage_created_at u)%Z) (api_usage d)) with
  | Some usageData => posts_generated usageData
  | None => 0
  end.

Definition POST (user : option uuid) (body : GenerateRequest) (now : timestamp)
    (w : World) : Response * World :=
  match user with
  | None => (Unauthorized, w)
  | Some user =>
      let postCount := default 7%Z (postCount body) in
      let platform := default "instagram" (platform_of body) in
      let tone := default "professional" (tone_of body) in
      let includeHashtags := default true (includeHashtags body) in
      let includeCTA := default true (includeCTA body) in
      match single (filter (λ b, business_user_id b = user) (businesses (db w))) with
      | None => (NoBusiness, w)
      | Some business =>
          if negb (subscribed business) then (SubscriptionRequired, w) else
          let currentUsage := currentUsage_of (business_id business) now (db w) in
          let limit := tierLimits (subscription_tier_of business) in
          if (limit <? currentUsage + postCount)%Z then
            (QuotaExceeded currentUsage limit (subscription_tier_of business), w)
          else
            match industryInfo_of (industry body) (customIndustry body) tone with
            | None => (ServerError TYPE_ERROR, w)
            | Some industryInfo =>
                let prompt := prompt_of postCount platform tone industryInfo
                                        includeHashtags includeCTA in
                let '(o, w1) := call anthropic prompt w in
                match o with
                | Failed message => (ServerError message, w1)
                | Status status body' =>
                    (ServerError (show_nat status +:+ " " +:+ body'), w1)
                | Message content =>
                    match JSON_parse (strip_code_fence (text_of content)) with
                    | None => (ServerError SYNTAX_ERROR, w1)
                    | Some response =>
                        match generatedPosts_of now response with
                        | None => (ServerError TYPE_ERROR, w1)
                        | Some generatedPosts =>
                            let postsToSave :=
                              postToSave (business_id business) platform now
                                <$> generatedPosts in
                            let '(savedPosts, d1) :=
                              if accepts postsToSave then
                                let rows := stored_rows (next_uuid (db w1)) postsToSave in
                                (Some rows,
                                 with_next_uuid (next_uuid (db w1) + length rows)
                                   (with_generated_posts
                                      (generated_posts (db w1) ++ rows) (db w1)))
                              else (None, db w1) in
                            let d2 :=
                              with_api_usage
                                (upsert (business_id business) (currentUsage + postCount)
                                        now (api_usage d1)) d1 in
                            (Generated generatedPosts savedPosts
                                       (currentUsage + postCount) limit
                                       (limit - (currentUsage + postCount)),
                             with_db d2 w1)
                        end
                    end
                end
            end
      end
  end.

End Route.

(** The source's [new Date(new Date().setDate(1))]: the first day of the
    present month, at the present time of day. *)
Definition first_of_the_month (now : timestamp) : timestamp := setDate now 1.

End Generate.

(* ================================================================== *)
(** * The scheduling route *)
(* ================================================================== *)

Module Schedule.
Import JS Json Db Anthropic.

(** [scheduledTime] is what [new Date(scheduledTime)] reads: [None] is an
    invalid date. *)
Record ScheduleRequest := {
  postId : option uuid;
  content : option string;
  platform_of : string;
  scheduledTime : option timestamp;
  hashtags : option (list string);
  imageUrl : option string;
}.

Record UpdateRequest := {
  new_scheduledTime : option (option timestamp);   (* absent, or a date read *)
  new_content : option string;
  new_hashtags : option (list string);
  new_imageUrl : option (option string);           (* [undefined], or a value or null *)
}.

Inductive Response :=
| Unauthorized                                         (* 401 *)
| ContentRequired                                      (* 400 *)
| PostIdRequired                                       (* 400 *)
| NoBusiness                                           (* 404 *)
| SubscriptionRequired                                 (* 403 *)
| NoActiveAccount                                      (* 400 *)
| NotInFuture                                          (* 400 *)
| GeneratedPostNotFound                                (* 404 *)
| ScheduledPostNotFound                                (* 404 *)
| LimitReached (scheduled : nat) (limit : nat) (tier : option subscription_tier)  (* 429 *)
| Scheduled (scheduledPost : ScheduledPost)
| Updated (post : ScheduledPost)
| Cancelled
| ServerError (details : string).                      (* 500 *)

Definition subscribed (b : Business) : bool :=
  match subscription_status_of b with
  | Some active | Some trialing => true
  | _ => false
  end.

(** [tierLimits[business.subscription_tier] || 0] *)
Definition tierLimits (tier : option subscription_tier) : nat :=
  match tier with
  | Some starter => 30
  | Some professional => 100
  | None => 0
  end.

Definition string_array (l : list string) : json := JArray (JString <$> l).

(** The rows of the business in status scheduled. *)
Definition scheduled_of (business : uuid) (d : Database) : list ScheduledPost :=
  filter (λ p, scheduled_business_id p = business ∧ status p = scheduled)
         (scheduled_posts d).

Definition mark_scheduled (row : uuid) (p : Db.GeneratedPost) : Db.GeneratedPost :=
  {| generated_id := generated_id p; generated_business_id := generated_business_id p;
     generated_platform := generated_platform p; generated_content := generated_content p;
     generated_hashtags := generated_hashtags p; generated_cta := generated_cta p;
     image_prompt := image_prompt p; best_time_to_post := best_time_to_post p;
     estimated_engagement := estimated_engagement p;
     generated_status := draft_scheduled; scheduled_post_id := Some row;
     generated_at := generated_at p |}.

Definition POST (user : option uuid) (body : ScheduleRequest) (now : timestamp)
    (d : Database) : Response * Database :=
  match user with
  | None => (Unauthorized, d)
  | Some user =>
      if match content body, postId body with
         | (None | Some EmptyString), None => true
         | _, _ => false
         end
      then (ContentRequired, d) else
      match single (filter (λ b, business_user_id b = user) (businesses d)) with
      | None => (NoBusiness, d)
      | Some business =>
          if negb (subscribed business) then (SubscriptionRequired, d) else
          match single (filter (λ a, account_business_id a = business_id business
                                     ∧ account_platform a = platform_of body
                                     ∧ is_active a = true) (social_accounts d)) with
          | None => (NoActiveAccount, d)
          | Some socialAccount =>
              (* Validate scheduled time is in the future *)
              if match scheduledTime body with
                 | Some scheduledDate => (scheduledDate <=? now)%Z
                 | None => false
                 end
              then (NotInFuture, d) else
              (* If postId provided, get the post content *)
              match
                match postId body with
                | Some post =>
                    match single (filter (λ p, generated_id p = post
                                               ∧ generated_business_id p = business_id business)
                                         (generated_posts d)) with
                    | None => None
                    | Some generatedPost =>
                        Some (generated_content generatedPost,
                              or_else (Some (generated_hashtags generatedPost)) (JArray []))
                    end
                | None =>
                    Some (JString <$> content body,
                          string_array (default [] (hashtags body)))
                end
              with
              | None => (GeneratedPostNotFound, d)
              | Some (postContent, postHashtags) =>
                  (* Check scheduling limits based on tier *)
                  let scheduledCount := length (scheduled_of (business_id business) d) in
                  let limit := tierLimits (subscription_tier_of business) in
                  if (limit <=? scheduledCount)%nat then
                    (LimitReached scheduledCount limit (subscription_tier_of business), d)
                  else
                    (* Create scheduled post *)
                    match scheduledTime body with
                    | None => (ServerError RANGE_ERROR, d)
                    | Some scheduledDate =>
                        let scheduledPost :=
                          {| scheduled_id := next_uuid d;
                             scheduled_business_id := business_id business;
                             scheduled_account_id := account_row_id socialAccount;
                             scheduled_platform := platform_of body;
                             scheduled_content := postContent;
                             scheduled_hashtags := postHashtags;
                             image_url := imageUrl body;
                             scheduled_time := scheduledDate;
                             status := scheduled;
                             created_at := now |} in
                        let d1 := with_next_uuid (S (next_uuid d))
                                    (with_scheduled_posts
                                       (scheduled_posts d ++ [scheduledPost]) d) in
                        (* Update generated post status if applicable *)
                        let d2 :=
                          match postId body with
                          | Some post =>
                              with_generated_posts
                                ((λ p, if decide (generated_id p = post)
                                       then mark_scheduled (scheduled_id scheduledPost) p
                                       else p) <$> generated_posts d1) d1
                          | None => d1
                          end in
                        (Scheduled scheduledPost, d2)
                    end
              end
          end
      end
  end.

(** PATCH: the fields present in the body overwrite those of the row;
    the status is not among them. *)
Definition apply_update (body : UpdateRequest) (scheduledDate : option timestamp)
    (p : ScheduledPost) : ScheduledPost :=
  {| scheduled_id := scheduled_id p;
     scheduled_business_id := scheduled_business_id p;
     scheduled_account_id := scheduled_account_id p;
     scheduled_platform := scheduled_platform p;
     scheduled_content :=
       match new_content body with
       | Some (String _ _ as c) => Some (JString c)
       | _ => scheduled_content p
       end;
     scheduled_hashtags :=
       match new_hashtags body with
       | Some tags => string_array tags
       | None => scheduled_hashtags p
       end;
     image_url := default (image_url p) (new_imageUrl body);
     scheduled_time := default (scheduled_time p) scheduledDate;
     status := status p;
     created_at := created_at p |}.

Definition PATCH (user : option uuid) (id : option uuid) (body : UpdateRequest)
    (d : Database) : Response * Database :=
  match user with
  | None => (Unauthorized, d)
  | Some user =>
      match id with
      | None => (PostIdRequired, d)
      | Some post =>
          match single (filter (λ b, business_user_id b = user) (businesses d)) with
          | None => (NoBusiness, d)
          | Some business =>
              (* Verify post belongs to user *)
              match single (filter (λ p, scheduled_id p = post
                                         ∧ scheduled_business_id p = business_id business)
                                   (scheduled_posts d)) with
              | None => (ScheduledPostNotFound, d)
              | Some existingPost =>
                  match new_scheduledTime body with
                  | Some None => (ServerError RANGE_ERROR, d)
                  | scheduledDate =>
                      let rows := filter (λ p, scheduled_id p = post) (scheduled_posts d) in
                      match single (apply_update body (mjoin scheduledDate) <$> rows) with
                      | None => (ServerError "Unknown error", d)
                      | Some updatedPost =>
                          (Updated updatedPost,
                           with_scheduled_posts
                             ((λ p, if decide (scheduled_id p = post)
                                    then apply_update body (mjoin scheduledDate) p
                                    else p) <$> scheduled_posts d) d)
                      end
                  end
              end
          end
      end
  end.

Definition cancel (p : ScheduledPost) : ScheduledPost :=
  {| scheduled_id := scheduled_id p;
     scheduled_business_id := scheduled_business_id p;
     scheduled_account_id := scheduled_account_id p;
     scheduled_platform := scheduled_platform p;
     scheduled_content := scheduled_content p;
     scheduled_hashtags := scheduled_hashtags p;
     image_url := image_url p;
     scheduled_time := scheduled_time p;
     status := cancelled;
     created_at := created_at p |}.

(** DELETE: "Update status to cancelled instead of deleting", on the rows
    of that identifier and business. *)
Definition DELETE (user : option uuid) (id : option uuid) (d : Database)
  : Response * Database :=
  match user with
  | None => (Unauthorized, d)
  | Some user =>
      match id with
      | None => (PostIdRequired, d)
      | Some post =>
          match single (filter (λ b, business_user_id b = user) (businesses d)) with
          | None => (NoBusiness, d)
          | Some business =>
              (Cancelled,
               with_scheduled_posts
                 ((λ p, if decide (scheduled_id p = post
                                   ∧ scheduled_business_id p = business_id business)
                        then cancel p else p) <$> scheduled_posts d) d)
          end
      end
  end.

End Schedule.

(* ================================================================== *)
(** * The helpers of [lib/supabase] *)
(* ================================================================== *)

Module Supabase.
Import Db Anthropic.

(** [getCurrentUser] answers with the signed-in user or [null]; who is
    signed in is an input here, as it is for the routes. *)

(** [getCurrentBusiness] *)
Definition getCurrentBusiness (user : option uuid) (d : Database) : option Business :=
  match user with
  | None => None
  | Some user => single (filter (λ b, business_user_id b = user) (businesses d))
  end.

(** [hasActiveSubscription(tier?)] *)
Definition hasActiveSubscription (user : option uuid) (tier : option subscription_tier)
    (d : Database) : bool :=
  match getCurrentBusiness user d with
  | None => false
  | Some business =>
      let isActive :=
        match subscription_status_of business with
        | Some active | Some trialing => true
        | _ => false
        end in
      match tier with
      | Some tier => isActive && bool_decide (subscription_tier_of business = Some tier)
      | None => isActive
      end
  end.

(** [enforceBusinessAccess(businessId)]: the [id] of the business, or the
    error thrown. *)
Definition enforceBusinessAccess (user : option uuid) (businessId : uuid) (d : Database)
  : exn + uuid :=
  match user with
  | None => inl (Error "Unauthorized")
  | Some user =>
      match single (filter (λ b, business_id b = businessId ∧ business_user_id b = user)
                           (businesses d)) with
      | None => inl (Error "Access denied to this business")
      | Some business => inr (business_id business)
      end
  end.

End Supabase.

(* ================================================================== *)
(** * The status of the analysis ([GET] of [route.ts]) *)
(* ================================================================== *)

Module Status.
Import Db.

(** The reply to a query made with [{ count: 'exact', head: true }]: the
    request is a HEAD, so the matching rows are counted and none is sent
    back; the number is in [count] and [data] is [null]. *)
Record HeadReply := { data : option Empty_set; count : option nat }.

Definition head_count {A} (rows : list A) : HeadReply :=
  {| data := None; count := Some (length rows) |}.

(** [data || 0] *)
Definition or_zero (data : option Empty_set) : Z :=
  match data with
  | None => 0
  | Some rows => match rows with end
  end.

Record Stats := {
  total : Z;
  analyzed : Z;
  pending : Z;
  percentageComplete : Q;
}.

Inductive Response :=
| Unauthorized                       (* 401 *)
| Success (stats : Stats).

Definition GET (user : option uuid) (d : Database) : Response :=
  match user with
  | None => Unauthorized
  | Some user =>
      let total := data (head_count (filter (λ m, user_id m = user) (mentions d))) in
      let analyzed :=
        data (head_count (filter (λ m, user_id m = user ∧ sentiment_score m ≠ None)
                                 (mentions d))) in
      let totalCount := or_zero total in
      let analyzedCount := or_zero analyzed in
      let pendingCount := (totalCount - analyzedCount)%Z in
      Success {| total := totalCount; analyzed := analyzedCount; pending := pendingCount;
                 percentageComplete :=
                   if (0 <? totalCount)%Z
                   then (inject_Z analyzedCount / inject_Z totalCount * 100)%Q
                   else 0%Q |}
  end.

End Status.

(* ================================================================== *)
(** * The feed of mentions ([MentionFeed.tsx]) *)
(* ================================================================== *)

Module MentionFeed.
Import JS Db.

(** The tab chosen: all, one of the three labels, or unanalyzed. *)
Inductive Filter := all | by_label (l : sentiment_label) | unanalyzed.

(** The test of [mentions.filter(mention => ...)]. *)
Definition shown (filter : Filter) (mention : Mention) : bool :=
  match filter with
  | all => true
  | unanalyzed => bool_decide (sentiment_score mention = None)
  | by_label l => bool_decide (sentiment_label_of mention = Some l)
  end.

Definition filteredMentions (filter : Filter) (mentions : list Mention) : list Mention :=
  List.filter (shown filter) mentions.

Definition unanalyzedCount (mentions : list Mention) : nat :=
  length (List.filter (λ m, bool_decide (sentiment_score m = None)) mentions).

(** The number on the tab of a label. *)
Definition label_count (l : sentiment_label) (mentions : list Mention) : nat :=
  length (List.filter (λ m, bool_decide (sentiment_label_of m = Some l)) mentions).

(** [getTimeAgo], the clock and the date in milliseconds; [Math.floor] of
    a quotient is the division of [Z]. *)
Definition getTimeAgo (now date : timestamp) : string :=
  let diffInSeconds := ((now - date) / 1000)%Z in
  if (diffInSeconds <? 60)%Z then Generate.show_Z diffInSeconds +:+ "s ago"
  else if (diffInSeconds <? 3600)%Z then Generate.show_Z (diffInSeconds / 60) +:+ "m ago"
  else if (diffInSeconds <? 86400)%Z then
    Generate.show_Z (diffInSeconds / 3600) +:+ "h ago"
  else Generate.show_Z (diffInSeconds / 86400) +:+ "d ago".

End MentionFeed.

(* ================================================================== *)
(** * The sentiment page ([page.tsx]) *)
(* ================================================================== *)

Module SentimentPage.
Import Db.

(** [order('date', { ascending: true })] *)
Definition by_date (a b : Z * SentimentAnalytics) : Prop := (a.1 <= b.1)%Z.

#[global] Instance by_date_dec a b : Decision (by_date a b).
Proof. unfold by_date. apply _. Defined.

(** The rows [getSentimentData] reads from [sentiment_analytics]: those
    of the tenant dated [since] or later, by ascending date.  [since] is
    the date thirty days back, which the platform's calendar computes. *)
Definition analytics_since (user : uuid) (since : Z) (d : Database)
  : list (Z * SentimentAnalytics) :=
  merge_sort by_date
    ((λ kv : uuid * Z * SentimentAnalytics, (kv.1.2, kv.2))
       <$> filter (λ kv : uuid * Z * SentimentAnalytics, kv.1.1 = user ∧ (since <= kv.1.2)%Z)
                  (map_to_list (sentiment_analytics d))).

(** The whole-number fields of the summary, each a [reduce] from zero;
    [avgScore] and [positivePercentage] are floating-point quotients and
    are left out. *)
Definition totalMentions (analytics : list (Z * SentimentAnalytics)) : nat :=
  foldl (λ sum day, (sum + total_mentions day.2)%nat) 0%nat analytics.

Definition positiveCount (analytics : list (Z * SentimentAnalytics)) : nat :=
  foldl (λ sum day, (sum + positive_count day.2)%nat) 0%nat analytics.

Definition negativeCount (analytics : list (Z * SentimentAnalytics)) : nat :=
  foldl (λ sum day, (sum + negative_count day.2)%nat) 0%nat analytics.

End SentimentPage.

(* ================================================================== *)
(** * Properties *)
(* ================================================================== *)

Section AnalyticsProperties.
Import Json Db.

(** ** The daily analytics row *)

Section Analytics.

Implicit Types (db : Database) (ms : list Mention) (m : Mention).

(** A sentiment update: a statement that sets the score of the rows of
    an identifier and user to a number, with a label and a reasoning. *)
Record SentimentUpdate := {
  upd_id : uuid;
  upd_user : uuid;
  upd_score : number;
  upd_label : sentiment_label;
  upd_reasoning : string;
}.

Definition apply_update (u : SentimentUpdate) db : Database :=
  default db (update_mention_sentiment (upd_id u) (upd_user u) (Some (upd_score u))
                                       (upd_label u) (upd_reasoning u) db).

Definition apply_updates (us : list SentimentUpdate) db : Database :=
  fold_left (λ d u, apply_update u d) us db.

(** Every scored mention carries a label. *)
Definition labelled ms : Prop :=
  Forall (λ m, is_Some (sentiment_score m) → is_Some (sentiment_label_of m)) ms.

(** The mean of the scores, as a rational. *)
Definition score_value (s : Z) : Q := s # 10.

Definition Qsum (l : list Q) : Q := foldr Qplus 0%Q l.

Definition mean_score ms : Q :=
  (Qsum ((λ m, score_value (default 0%Z (sentiment_score m))) <$> ms)
   / inject_Z (Z.of_nat (length ms)))%Q.

(** What the day's row records, against the mentions [rows] of the day. *)
Definition row_counts_ok (row : SentimentAnalytics) (rows : list Mention) : Prop :=
  total_mentions row = (positive_count row + negative_count row + neutral_count row)%nat
  ∧ total_mentions row = length rows
  ∧ average_score row = AVG rows.

Definition day_consistent db (t : uuid) (d : Z) : Prop :=
  let rows := scored_on t d (mentions db) in
  match sentiment_analytics db !! (t, d) with
  | Some row => rows ≠ [] ∧ row_counts_ok row rows
  | None => rows = []
  end.


(** *** The trigger leaves [mentions] alone and writes one key *)

Definition recomputes (OLD : option Mention) (NEW : Mention) : bool :=
  match sentiment_score NEW with
  | Some s => bool_decide (OLD ≫= sentiment_score = None ∨ OLD ≫= sentiment_score ≠ Some s)
  | None => false
  end.

Definition day_key m : uuid * Z := (user_id m, DATE (posted_at m)).

Lemma trigger_mentions OLD NEW db :
  mentions (update_sentiment_analytics OLD NEW db) = mentions db.
Proof.
  unfold update_sentiment_analytics.
  destruct (sentiment_score NEW); [case_decide|]; reflexivity.
Qed.

Lemma trigger_lookup OLD NEW db k :
  sentiment_analytics (update_sentiment_analytics OLD NEW db) !! k =
  if recomputes OLD NEW && bool_decide (day_key NEW = k)
  then Some (day_aggregate k.1 k.2 (mentions db))
  else sentiment_analytics db !! k.
Proof.
  unfold update_sentiment_analytics, recomputes, day_key.
  destruct (sentiment_score NEW) as [s|]; [|reflexivity].
  case_decide; simpl.
  - rewrite bool_decide_eq_true_2 by assumption. simpl.
    case_bool_decide as Hk.
    + subst k. simpl. apply lookup_insert_eq.
    + apply lookup_insert_ne. assumption.
  - rewrite bool_decide_eq_false_2 by assumption. reflexivity.
Qed.

Lemma fire_cons c changes db :
  fire db (c :: changes) = fire (update_sentiment_analytics (Some c.1) c.2 db) changes.
Proof. reflexivity. Qed.

Lemma fire_mentions changes db : mentions (fire db changes) = mentions db.
Proof.
  revert db. induction changes as [|c changes IH]; intros db; [reflexivity|].
  rewrite fire_cons, IH. apply trigger_mentions.
Qed.

Lemma fire_lookup changes db k :
  sentiment_analytics (fire db changes) !! k =
  if existsb (λ c, recomputes (Some c.1) c.2 && bool_decide (day_key c.2 = k)) changes
  then Some (day_aggregate k.1 k.2 (mentions db))
  else sentiment_analytics db !! k.
Proof.
  revert db. induction changes as [|c changes IH]; intros db; [reflexivity|].
  rewrite fire_cons, IH, trigger_mentions, trigger_lookup. simpl existsb.
  destruct (recomputes (Some c.1) c.2 && bool_decide (day_key c.2 = k)); simpl.
  - destruct (existsb _ changes); reflexivity.
  - reflexivity.
Qed.

(** *** Counting by label *)

Lemma count_labels ms :
  labelled ms →
  Forall (λ m, is_Some (sentiment_score m)) ms →
  length ms = (count_label positive ms + count_label negative ms
               + count_label neutral ms)%nat.
Proof.
  unfold count_label.
  induction ms as [|m ms IH]; intros Hl Hs; [reflexivity|].
  inversion_clear Hl as [|? ? Hm Hl']. inversion_clear Hs as [|? ? Hsm Hs'].
  specialize (IH Hl' Hs'). rewrite !filter_cons.
  destruct (Hm Hsm) as [l Hlab]. rewrite Hlab.
  destruct l; repeat case_decide; simplify_eq; simpl; lia.
Qed.

Lemma scored_on_labelled t d ms : labelled ms → labelled (scored_on t d ms).
Proof.
  unfold labelled, scored_on. rewrite !Forall_forall.
  intros H m Hm%list_elem_of_filter. apply H, Hm.
Qed.

Lemma scored_on_scored t d ms :
  Forall (λ m, is_Some (sentiment_score m)) (scored_on t d ms).
Proof.
  unfold scored_on. rewrite Forall_forall.
  intros m Hm%list_elem_of_filter. apply Hm.
Qed.

Lemma day_aggregate_ok t d ms :
  labelled ms → row_counts_ok (day_aggregate t d ms) (scored_on t d ms).
Proof.
  intros Hl. unfold row_counts_ok, day_aggregate. simpl.
  split; [|split; reflexivity].
  apply count_labels; [apply scored_on_labelled, Hl | apply scored_on_scored].
Qed.


(** *** One UPDATE statement keeps the day's row consistent *)

Section UpdateRows.

Variables (id user : uuid) (s : Z) (l : sentiment_label) (r : string).

Let hit m : Prop := mention_id m = id ∧ user_id m = user.
Let upd m : Mention := if decide (hit m) then set_sentiment (Some s) l r m else m.

Lemma update_rows_mentions db :
  mentions (update_rows id user s l r db) = upd <$> mentions db.
Proof. unfold update_rows. rewrite fire_mentions. reflexivity. Qed.

Lemma upd_day_key m : day_key (upd m) = day_key m.
Proof. unfold upd. case_decide; reflexivity. Qed.

Lemma upd_labelled ms : labelled ms → labelled (upd <$> ms).
Proof.
  unfold labelled. rewrite !Forall_forall.
  intros H m' (m & -> & Hm)%list_elem_of_fmap_1.
  unfold upd. case_decide; [intros _; eexists; reflexivity|].
  apply H, Hm.
Qed.

(** Where the trigger does not recompute the day of a row it touched,
    the row already had the score it is given. *)
Lemma quiet_same_score m :
  hit m → recomputes (Some m) (set_sentiment (Some s) l r m) = false →
  sentiment_score m = Some s.
Proof.
  intros _. unfold recomputes. simpl. intros H%bool_decide_eq_false.
  destruct (decide (sentiment_score m = Some s)) as [|Hne]; [assumption|].
  exfalso. apply H. right. exact Hne.
Qed.

Lemma scored_on_upd t d ms :
  (∀ m, m ∈ ms → day_key m = (t, d) → hit m → sentiment_score m = Some s) →
  scored_on t d (upd <$> ms) = upd <$> scored_on t d ms.
Proof.
  unfold scored_on.
  induction ms as [|m ms IH]; intros H; [reflexivity|].
  rewrite fmap_cons, !filter_cons.
  rewrite IH by (intros; apply H; [right|..]; assumption).
  assert (Hm : day_key m = (t, d) → hit m → sentiment_score m = Some s)
    by (apply H; left).
  assert (Hiff : (user_id (upd m) = t ∧ DATE (posted_at (upd m)) = d
                  ∧ is_Some (sentiment_score (upd m)))
                 ↔ (user_id m = t ∧ DATE (posted_at m) = d
                    ∧ is_Some (sentiment_score m))).
  { unfold upd, day_key in *. case_decide; [simpl|reflexivity].
    split; intros (Hu & Hd & Hs); repeat split; try assumption.
    - rewrite Hm by (congruence || assumption). eexists; reflexivity.
    - eexists; reflexivity. }
  destruct (decide (user_id (upd m) = t ∧ _)) as [Hy|Hn];
    destruct (decide (user_id m = t ∧ _)) as [Hy'|Hn']; try reflexivity.
  - exfalso. apply Hn', Hiff, Hy.
  - exfalso. apply Hn, Hiff, Hy'.
Qed.

Lemma score_sum_upd ms :
  (∀ m, m ∈ ms → hit m → sentiment_score m = Some s) →
  score_sum (upd <$> ms) = score_sum ms.
Proof.
  induction ms as [|m ms IH]; intros H; [reflexivity|].
  rewrite fmap_cons. simpl. rewrite IH by (intros; apply H; [right|]; assumption).
  f_equal. unfold upd. case_decide; [|reflexivity].
  simpl. rewrite (H m) by (left || assumption). reflexivity.
Qed.

Lemma AVG_upd ms :
  (∀ m, m ∈ ms → hit m → sentiment_score m = Some s) →
  AVG (upd <$> ms) = AVG ms.
Proof.
  intros H. unfold AVG. rewrite score_sum_upd, length_fmap by assumption.
  destruct ms; reflexivity.
Qed.

Lemma update_rows_consistent db t d :
  labelled (mentions db) →
  day_consistent db t d →
  day_consistent (update_rows id user s l r db) t d.
Proof.
  intros Hl Hc. unfold day_consistent. cbv zeta.
  rewrite update_rows_mentions. unfold update_rows.
  rewrite fire_lookup. cbn [mentions sentiment_analytics with_mentions].
  fold hit. fold upd.
  destruct (existsb _ _) eqn:E.
  - apply existsb_exists in E as ([m0 m1] & Hin & Hc1).
    apply andb_prop in Hc1 as [_ Hk%bool_decide_eq_true]. simpl in Hk.
    apply list_elem_of_In, list_elem_of_fmap_1 in Hin as (m & Heq & Hm).
    injection Heq as -> ->.
    apply list_elem_of_filter in Hm as [Hh Hm].
    split; [|apply day_aggregate_ok, upd_labelled, Hl].
    intros Hnil.
    assert (Hin : set_sentiment (Some s) l r m ∈ scored_on t d (upd <$> mentions db)).
    { apply list_elem_of_filter. unfold day_key in Hk. simpl in Hk.
      injection Hk as Hu Hd. split.
      - simpl. repeat split; try assumption. eexists; reflexivity.
      - apply list_elem_of_fmap. exists m. split; [|assumption].
        unfold upd. rewrite decide_True by assumption. reflexivity. }
    rewrite Hnil in Hin. inversion Hin.
  - assert (Hq : ∀ m, m ∈ mentions db → day_key m = (t, d) → hit m →
                      sentiment_score m = Some s).
    { intros m Hm Hk Hh. apply quiet_same_score; [assumption|].
      destruct (recomputes _ _) eqn:R; [|reflexivity].
      assert (existsb (λ c : Mention * Mention,
                recomputes (Some c.1) c.2 && bool_decide (day_key c.2 = (t, d)))
                ((λ m, (m, set_sentiment (Some s) l r m)) <$> filter hit (mentions db))
              = true) as E'; [|rewrite E' in E; discriminate].
      apply existsb_exists. exists (m, set_sentiment (Some s) l r m). split.
      - apply list_elem_of_In.
        apply (list_elem_of_fmap_2 (λ m, (m, set_sentiment (Some s) l r m))).
        apply list_elem_of_filter. auto.
      - simpl. rewrite R. simpl. apply bool_decide_eq_true. exact Hk. }
    rewrite scored_on_upd by assumption.
    assert (Hq' : ∀ m, m ∈ scored_on t d (mentions db) → hit m →
                       sentiment_score m = Some s).
    { intros m Hm Hh. unfold scored_on in Hm.
      apply list_elem_of_filter in Hm as [HP Hm]. simpl in HP.
      destruct HP as (Hu & Hd & _).
      apply Hq; [assumption| |assumption]. unfold day_key. congruence. }
    unfold day_consistent, row_counts_ok in Hc. cbv zeta in Hc.
    destruct (sentiment_analytics db !! (t, d)) as [row|].
    + destruct Hc as [Hne (H1 & H2 & H3)]. split.
      * intros Hnil%fmap_nil_inv. contradiction.
      * unfold row_counts_ok. rewrite length_fmap, AVG_upd by assumption. auto.
    + rewrite Hc. reflexivity.
Qed.

End UpdateRows.

(** *** The statement that sets the score to NULL *)

Section UpdateRowsNull.

Variables (id user : uuid) (l : sentiment_label) (r : string).

Let hit m : Prop := mention_id m = id ∧ user_id m = user.
Let clear m : Mention := if decide (hit m) then set_sentiment None l r m else m.

Lemma fire_unscored changes db :
  Forall (λ c : Mention * Mention, sentiment_score c.2 = None) changes →
  fire db changes = db.
Proof.
  revert db. induction changes as [|c changes IH]; intros db Hc; [reflexivity|].
  inversion_clear Hc as [|? ? H Hc']. rewrite fire_cons.
  unfold update_sentiment_analytics. rewrite H. apply IH, Hc'.
Qed.

Lemma update_rows_null_eq db :
  update_rows_null id user l r db = with_mentions (clear <$> mentions db) db.
Proof.
  unfold update_rows_null. apply fire_unscored.
  apply Forall_fmap, Forall_true. reflexivity.
Qed.

Lemma update_rows_null_mentions db :
  mentions (update_rows_null id user l r db) = clear <$> mentions db.
Proof. rewrite update_rows_null_eq. reflexivity. Qed.

Lemma update_rows_null_analytics db :
  sentiment_analytics (update_rows_null id user l r db) = sentiment_analytics db.
Proof. rewrite update_rows_null_eq. reflexivity. Qed.

Lemma clear_labelled ms : labelled ms → labelled (clear <$> ms).
Proof.
  unfold labelled. rewrite !Forall_forall.
  intros H m' (m & -> & Hm)%list_elem_of_fmap_1.
  unfold clear. case_decide; [intros _; eexists; reflexivity|].
  apply H, Hm.
Qed.

(** Where the rows the statement touches had no score, the scored
    mentions of every day are what they were. *)
Lemma scored_on_clear t d ms :
  (∀ m, m ∈ ms → hit m → sentiment_score m = None) →
  scored_on t d (clear <$> ms) = scored_on t d ms.
Proof.
  unfold scored_on.
  induction ms as [|m ms IH]; intros H; [reflexivity|].
  rewrite fmap_cons, !filter_cons.
  rewrite IH by (intros; apply H; [right|]; assumption).
  destruct (decide (hit m)) as [Hh|Hh].
  - assert (Hs : sentiment_score m = None) by (apply H; [left|assumption]).
    assert (clear m = set_sentiment None l r m) as ->
      by (unfold clear; rewrite decide_True by exact Hh; reflexivity).
    rewrite !decide_False; [reflexivity|..].
    + intros (_ & _ & [x Hx]). rewrite Hs in Hx. discriminate.
    + intros (_ & _ & [x Hx]). discriminate.
  - assert (clear m = m) as ->
      by (unfold clear; rewrite decide_False by exact Hh; reflexivity).
    reflexivity.
Qed.

Lemma update_rows_null_consistent db t d :
  (∀ m, m ∈ mentions db → hit m → sentiment_score m = None) →
  day_consistent db t d →
  day_consistent (update_rows_null id user l r db) t d.
Proof.
  intros Hu Hc. unfold day_consistent. cbv zeta.
  rewrite update_rows_null_mentions, update_rows_null_analytics.
  fold hit in Hu. rewrite scored_on_clear by exact Hu. exact Hc.
Qed.

End UpdateRowsNull.

Lemma apply_update_labelled u db :
  labelled (mentions db) → labelled (mentions (apply_update u db)).
Proof.
  intros Hl. unfold apply_update, update_mention_sentiment.
  destruct (numeric_3_1 (upd_score u)); [|exact Hl]. simpl.
  rewrite update_rows_mentions. apply upd_labelled, Hl.
Qed.

Lemma apply_update_consistent u db t d :
  labelled (mentions db) → day_consistent db t d →
  day_consistent (apply_update u db) t d.
Proof.
  intros Hl Hc. unfold apply_update, update_mention_sentiment.
  destruct (numeric_3_1 (upd_score u)); [|exact Hc]. simpl.
  apply update_rows_consistent; assumption.
Qed.

Lemma apply_updates_consistent us db t d :
  labelled (mentions db) → day_consistent db t d →
  labelled (mentions (apply_updates us db)) ∧ day_consistent (apply_updates us db) t d.
Proof.
  revert db. induction us as [|u us IH]; intros db Hl Hc; [split; assumption|].
  apply IH; [apply apply_update_labelled | apply apply_update_consistent]; assumption.
Qed.

(** *** Rounding to one decimal *)

Lemma round_half_away_bound n d :
  (0 < d)%Z → (Z.abs (2 * d * round_half_away n d - 2 * n) <= d)%Z.
Proof.
  intros Hd. unfold round_half_away.
  pose proof (Z.div_mod (2 * Z.abs n + d) (2 * d) ltac:(lia)) as Hdm.
  pose proof (Z.mod_pos_bound (2 * Z.abs n + d) (2 * d) ltac:(lia)) as Hmod.
  set (q := ((2 * Z.abs n + d) / (2 * d))%Z) in *.
  set (m := ((2 * Z.abs n + d) mod (2 * d))%Z) in *.
  destruct (Z.sgn_spec n) as [[Hn ->]|[[Hn ->]|[Hn ->]]]; nia.
Qed.

Lemma Qsum_scores ms :
  (Qsum ((λ m, score_value (default 0%Z (sentiment_score m))) <$> ms)
   == score_sum ms # 10)%Q.
Proof.
  induction ms as [|m ms IH]; [reflexivity|].
  rewrite fmap_cons. simpl. rewrite IH. unfold score_value, Qeq, Qplus. simpl. lia.
Qed.

Lemma mean_score_frac ms :
  ms ≠ [] →
  (mean_score ms == score_sum ms # (10 * Pos.of_nat (length ms)))%Q.
Proof.
  intros Hne. unfold mean_score. rewrite Qsum_scores.
  destruct ms as [|m ms]; [contradiction|].
  generalize (score_sum (m :: ms)). intros S.
  change (length (m :: ms)) with (Datatypes.S (length ms)).
  rewrite Nat2Z.inj_succ, <- Pos.of_nat_succ, <- Zpos_P_of_succ_nat.
  unfold Qeq, Qdiv, Qmult, Qinv, inject_Z. simpl. lia.
Qed.

Lemma AVG_close ms a :
  AVG ms = Some a → (Qabs (score_value a - mean_score ms) <= 1 # 20)%Q.
Proof.
  intros HA. assert (Hne : ms ≠ []) by (intros ->; discriminate).
  rewrite mean_score_frac by assumption.
  unfold AVG in HA. destruct ms as [|m ms]; [discriminate|].
  injection HA as <-.
  set (n := length (m :: ms)). assert (Hn : (0 < Z.of_nat n)%Z) by (subst n; simpl; lia).
  pose proof (round_half_away_bound (score_sum (m :: ms)) (Z.of_nat n) Hn) as Hb.
  set (a := round_half_away _ _) in *. set (S := score_sum _) in *.
  assert (HP : Z.pos (Pos.of_nat n) = Z.of_nat n).
  { destruct n; [lia|]. rewrite <- Pos.of_nat_succ, Zpos_P_of_succ_nat. lia. }
  apply Qabs_Qle_condition. unfold score_value, Qle, Qminus, Qplus, Qopp. simpl.
  rewrite !Pos2Z.inj_mul, HP. split; lia.
Qed.

(** After a statement that scores a mention of the day, or changes its
    score, the day's row is exactly the aggregate over the day's scored
    mentions, label by label. *)
Lemma update_rows_recomputed id user s l r db m :
  m ∈ mentions db → mention_id m = id → user_id m = user →
  sentiment_score m ≠ Some s →
  let db' := update_rows id user s l r db in
  sentiment_analytics db' !! day_key m
  = Some (day_aggregate (user_id m) (DATE (posted_at m)) (mentions db')).
Proof.
  intros Hm Hid Hu Hs db'. subst db'.
  rewrite update_rows_mentions. unfold update_rows. rewrite fire_lookup.
  cbn [mentions sentiment_analytics with_mentions].
  match goal with |- (if ?b then _ else _) = _ => assert (b = true) as -> end;
    [|reflexivity].
  apply existsb_exists. exists (m, set_sentiment (Some s) l r m). split.
  - apply list_elem_of_In.
    apply (list_elem_of_fmap_2 (λ m, (m, set_sentiment (Some s) l r m))).
    apply list_elem_of_filter. auto.
  - apply andb_true_intro. split; [|apply bool_decide_eq_true; reflexivity].
    unfold recomputes. simpl. apply bool_decide_eq_true. right. exact Hs.
Qed.

(** What the specification states of the day's row, the average being
    the mean up to [eps]. *)
Definition day_row_as_stated (eps : Q) db (t : uuid) (d : Z) : Prop :=
  let rows := scored_on t d (mentions db) in
  ∀ row, sentiment_analytics db !! (t, d) = Some row →
    total_mentions row = (positive_count row + negative_count row + neutral_count row)%nat
    ∧ ∃ a, average_score row = Some a
           ∧ (Qabs (score_value a - mean_score rows) <= eps)%Q.

(** What holds: the average is the mean rounded to one decimal. *)
Definition day_row_rounded db (t : uuid) (d : Z) : Prop :=
  let rows := scored_on t d (mentions db) in
  match sentiment_analytics db !! (t, d) with
  | Some row =>
      total_mentions row = (positive_count row + negative_count row + neutral_count row)%nat
      ∧ total_mentions row = length rows
      ∧ ∃ a, average_score row = Some a
             ∧ a = round_half_away (score_sum rows) (Z.of_nat (length rows))
             ∧ (Qabs (score_value a - mean_score rows) <= 1 # 20)%Q
  | None => rows = []
  end.

Lemma day_consistent_rounded db t d : day_consistent db t d → day_row_rounded db t d.
Proof.
  unfold day_consistent, day_row_rounded, row_counts_ok. cbv zeta.
  destruct (sentiment_analytics db !! (t, d)) as [row|]; [|auto].
  intros (Hne & H1 & H2 & H3). split; [assumption|]. split; [assumption|].
  destruct (scored_on t d (mentions db)) as [|m ms] eqn:E; [contradiction|].
  eexists. split; [exact H3|]. split; [reflexivity|].
  apply AVG_close. reflexivity.
Qed.

End Analytics.

Definition tenths (n : N) : number := {| neg := false; mant := n; expo := -1 |}.

Definition unscored (id user : uuid) (at_ : timestamp) (text : string) : Mention :=
  {| mention_id := id; user_id := user; social_account_id := 0%nat;
     platform := "instagram"; content := text; author := "ann";
     author_handle := None; post_url := None; posted_at := at_;
     sentiment_score := None; sentiment_label_of := None;
     sentiment_reasoning := None; engagement_count := 0 |}.

(** Two unscored mentions of tenant 1, both posted on day 0. *)
Definition two_mentions : Database :=
  with_mentions [unscored 10 1 1000 "great"; unscored 11 1 2000 "fine"] Db.empty.

(** The first is scored 7.5, the second 8.0. *)
Definition two_updates : list SentimentUpdate :=
  [ {| upd_id := 10%nat; upd_user := 1%nat; upd_score := tenths 75;
       upd_label := positive; upd_reasoning := "warm" |};
    {| upd_id := 11%nat; upd_user := 1%nat; upd_score := tenths 80;
       upd_label := positive; upd_reasoning := "kind" |} ].

Example two_updates_row :
  sentiment_analytics (apply_updates two_updates two_mentions) !! (1%nat, 0%Z)
  = Some {| positive_count := 2; negative_count := 0; neutral_count := 0;
            average_score := Some 78%Z; total_mentions := 2 |}.
Proof. vm_compute. reflexivity. Qed.

(** C1 (as the code has it).  From a store in which every scored mention
    carries a label and the row of tenant [t] and day [d] is consistent
    with the mentions (for instance: no scored mention and no row), any
    sequence of sentiment updates leaves the row of [(t, d)] with
    [total_mentions = positive_count + negative_count + neutral_count],
    [total_mentions] the number of scored mentions of the day, and
    [average_score] the mean of their scores rounded to one decimal (the
    column is a NUMERIC(3,1)), hence within 0.05 of the mean; the row
    exists as soon as the day has a scored mention. *)
Theorem analytics_row_after_updates (db : Database) (t : uuid) (d : Z)
    (us : list SentimentUpdate) :
  labelled (mentions db) →
  day_consistent db t d →
  day_row_rounded (apply_updates us db) t d.
Proof.
  intros Hl Hc. apply day_consistent_rounded.
  apply apply_updates_consistent; assumption.
Qed.

Lemma analytics_row_after_updates_witness :
  labelled (mentions two_mentions)
  ∧ day_consistent two_mentions 1 0
  ∧ day_row_rounded (apply_updates two_updates two_mentions) 1 0.
Proof.
  assert (Hl : labelled (mentions two_mentions)).
  { repeat constructor; intros [x Hx]; discriminate Hx. }
  assert (Hc : day_consistent two_mentions 1 0) by reflexivity.
  split; [exact Hl|]. split; [exact Hc|].
  exact (analytics_row_after_updates two_mentions 1 0 two_updates Hl Hc).
Defined.

(** C1 as stated fails: with the scores 7.5 and 8.0 the row holds the
    average 7.8 while the mean is 7.75; the two differ by 0.05, which no
    floating-point tolerance covers (a millionth is used here). *)
Lemma average_not_within_float_rounding :
  ¬ day_row_as_stated (1 # 1000000) (apply_updates two_updates two_mentions) 1 0.
Proof.
  intros H. destruct (H _ two_updates_row) as (_ & a & Ha & Hle).
  injection Ha as <-. revert Hle. vm_compute. intros Hle. apply Hle. reflexivity.
Qed.

End AnalyticsProperties.

Section JsonProperties.
Import JS Json.

(** ** The fuel of [JSON.parse] *)

Section Fuel.

Local Abbreviation len := String.length.

Lemma skip_ws_length s : (len (skip_ws s) <= len s)%nat.
Proof.
  induction s as [|a r IH]; [reflexivity|].
  cbn [skip_ws]. destruct (json_ws a); simpl; lia.
Qed.

Lemma scan_string_length st pend acc s str r :
  scan_string st pend acc s = Some (str, r) → (len r < len s)%nat.
Proof.
  revert st pend acc. induction s as [|a s IH]; intros st pend acc; [discriminate|].
  cbn [scan_string]. destruct st as [| |k v].
  - destruct (code a =? 34)%N; [intros [= _ <-]; simpl; lia|].
    destruct (code a =? 92)%N; [intros H%IH; simpl; lia|].
    destruct (code a <? 32)%N; [discriminate|]. intros H%IH. simpl; lia.
  - destruct (code a =? 117)%N; [intros H%IH; simpl; lia|].
    destruct (escape a); [|discriminate]. intros H%IH. simpl; lia.
  - destruct (hex_digit a) as [d|]; [|discriminate].
    destruct k as [|[|k']]; try (intros H%IH; simpl; lia);
      destruct (code_unit pend acc (v * 16 + d)); intros H%IH; simpl; lia.
Qed.

Lemma digits_length acc cnt s v n r :
  digits acc cnt s = (v, n, r) →
  (len r <= len s)%nat ∧ (cnt <= n)%nat ∧ ((cnt < n)%nat → (len r < len s)%nat).
Proof.
  revert acc cnt. induction s as [|a s IH]; intros acc cnt; cbn [digits].
  - intros [= <- <- <-]. simpl. lia.
  - destruct (is_digit a).
    + intros H%IH. simpl. lia.
    + intros [= <- <- <-]. simpl. lia.
Qed.

Lemma parse_int_length s i r : parse_int s = Some (i, r) → (len r < len s)%nat.
Proof.
  unfold parse_int. destruct s as [|a r0]; [discriminate|].
  destruct (code a =? 48)%N; [intros [= _ <-]; simpl; lia|].
  destruct (is_digit a) eqn:Ed; [|discriminate].
  cbn [digits]. rewrite Ed.
  destruct (digits _ 1 r0) as [[v k] r'] eqn:E. intros [= _ <-].
  apply digits_length in E. simpl. lia.
Qed.

Lemma parse_frac_length i s m k r :
  parse_frac i s = Some (m, k, r) → (len r <= len s)%nat.
Proof.
  unfold parse_frac. destruct s as [|a r1]; [intros [= _ _ <-]; lia|].
  destruct (code a =? 46)%N; [|intros [= _ _ <-]; lia].
  destruct (digits i 0 r1) as [[v' k'] r'] eqn:E. apply digits_length in E.
  destruct k'; [discriminate|]. intros [= _ _ <-]. simpl. lia.
Qed.

Lemma parse_exp_length s e r : parse_exp s = Some (e, r) → (len r <= len s)%nat.
Proof.
  unfold parse_exp. destruct s as [|a r2]; [intros [= _ <-]; lia|].
  destruct (_ || _); [|intros [= _ <-]; lia].
  destruct r2 as [|b r1].
  - cbn [digits]. discriminate.
  - destruct (code b =? 45)%N; [|destruct (code b =? 43)%N];
      match goal with
      | |- context [digits 0 0 ?x] =>
          destruct (digits 0 0 x) as [[e' k'] r'] eqn:E; apply digits_length in E
      end;
      (destruct k'; [discriminate|]); intros [= _ <-]; simpl in *; lia.
Qed.

Lemma parse_number_length s n r : parse_number s = Some (n, r) → (len r < len s)%nat.
Proof.
  unfold parse_number.
  assert (Hgo : ∀ minus s0, (len s0 <= len s)%nat →
            match parse_int s0 with
            | None => None
            | Some (i, s1) =>
                match parse_frac i s1 with
                | None => None
                | Some (m, nfrac, s2) =>
                    match parse_exp s2 with
                    | None => None
                    | Some (e, s3) =>
                        Some ({| neg := minus; mant := m;
                                 expo := (e - Z.of_nat nfrac)%Z |}, s3)
                    end
                end
            end = Some (n, r) → (len r < len s)%nat).
  { intros minus s0 Hle.
    destruct (parse_int s0) as [[i s1]|] eqn:Ei; [|discriminate].
    destruct (parse_frac i s1) as [[[m k] s2]|] eqn:Ef; [|discriminate].
    destruct (parse_exp s2) as [[e s3]|] eqn:Ee; [|discriminate].
    intros [= _ <-].
    apply parse_int_length in Ei. apply parse_frac_length in Ef.
    apply parse_exp_length in Ee. lia. }
  destruct s as [|a r0].
  - apply Hgo. lia.
  - destruct (code a =? 45)%N; apply Hgo; simpl; lia.
Qed.

Lemma startsWith_length s w :
  startsWith s w = true → (len (drop_chars (len w) s) + len w = len s)%nat.
Proof.
  revert s. induction w as [|b w IH]; intros s.
  - intros _. simpl. lia.
  - destruct s as [|a s]; cbn [startsWith]; [discriminate|].
    destruct (Ascii.eqb b a); [|discriminate].
    intros H%IH. simpl. lia.
Qed.

Lemma literal_length w v s v' r :
  literal w v s = Some (v', r) → (len r + len w = len s)%nat.
Proof.
  unfold literal. destruct (startsWith s w) eqn:E; [|discriminate].
  intros [= _ <-]. by apply startsWith_length.
Qed.

(** What a successful call has read bounds the fuel it needs: two units
    for every byte between [s] and the rest [r]. *)
Definition enough (run : nat → string → option (json * string)) (n : nat) : Prop :=
  ∀ s v r, run n s = Some (v, r) →
    (len r < len s)%nat ∧
    ∀ m, (2 * len s <= m + 2 * len r)%nat → run m s = Some (v, r).

Ltac skip_ws_le :=
  repeat match goal with
    | H : skip_ws ?s = String _ ?r |- _ =>
        lazymatch goal with
        | _ : len (skip_ws s) = S (len r) |- _ => fail
        | _ => pose proof (skip_ws_length s);
               assert (len (skip_ws s) = S (len r)) by (by rewrite H)
        end
    end;
  cbn [String.length] in *.

Lemma fuel_enough n :
  enough parse_value n ∧
  (∀ acc, enough (λ k, parse_elements k acc) n) ∧
  (∀ acc, enough (λ k, parse_members k acc) n).
Proof.
  induction n as [|n (IHv & IHe & IHm)]; [by repeat split; intros; discriminate|].
  split; [|split].
  - intros s v r H. cbn [parse_value] in H.
    destruct (skip_ws s) as [|a r0] eqn:Es; [discriminate|].
    destruct (code a =? 123)%N eqn:E1.
    { destruct (skip_ws r0) as [|b r'] eqn:Er; [discriminate|].
      destruct (code b =? 125)%N eqn:E2.
      - injection H as <- <-. skip_ws_le. split; [lia|].
        intros [|m] Hm; [lia|]. cbn [parse_value]. by rewrite Es, E1, Er, E2.
      - rewrite <- Er in H. apply IHm in H as [Hl Hk].
        skip_ws_le. split; [lia|].
        intros [|m] Hm; [lia|]. cbn [parse_value]. rewrite Es, E1, Er, E2, <- Er.
        apply Hk. lia. }
    destruct (code a =? 91)%N eqn:E2.
    { destruct (skip_ws r0) as [|b r'] eqn:Er; [discriminate|].
      destruct (code b =? 93)%N eqn:E3.
      - injection H as <- <-. skip_ws_le. split; [lia|].
        intros [|m] Hm; [lia|]. cbn [parse_value]. by rewrite Es, E1, E2, Er, E3.
      - apply IHe in H as [Hl Hk]. skip_ws_le. split; [lia|].
        intros [|m] Hm; [lia|]. cbn [parse_value]. rewrite Es, E1, E2, Er, E3.
        apply Hk. lia. }
    destruct (code a =? 34)%N eqn:E3.
    { destruct (scan_string SPlain None [] r0) as [[str r']|] eqn:Ec; [|discriminate].
      injection H as <- <-. apply scan_string_length in Ec as Hl. skip_ws_le.
      split; [lia|].
      intros [|m] Hm; [lia|]. cbn [parse_value]. by rewrite Es, E1, E2, E3, Ec. }
    destruct (code a =? 116)%N eqn:E4.
    { apply literal_length in H as Hl. simpl in Hl. skip_ws_le. split; [lia|].
      intros [|m] Hm; [lia|]. cbn [parse_value]. by rewrite Es, E1, E2, E3, E4. }
    destruct (code a =? 102)%N eqn:E5.
    { apply literal_length in H as Hl. simpl in Hl. skip_ws_le. split; [lia|].
      intros [|m] Hm; [lia|]. cbn [parse_value]. by rewrite Es, E1, E2, E3, E4, E5. }
    destruct (code a =? 110)%N eqn:E6.
    { apply literal_length in H as Hl. simpl in Hl. skip_ws_le. split; [lia|].
      intros [|m] Hm; [lia|]. cbn [parse_value].
      by rewrite Es, E1, E2, E3, E4, E5, E6. }
    destruct (parse_number (String a r0)) as [[x r']|] eqn:En; [|discriminate].
    injection H as <- <-. apply parse_number_length in En as Hl. skip_ws_le.
    split; [lia|].
    intros [|m] Hm; [lia|]. cbn [parse_value].
    by rewrite Es, E1, E2, E3, E4, E5, E6, En.
  - intros acc s v r H. cbn [parse_elements] in H.
    destruct (parse_value n s) as [[v1 r1]|] eqn:Ev; [|discriminate].
    apply IHv in Ev as [Hl1 Hk1].
    destruct (skip_ws r1) as [|b r'] eqn:Er; [discriminate|].
    destruct (code b =? 44)%N eqn:E1.
    { apply IHe in H as [Hl Hk]. skip_ws_le. split; [lia|].
      intros [|m] Hm; [lia|]. cbn [parse_elements].
      rewrite Hk1 by lia. rewrite Er, E1. apply Hk. lia. }
    destruct (code b =? 93)%N eqn:E2; [|discriminate].
    injection H as <- <-. skip_ws_le. split; [lia|].
    intros [|m] Hm; [lia|]. cbn [parse_elements].
    rewrite Hk1 by lia. by rewrite Er, E1, E2.
  - intros acc s v r H. cbn [parse_members] in H.
    destruct s as [|q r0]; [discriminate|].
    destruct (negb (code q =? 34)%N) eqn:Eq; [discriminate|].
    destruct (scan_string SPlain None [] r0) as [[k r1]|] eqn:Ec; [|discriminate].
    apply scan_string_length in Ec as Hlc.
    destruct (skip_ws r1) as [|colon r2] eqn:Er1; [discriminate|].
    destruct (negb (code colon =? 58)%N) eqn:Ecol; [discriminate|].
    destruct (parse_value n r2) as [[v1 r3]|] eqn:Ev; [|discriminate].
    apply IHv in Ev as [Hl1 Hk1].
    destruct (skip_ws r3) as [|b r4] eqn:Er3; [discriminate|].
    destruct (code b =? 44)%N eqn:E1.
    { apply IHm in H as [Hl Hk]. pose proof (skip_ws_length r4).
      skip_ws_le. cbn [String.length]. split; [lia|].
      intros [|m] Hm; [lia|]. cbn [parse_members].
      rewrite Eq, Ec, Er1, Ecol. rewrite Hk1 by lia. rewrite Er3, E1.
      apply Hk. lia. }
    destruct (code b =? 125)%N eqn:E2; [|discriminate].
    injection H as <- <-. skip_ws_le. split; [lia|].
    intros [|m] Hm; [lia|]. cbn [parse_members].
    rewrite Eq, Ec, Er1, Ecol. rewrite Hk1 by lia. by rewrite Er3, E1, E2.
Qed.

(** The fuel [JSON_parse] gives is never exhausted: with any more of it
    the parser returns the same thing, a value or a [SyntaxError]. *)
Theorem JSON_parse_fuel n s :
  (2 * len s + 2 <= n)%nat →
  parse_value n s = parse_value (2 * len s + 2) s.
Proof.
  intros Hn.
  destruct (parse_value n s) as [[v r]|] eqn:E.
  - apply (proj1 (fuel_enough n)) in E as [Hl Hk]. symmetry. apply Hk. lia.
  - destruct (parse_value (2 * len s + 2) s) as [[v r]|] eqn:E'; [|done].
    apply (proj1 (fuel_enough _)) in E' as [Hl Hk].
    rewrite Hk in E by lia. discriminate.
Qed.

End Fuel.

End JsonProperties.

Section ClassifierProperties.
Import JS Json Db Anthropic Analyze.

Example utf16_escapes :
  JSON_parse (quoted "A😀é\n\ud83d!")
  = Some (JString (string_of_list_ascii
       (map ascii_of_nat [65; 240; 159; 152; 128; 195; 169; 10; 237; 160; 189; 33]))).
Proof. vm_compute. reflexivity. Qed.

(** ** The classifier client *)

Section Fences.














(** *** Trimming keeps a contiguous part of the text *)














End Fences.






(** The client proper: with a key configured, one call is made and
    logged, and the result is read off the reply. *)
Lemma analyzeSentimentWithClaude_spec key anthropic text w :
  key ≠ EmptyString →
  analyzeSentimentWithClaude key anthropic text w
  = (interpret (anthropic (length (calls w)) text),
     {| db := db w; calls := calls w ++ [text] |}).
Proof.
  intros Hk. unfold analyzeSentimentWithClaude, call.
  destruct (String.eqb_spec key EmptyString); [contradiction|reflexivity].
Qed.



(** A fenced reply whose score is 42. *)
Definition reply_42 : string :=
  "```json" +:+ lf +:+
  "{" +:+ quoted "score" +:+ ": 42, " +:+ quoted "label" +:+ ": " +:+ quoted "positive"
  +:+ ", " +:+ quoted "reasoning" +:+ ": " +:+ quoted "glowing" +:+ ", "
  +:+ quoted "confidence" +:+ ": 0.9}" +:+ lf +:+ "```".

Definition result_42 : SentimentResult :=
  {| score := {| neg := false; mant := 42; expo := 0 |}; label := positive;
     reasoning := "glowing";
     confidence := Some (JNumber {| neg := false; mant := 9; expo := -1 |}) |}.

Definition always (text : string) : Oracle :=
  λ _ _, Message [ {| block_type := "text"; block_text := text |} ].

Definition quiet (d : Database) : World := {| db := d; calls := [] |}.


(** Nor is the confidence looked at: a reply without one is returned. *)
Example classifier_returns_without_confidence :
  parse_reply ("{" +:+ quoted "score" +:+ ": 7.5, " +:+ quoted "label" +:+ ": "
               +:+ quoted "neutral" +:+ ", " +:+ quoted "reasoning" +:+ ": "
               +:+ quoted "flat" +:+ "}")
  = inr {| score := {| neg := false; mant := 75; expo := -1 |}; label := neutral;
           reasoning := "flat"; confidence := None |}.
Proof. vm_compute. reflexivity. Qed.

Example classifier_rejects_unknown_label :
  parse_reply ("{" +:+ quoted "score" +:+ ": 7.5, " +:+ quoted "label" +:+ ": "
               +:+ quoted "mixed" +:+ ", " +:+ quoted "reasoning" +:+ ": "
               +:+ quoted "flat" +:+ "}")
  = inl (Error INVALID_RESULT).
Proof. vm_compute. reflexivity. Qed.

Example classifier_rejects_prose :
  parse_reply "The sentiment is positive." = inl (Error SYNTAX_ERROR).
Proof. vm_compute. reflexivity. Qed.

End ClassifierProperties.

Section AnalysisProperties.
Import JS Json Db Anthropic Analyze.

(** ** The analysis route *)

Section AnalyzeRoute.

Variable ANTHROPIC_API_KEY : string.
Variable anthropic : Oracle.

Local Abbreviation analyzeSentimentWithClaude := (analyzeSentimentWithClaude ANTHROPIC_API_KEY anthropic).
Local Abbreviation analyze_and_store := (analyze_and_store ANTHROPIC_API_KEY anthropic).
Local Abbreviation by_id_step := (by_id_step ANTHROPIC_API_KEY anthropic).
Local Abbreviation by_id_loop := (by_id_loop ANTHROPIC_API_KEY anthropic).
Local Abbreviation batch_loop := (batch_loop ANTHROPIC_API_KEY anthropic).
Local Abbreviation POST := (POST ANTHROPIC_API_KEY anthropic).

Definition item_id (r : ItemResult) : uuid :=
  match r with
  | ItemFailed id _ | ItemCached id _ _ _ | ItemAnalyzed id _ => id
  end.

(** The classifier never touches the database. *)
Lemma analyzeSentimentWithClaude_db text w :
  db (analyzeSentimentWithClaude text w).2 = db w.
Proof.
  unfold Analyze.analyzeSentimentWithClaude, call.
  destruct (String.eqb _ _); reflexivity.
Qed.

(** What [analyze_and_store] does to the store: nothing, or the UPDATE
    of the rows of that identifier and user, to a score or to NULL. *)
Lemma analyze_and_store_cases user id text w :
  let '(r, w') := analyze_and_store user id text w in
  item_id r = id ∧ is_cached r = false
  ∧ (db w' = db w
     ∨ (∃ s l t, db w' = update_rows id user s l t (db w))
     ∨ (∃ l t, db w' = update_rows_null id user l t (db w))).
Proof.
  unfold Analyze.analyze_and_store.
  pose proof (analyzeSentimentWithClaude_db text w) as Hdb.
  destruct (analyzeSentimentWithClaude text w) as [[e|sent] w1]; simpl in *.
  - auto.
  - unfold update_mention_sentiment.
    destruct (wire (score sent)) as [sent_score|].
    + destruct (numeric_3_1 sent_score) as [s|]; simpl.
      * repeat split; try reflexivity. right. left. rewrite Hdb. eauto.
      * auto.
    + simpl. repeat split; try reflexivity. right. right. rewrite Hdb. eauto.
Qed.

(** One result for each identifier asked, in the order asked. *)
Lemma by_id_step_id user id w : item_id (by_id_step user id w).1 = id.
Proof.
  unfold Analyze.by_id_step.
  destruct (single _) as [mention|]; [|reflexivity].
  destruct (sentiment_score mention); [reflexivity|].
  pose proof (analyze_and_store_cases user id (content mention) w) as H.
  destruct (analyze_and_store user id (content mention) w) as [r w']. apply H.
Qed.

Lemma by_id_loop_ids user ids w : item_id <$> (by_id_loop user ids w).1 = ids.
Proof.
  revert w. induction ids as [|id ids IH]; intros w; [reflexivity|].
  cbn [Analyze.by_id_loop].
  pose proof (by_id_step_id user id w) as H1.
  destruct (by_id_step user id w) as [r w1]. specialize (IH w1).
  destruct (by_id_loop user ids w1) as [rs w2]. cbn [fst] in *.
  rewrite fmap_cons, H1, IH. reflexivity.
Qed.

(** The result at the place of an identifier, when every result under
    that identifier is known to be [r0]. *)
Lemma result_at_place (ids : list uuid) (results : list ItemResult) i r0 :
  item_id <$> results = ids →
  (∀ r, r ∈ results → item_id r = i → r = r0) →
  ∀ k, ids !! k = Some i → results !! k = Some r0.
Proof.
  intros Hids Hall k Hk. rewrite <- Hids, list_lookup_fmap in Hk.
  destruct (results !! k) as [r|] eqn:Er; [|discriminate].
  injection Hk as Hk. f_equal. apply Hall; [|exact Hk].
  eapply list_elem_of_lookup_2, Er.
Qed.

(** *** A mention that is already scored *)

Lemma lookup_absent (ms : list Mention) (k user : uuid) :
  k ∉ mention_id <$> ms →
  filter (λ x, mention_id x = k ∧ user_id x = user) ms = [].
Proof.
  induction ms as [|a ms IH]; [reflexivity|].
  rewrite fmap_cons. intros [Hka Hk]%not_elem_of_cons.
  rewrite filter_cons_False by (intros [? _]; congruence). apply IH, Hk.
Qed.

Section Scored.

Variables (user : uuid) (m : Mention) (s : Z).
Hypothesis m_user : user_id m = user.
Hypothesis m_scored : sentiment_score m = Some s.

(** [id] is the primary key of [mentions], and [m] is a row. *)
Definition holds (w : World) : Prop :=
  NoDup (mention_id <$> mentions (db w)) ∧ m ∈ mentions (db w).

Lemma lookup_by_key (ms : list Mention) :
  NoDup (mention_id <$> ms) → m ∈ ms →
  filter (λ x, mention_id x = mention_id m ∧ user_id x = user) ms = [m].
Proof using m_user.
  induction ms as [|a ms IH]; intros Hnd Hin; [by apply elem_of_nil in Hin|].
  rewrite fmap_cons in Hnd. apply NoDup_cons in Hnd as [Ha Hnd].
  apply elem_of_cons in Hin as [<-|Hin].
  - rewrite filter_cons_True by (split; [reflexivity|exact m_user]).
    f_equal. apply lookup_absent, Ha.
  - rewrite filter_cons_False; [apply IH; assumption|].
    intros [Heq _]. apply Ha. rewrite Heq. apply list_elem_of_fmap_2, Hin.
Qed.

(** The UPDATE of another identifier leaves [m] and the key alone. *)
Lemma update_rows_holds id sc l t d :
  id ≠ mention_id m →
  NoDup (mention_id <$> mentions d) → m ∈ mentions d →
  NoDup (mention_id <$> mentions (update_rows id user sc l t d))
  ∧ m ∈ mentions (update_rows id user sc l t d).
Proof.
  intros Hid Hnd Hin. rewrite update_rows_mentions. split.
  - rewrite <- list_fmap_compose.
    erewrite list_fmap_ext; [exact Hnd|].
    intros i x _. simpl. case_decide; reflexivity.
  - apply list_elem_of_fmap. exists m. split; [|assumption].
    rewrite decide_False; [reflexivity|]. intros [? _]. congruence.
Qed.

Lemma update_rows_null_holds id l t d :
  id ≠ mention_id m →
  NoDup (mention_id <$> mentions d) → m ∈ mentions d →
  NoDup (mention_id <$> mentions (update_rows_null id user l t d))
  ∧ m ∈ mentions (update_rows_null id user l t d).
Proof.
  intros Hid Hnd Hin. rewrite update_rows_null_mentions. split.
  - rewrite <- list_fmap_compose.
    erewrite list_fmap_ext; [exact Hnd|].
    intros i x _. simpl. case_decide; reflexivity.
  - apply list_elem_of_fmap. exists m. split; [|assumption].
    rewrite decide_False; [reflexivity|]. intros [? _]. congruence.
Qed.

Lemma by_id_step_scored w :
  holds w →
  by_id_step user (mention_id m) w
  = (ItemCached (mention_id m) s (sentiment_label_of m) (sentiment_reasoning m), w).
Proof using m_user m_scored.
  intros [Hnd Hin]. unfold Analyze.by_id_step.
  rewrite lookup_by_key by assumption. simpl. rewrite m_scored. reflexivity.
Qed.

Lemma by_id_step_other id w :
  id ≠ mention_id m → holds w →
  item_id (by_id_step user id w).1 = id ∧ holds (by_id_step user id w).2.
Proof.
  intros Hid [Hnd Hin]. unfold Analyze.by_id_step.
  destruct (single _) as [mention|]; [|split; [reflexivity|split; assumption]].
  destruct (sentiment_score mention); [split; [reflexivity|split; assumption]|].
  pose proof (analyze_and_store_cases user id (content mention) w) as H.
  destruct (analyze_and_store user id (content mention) w) as [r w'].
  destruct H as (Hr & _ & Hdb). simpl. split; [exact Hr|].
  unfold holds. destruct Hdb as [-> | [(sc & l & t & ->) | (l & t & ->)]];
    [split; assumption| |].
  - apply update_rows_holds; assumption.
  - apply update_rows_null_holds; assumption.
Qed.

Lemma by_id_loop_scored ids w :
  holds w →
  let '(results, w') := by_id_loop user ids w in
  holds w'
  ∧ (∀ r, r ∈ results → item_id r = mention_id m →
          r = ItemCached (mention_id m) s (sentiment_label_of m) (sentiment_reasoning m))
  ∧ (by_id_loop user (filter (λ i, i ≠ mention_id m) ids) w).2 = w'.
Proof using m_user m_scored.
  revert w. induction ids as [|id ids IH]; intros w Hw.
  - simpl. split; [assumption|]. split; [|reflexivity]. intros r Hr. inversion Hr.
  - cbn [Analyze.by_id_loop]. destruct (decide (id = mention_id m)) as [->|Hne].
    + rewrite by_id_step_scored by assumption.
      rewrite filter_cons_False by (intros H; apply H; reflexivity).
      specialize (IH w Hw). destruct (by_id_loop user ids w) as [rs w2].
      destruct IH as (H1 & H2 & H3). split; [assumption|]. split; [|assumption].
      intros r Hr Hrid. apply elem_of_cons in Hr as [->|Hr]; [reflexivity|].
      apply H2; assumption.
    + rewrite filter_cons_True by assumption. cbn [Analyze.by_id_loop].
      pose proof (by_id_step_other id w Hne Hw) as [Hid Hw1].
      destruct (by_id_step user id w) as [r1 w1]. simpl in Hid, Hw1.
      specialize (IH w1 Hw1).
      destruct (by_id_loop user ids w1) as [rs w2].
      destruct (by_id_loop user (filter _ ids) w1) as [rs' w2'].
      destruct IH as (H1 & H2 & H3). simpl in H3. split; [assumption|].
      split; [|assumption].
      intros r Hr Hrid. apply elem_of_cons in Hr as [->|Hr]; [congruence|].
      apply H2; assumption.
Qed.

End Scored.

(** *** The batch of unanalyzed mentions *)

Lemma select_unanalyzed_unscored user n d m :
  m ∈ select_unanalyzed user n d → sentiment_score m = None.
Proof.
  unfold select_unanalyzed. intros Hm%subseteq_take.
  apply list_elem_of_filter in Hm as [[_ H] _]. exact H.
Qed.

Lemma batch_loop_results user batch w :
  let results := (batch_loop user batch w).1 in
  item_id <$> results = mention_id <$> batch
  ∧ Forall (λ r, is_cached r = false) results.
Proof.
  revert w. induction batch as [|mention batch IH]; intros w; [split; constructor|].
  cbn [Analyze.batch_loop].
  pose proof (analyze_and_store_cases user (mention_id mention) (content mention) w) as H.
  destruct (analyze_and_store _ _ _ w) as [r w1]. destruct H as (Hid & Hc & _).
  specialize (IH w1). destruct (batch_loop user batch w1) as [rs w2].
  cbn [fst] in *. destruct IH as [IH1 IH2]. split.
  - rewrite !fmap_cons, Hid, IH1. reflexivity.
  - constructor; assumption.
Qed.

Lemma count_split (f : ItemResult → bool) rs :
  (count f rs + count (λ r, negb (f r)) rs = length rs)%nat.
Proof.
  unfold count. induction rs as [|r rs IH]; [reflexivity|].
  simpl. destruct (f r); simpl; lia.
Qed.

End AnalyzeRoute.

(** C3.  In the by-identifiers mode a mention of the requesting tenant
    whose score is already set keeps its row as it is, still the only
    row of its identifier.  The reply has one result for each identifier
    asked, in the order asked, and at every place where the identifier
    of the mention was asked it is a cache hit carrying the stored
    score, label and reasoning.  The request ends in the same world
    (database and log of classifier calls) as the request without that
    identifier, so no call is made for it; and the batch mode never
    selects it. *)
Theorem scored_mention_is_not_reanalyzed (key : string) (anthropic : Oracle)
    (user : uuid) (body : AnalyzeRequest) (ids : list uuid) (w : World)
    (m : Mention) (s : Z) :
  mentionIds body = Some ids → ids ≠ [] →
  NoDup (mention_id <$> mentions (db w)) →
  m ∈ mentions (db w) → user_id m = user → sentiment_score m = Some s →
  let hit := ItemCached (mention_id m) s (sentiment_label_of m) (sentiment_reasoning m) in
  ∃ results analyzed cached failed w',
    POST key anthropic (Some user) body w = (ByIds results analyzed cached failed, w')
    ∧ NoDup (mention_id <$> mentions (db w'))
    ∧ m ∈ mentions (db w')
    ∧ item_id <$> results = ids
    ∧ (∀ k, ids !! k = Some (mention_id m) → results !! k = Some hit)
    ∧ (∀ r, r ∈ results → item_id r = mention_id m → r = hit)
    ∧ (mention_id m ∈ ids → hit ∈ results ∧ (1 <= cached)%nat)
    ∧ (by_id_loop key anthropic user (filter (λ i, i ≠ mention_id m) ids) w).2 = w'
    ∧ (∀ n d, m ∉ select_unanalyzed user n d).
Proof.
  intros Hb Hne Hnd Hin Hu Hs hit.
  pose proof (by_id_loop_scored key anthropic user m s Hu Hs ids w (conj Hnd Hin)) as H.
  pose proof (by_id_loop_ids key anthropic user ids w) as Hids.
  unfold POST. rewrite Hb. destruct ids as [|id ids]; [contradiction|].
  destruct (by_id_loop key anthropic user (id :: ids) w) as [results w'].
  destruct H as ([H0 H1] & H2 & H3). cbn [fst] in Hids.
  assert (Hplace : ∀ k, (id :: ids) !! k = Some (mention_id m) → results !! k = Some hit)
    by (eapply result_at_place; eassumption).
  eexists _, _, _, _, _. split; [reflexivity|].
  split; [exact H0|]. split; [exact H1|]. split; [exact Hids|].
  split; [exact Hplace|]. split; [exact H2|]. split; [|split; [exact H3|]].
  - intros [k Hk]%list_elem_of_lookup_1. apply Hplace in Hk.
    assert (Hr : hit ∈ results) by (eapply list_elem_of_lookup_2, Hk).
    split; [exact Hr|]. unfold count.
    assert (Hf : In hit (List.filter (λ r, succeeded r && is_cached r) results)).
    { apply filter_In. split; [apply list_elem_of_In, Hr|reflexivity]. }
    destruct (List.filter _ results); [destruct Hf|simpl; lia].
  - intros n d Hm%select_unanalyzed_unscored. congruence.
Qed.

(** A tenant with one scored mention (7.5, positive) and one unscored. *)
Definition scored_once : Mention :=
  {| mention_id := 10; user_id := 1; social_account_id := 0;
     platform := "instagram"; content := "great"; author := "ann";
     author_handle := None; post_url := None; posted_at := 1000;
     sentiment_score := Some 75%Z; sentiment_label_of := Some positive;
     sentiment_reasoning := Some "warm"; engagement_count := 0 |}.

Definition one_scored : World :=
  quiet (with_mentions [scored_once; unscored 11 1 2000 "fine"] Db.empty).

Definition by_ids (ids : list uuid) : AnalyzeRequest :=
  {| mentionIds := Some ids; content_of := None; batchSize := None |}.

Lemma scored_mention_is_not_reanalyzed_witness :
  let hit := ItemCached 10 75 (Some positive) (Some "warm") in
  ∃ results analyzed cached failed w',
    POST "key" (always reply_42) (Some 1) (by_ids [10; 11; 10]) one_scored
    = (ByIds results analyzed cached failed, w')
    ∧ NoDup (mention_id <$> mentions (db w'))
    ∧ scored_once ∈ mentions (db w')
    ∧ item_id <$> results = [10; 11; 10]
    ∧ (∀ k, [10; 11; 10] !! k = Some 10 → results !! k = Some hit)
    ∧ (∀ r, r ∈ results → item_id r = 10 → r = hit)
    ∧ (10 ∈ [10; 11; 10] → hit ∈ results ∧ (1 <= cached)%nat)
    ∧ (by_id_loop "key" (always reply_42) 1
                  (filter (λ i, i ≠ 10) [10; 11; 10]) one_scored).2 = w'
    ∧ (∀ n d, scored_once ∉ select_unanalyzed 1 n d).
Proof.
  apply (scored_mention_is_not_reanalyzed "key" (always reply_42) 1
           (by_ids [10; 11; 10]) [10; 11; 10] one_scored scored_once 75).
  - reflexivity.
  - discriminate.
  - apply (bool_decide_unpack _). vm_compute. exact I.
  - apply list_elem_of_here.
  - reflexivity.
  - reflexivity.
Defined.

Example by_ids_run :
  POST "key" (always reply_42) (Some 1) (by_ids [10; 11; 10]) one_scored
  = (ByIds [ItemCached 10 75 (Some positive) (Some "warm");
            ItemAnalyzed 11 result_42;
            ItemCached 10 75 (Some positive) (Some "warm")] 1 2 0,
     {| db := (POST "key" (always reply_42) (Some 1) (by_ids [11]) one_scored).2.(db);
        calls := ["fine"] |}).
Proof. vm_compute. reflexivity. Qed.

(** C8 (as the code has it).  A batch call of size [size] for a tenant
    with unscored mentions returns one result for each of the first
    [size] of them (ten of fifteen), in their order, each either a
    success carrying a sentiment or a failure carrying an error text;
    [remaining] is the number of failures of the batch: it does not count
    the unscored mentions the batch left out. *)
Theorem batch_unanalyzed_outcome (key : string) (anthropic : Oracle) (user : uuid)
    (size : nat) (w : World) :
  (0 < size)%nat →
  let pending := filter (λ m, user_id m = user ∧ sentiment_score m = None)
                        (mentions (db w)) in
  pending ≠ [] →
  ∃ results analyzed failed remaining w',
    POST key anthropic (Some user)
         {| mentionIds := None; content_of := None; batchSize := Some size |} w
    = (Batch results analyzed failed remaining, w')
    ∧ length results = Nat.min size (length pending)
    ∧ item_id <$> results = mention_id <$> take size pending
    ∧ Forall (λ r, (∃ sentiment, r = ItemAnalyzed (item_id r) sentiment)
                   ∨ (∃ error, r = ItemFailed (item_id r) error)) results
    ∧ (analyzed + failed = length results)%nat
    ∧ remaining = failed.
Proof.
  intros Hsize pending Hne. unfold POST. cbn [mentionIds content_of batchSize].
  destruct size as [|n]; [lia|]. unfold select_unanalyzed. fold pending.
  destruct (take (S n) pending) as [|m0 batch] eqn:Et.
  { destruct pending; [contradiction|discriminate]. }
  pose proof (batch_loop_results key anthropic user (m0 :: batch) w) as [Hids Hnc].
  destruct (batch_loop key anthropic user (m0 :: batch) w) as [results w'].
  cbn [fst] in *.
  assert (Hlen : length results = length (m0 :: batch)).
  { rewrite <- (length_fmap item_id), Hids, length_fmap. reflexivity. }
  eexists _, _, _, _, _. split; [reflexivity|].
  split; [rewrite Hlen, <- Et; apply length_take|].
  split; [exact Hids|].
  split.
  { eapply Forall_impl; [exact Hnc|]. intros [id e|id sc l t|id sent] Hc;
      [right|discriminate|left]; eexists; reflexivity. }
  pose proof (count_split succeeded results) as Hc. split; [exact Hc|].
  rewrite <- Hlen. lia.
Qed.

(** Fifteen unscored mentions of tenant 1. *)
Definition fifteen_unscored : World :=
  quiet (with_mentions ((λ i, unscored i 1 (Z.of_nat i) "text") <$> seq 0 15) Db.empty).

Definition down : Oracle := λ _ _, Failed "overloaded".

Lemma batch_unanalyzed_outcome_witness :
  ∃ results analyzed failed remaining w',
    POST "key" down (Some 1)
         {| mentionIds := None; content_of := None; batchSize := Some 10 |}
         fifteen_unscored
    = (Batch results analyzed failed remaining, w')
    ∧ length results = 10
    ∧ item_id <$> results = seq 0 10
    ∧ Forall (λ r, (∃ sentiment, r = ItemAnalyzed (item_id r) sentiment)
                   ∨ (∃ error, r = ItemFailed (item_id r) error)) results
    ∧ (analyzed + failed = length results)%nat
    ∧ remaining = failed.
Proof.
  apply (batch_unanalyzed_outcome "key" down 1 10 fifteen_unscored).
  - lia.
  - discriminate.
Defined.

(** C8 as stated fails: when the classifier is down for the whole batch
    of ten, [remaining] is 10, not at most 5. *)
Lemma batch_remaining_exceeds_five :
  ∃ results w',
    POST "key" down (Some 1)
         {| mentionIds := None; content_of := None; batchSize := Some 10 |}
         fifteen_unscored
    = (Batch results 0 10 10, w')
    ∧ length results = 10 ∧ ¬ (10 <= 5)%nat.
Proof. eexists _, _. split; [vm_compute; reflexivity|]. split; [reflexivity|lia]. Qed.

End AnalysisProperties.

Section IngestionProperties.
Import JS Json Db Anthropic Ingest.

(** ** The ingestion route *)

(** The store accepts the row made of a fetched mention when its
    engagement count, 0 when absent, is an INTEGER. *)
Definition accepted (m : SocialMention) : bool :=
  INTEGER (default 0%Z (engagementCount m)).

Section Dedup.

Variables (user account : uuid) (platform : string).

Local Abbreviation dup := (duplicates user account).
Local Abbreviation step := (ingest_step user account platform false).

(** Two fetched mentions the duplicate check cannot tell apart. *)
Definition same_key (a b : SocialMention) : Prop :=
  content a = content b ∧ author a = author b ∧ postedAt a = postedAt b.

#[local] Instance same_key_dec a b : Decision (same_key a b).
Proof. unfold same_key. apply _. Defined.

(** The row stored for a mention, and the store with it. *)
Definition row_of (m : SocialMention) (d : Database) : Mention :=
  {| mention_id := next_uuid d; user_id := user; social_account_id := account;
     Db.platform := platform; Db.content := content m; Db.author := author m;
     author_handle := or_null (authorHandle m); post_url := or_null (postUrl m);
     posted_at := postedAt m; sentiment_score := None; sentiment_label_of := None;
     sentiment_reasoning := None;
     engagement_count := default 0%Z (engagementCount m) |}.

Definition store (m : SocialMention) (d : Database) : Database :=
  with_next_uuid (S (next_uuid d)) (with_mentions (mentions d ++ [row_of m d]) d).

Lemma insert_accepted m d :
  accepted m = true →
  insert_mention (new_row user account platform m) d = (Some (row_of m d), store m d).
Proof.
  unfold accepted, insert_mention. cbn [engagement_count new_row]. intros ->. reflexivity.
Qed.

Lemma insert_refused m d :
  accepted m = false →
  insert_mention (new_row user account platform m) d = (None, d).
Proof.
  unfold accepted, insert_mention. cbn [engagement_count new_row]. intros ->. reflexivity.
Qed.



Lemma single_length {A} (l : list A) : is_Some (single l) ↔ length l = 1%nat.
Proof.
  destruct l as [|x [|y l]]; simpl; split;
    try (intros H; apply is_Some_None in H; contradiction);
    try discriminate; eauto.
Qed.








Local Abbreviation run := (fold_left (λ st mention, step mention st)).





End Dedup.




(** Tenant 1 with an active Instagram account (row 5) and no mention. *)
Definition instagram_account : SocialAccount :=
  {| account_row_id := 5; account_user_id := 1; account_business_id := 2;
     account_platform := "instagram"; account_id := "acct"; access_token := "token";
     is_active := true; token_expires_at := None |}.

Definition connected : Database :=
  {| businesses := []; social_accounts := [instagram_account]; mentions := [];
     sentiment_analytics := ∅; generated_posts := []; scheduled_posts := [];
     api_usage := []; next_uuid := 100 |}.

Definition ingest_instagram : IngestRequest :=
  {| socialAccountId := Some 5; platform_of := "instagram"; forceRefresh := None |}.

(** An adapter that returns the same two mentions whatever the clock: a
    comment with twelve reactions, and a post seen three thousand
    million times, more than an INTEGER holds. *)
Definition comment : SocialMention :=
  {| content := "Lovely work"; author := "ann"; authorHandle := Some "@ann";
     postUrl := None; postedAt := 86400000; engagementCount := Some 12%Z |}.

Definition viral : SocialMention :=
  {| content := "Everyone is watching this"; author := "bob"; authorHandle := None;
     postUrl := None; postedAt := 86400000; engagementCount := Some 3000000000%Z |}.

Definition two_fetched : MentionSource := λ accessToken accountId now, inr [comment; viral].

Definition fixed_sources : Sources :=
  {| instagram := two_fetched; facebook := fetchFacebookMentions;
     twitter := fetchTwitterMentions; linkedin := fetchLinkedInMentions |}.


Example comment_once_viral_never_run :
  let '(r1, d1) := POST fixed_sources (Some 1) ingest_instagram 90000000 connected in
  let '(r2, d2) := POST fixed_sources (Some 1) ingest_instagram 90060000 d1 in
  r1 = Ingested 2 (mentions d1) 0 ∧ r2 = Ingested 2 [] 1 ∧ d2 = d1
  ∧ Db.content <$> mentions d1 = ["Lovely work"].
Proof. vm_compute. repeat split. Qed.



Example ingest_twice_run :
  let '(r1, d1) := POST mock_sources (Some 1) ingest_instagram 90000000 connected in
  let '(r2, d2) := POST mock_sources (Some 1) ingest_instagram 90000000 d1 in
  r1 = Ingested 3 (mentions d1) 0 ∧ r2 = Ingested 3 [] 3 ∧ d2 = d1
  ∧ length (mentions d1) = 3%nat.
Proof. vm_compute. repeat split. Qed.

(** The mock adapters stamp their mentions relative to the clock, so a
    second call a millisecond later fetches mentions with other
    [posted_at] values: the precondition of identical mentions fails and
    all three are inserted again. *)
Example mock_mentions_move_with_the_clock :
  let '(_, d1) := POST mock_sources (Some 1) ingest_instagram 90000000 connected in
  let '(r2, d2) := POST mock_sources (Some 1) ingest_instagram 90000001 d1 in
  (∃ rows, r2 = Ingested 3 rows 0) ∧ length (mentions d2) = 6%nat.
Proof. vm_compute. split; [eexists|]; reflexivity. Qed.

(** The duplicate check is a [.single()]: where a mention is already
    stored twice (a forced refresh does that), the check finds no single
    row and the mention is inserted a third time. *)
Example stored_twice_is_inserted_again :
  let force := {| socialAccountId := Some 5; platform_of := "instagram";
                  forceRefresh := Some true |} in
  let '(_, d1) := POST mock_sources (Some 1) ingest_instagram 90000000 connected in
  let '(_, d2) := POST mock_sources (Some 1) force 90000000 d1 in
  let '(r3, d3) := POST mock_sources (Some 1) ingest_instagram 90000000 d2 in
  (∃ rows, r3 = Ingested 3 rows 0)
  ∧ length (mentions d2) = 6%nat ∧ length (mentions d3) = 9%nat.
Proof. vm_compute. split; [eexists|split]; reflexivity. Qed.

End IngestionProperties.

Section GenerationProperties.
Import JS Json Db Anthropic Generate.

(** ** The content-generation route *)

Section GenerateRoute.

Variable anthropic : Oracle.
Variable setDate1 : timestamp → timestamp.
Variable accepts : list Db.GeneratedPost → bool.
Variable upsert : uuid → Z → timestamp → list ApiUsage → list ApiUsage.

Local Abbreviation POST := (POST anthropic setDate1 accepts upsert).
Local Abbreviation currentUsage_of := (currentUsage_of setDate1).

Variables (user : uuid) (body : GenerateRequest) (now : timestamp) (w : World).
Variable business : Business.

Hypothesis business_found :
  single (filter (λ b, business_user_id b = user) (businesses (db w))) = Some business.
Hypothesis business_subscribed : subscribed business = true.

Let currentUsage := currentUsage_of (business_id business) now (db w).
Let requested := default 7%Z (postCount body).
Let limit := tierLimits (subscription_tier_of business).

(** Over the limit: the 429 reply, and the world as it was. *)
Lemma over_quota_rejected :
  (limit < currentUsage + requested)%Z →
  POST (Some user) body now w
  = (QuotaExceeded currentUsage limit (subscription_tier_of business), w).
Proof using business_found business_subscribed.
  intros Hlt. unfold Generate.POST.
  rewrite business_found, business_subscribed. cbn [negb].
  fold currentUsage requested limit.
  apply Z.ltb_lt in Hlt. rewrite Hlt. reflexivity.
Qed.

(** Within the limit: the model is called, once, with the prompt. *)
Lemma within_quota_calls info :
  (currentUsage + requested <= limit)%Z →
  industryInfo_of (industry body) (customIndustry body)
                  (default "professional" (tone_of body)) = Some info →
  let prompt := prompt_of requested (default "instagram" (platform_of body))
                          (default "professional" (tone_of body)) info
                          (default true (includeHashtags body))
                          (default true (includeCTA body)) in
  calls (POST (Some user) body now w).2 = calls w ++ [prompt]
  ∧ ∀ u l t, (POST (Some user) body now w).1 ≠ QuotaExceeded u l t.
Proof using business_found business_subscribed.
  intros Hle Hinfo prompt. unfold Generate.POST.
  rewrite business_found, business_subscribed. cbn [negb].
  fold currentUsage requested limit.
  apply Z.ltb_ge in Hle. rewrite Hle, Hinfo. fold prompt.
  unfold call. 
  destruct (anthropic (length (calls w)) prompt) as [msg|st b|content];
    [split; [reflexivity|discriminate]..|].
  destruct (JSON_parse _) as [response|]; [|split; [reflexivity|discriminate]].
  destruct (generatedPosts_of now response) as [posts|];
    [|split; [reflexivity|discriminate]].
  destruct (accepts _); split; try reflexivity; discriminate.
Qed.

Lemma within_quota_passes :
  (currentUsage + requested <= limit)%Z →
  ∀ u l t, (POST (Some user) body now w).1 ≠ QuotaExceeded u l t.
Proof using business_found business_subscribed.
  intros Hle u l t. unfold Generate.POST.
  rewrite business_found, business_subscribed. cbn [negb].
  fold currentUsage requested limit.
  apply Z.ltb_ge in Hle. rewrite Hle.
  destruct (industryInfo_of _ _ _) as [info|]; [|discriminate].
  unfold call. destruct (anthropic _ _) as [msg|st b|content]; try discriminate.
  destruct (JSON_parse _) as [response|]; [|discriminate].
  destruct (generatedPosts_of now response) as [posts|]; [|discriminate].
  destruct (accepts _); discriminate.
Qed.

End GenerateRoute.

(** The quota check acts on the usage the route reads.  For a subscribed
    business, a request whose [postCount] (7 when absent) added to the
    usage read exceeds the tier limit (starter 50, professional 200)
    gets the 429 reply carrying that usage and the limit, and the world
    is left as it was: no call to the model is logged.  A request within
    the limit passes the quota check; its industry being a preset or a
    custom text, the model is called, once. *)
Theorem quota_gate_on_the_usage_read (anthropic : Oracle)
    (setDate1 : timestamp → timestamp) (accepts : list Db.GeneratedPost → bool)
    (upsert : uuid → Z → timestamp → list ApiUsage → list ApiUsage)
    (user : uuid) (body : GenerateRequest) (now : timestamp) (w : World)
    (business : Business) :
  single (filter (λ b, business_user_id b = user) (businesses (db w))) = Some business →
  subscribed business = true →
  let currentUsage := currentUsage_of setDate1 (business_id business) now (db w) in
  let requested := default 7%Z (postCount body) in
  let limit := tierLimits (subscription_tier_of business) in
  let reply := POST anthropic setDate1 accepts upsert (Some user) body now w in
  (tierLimits (Some starter) = 50%Z ∧ tierLimits (Some professional) = 200%Z)
  ∧ ((limit < currentUsage + requested)%Z →
     reply = (QuotaExceeded currentUsage limit (subscription_tier_of business), w))
  ∧ ((currentUsage + requested <= limit)%Z →
     (∀ u l t, reply.1 ≠ QuotaExceeded u l t)
     ∧ ∀ info,
         industryInfo_of (industry body) (customIndustry body)
                         (default "professional" (tone_of body)) = Some info →
         calls reply.2
         = calls w ++ [prompt_of requested (default "instagram" (platform_of body))
                                 (default "professional" (tone_of body)) info
                                 (default true (includeHashtags body))
                                 (default true (includeCTA body))]).
Proof.
  intros Hb Hs currentUsage requested limit reply.
  split; [split; reflexivity|]. split.
  - apply over_quota_rejected; assumption.
  - intros Hle. split.
    + apply (within_quota_passes anthropic setDate1 accepts upsert user body now w
               business Hb Hs Hle).
    + intros info Hinfo.
      apply (within_quota_calls anthropic setDate1 accepts upsert user body now w business
               Hb Hs info); assumption.
Qed.

(** A starter business (row 2 of user 1). *)
Definition starter_business : Business :=
  {| business_id := 2; business_user_id := 1;
     subscription_status_of := Some active; subscription_tier_of := Some starter |}.

(** Instants of March 2024 (UTC): the 1st at 08:00, the 10th at 12:00 and
    the 15th at 09:00. *)
Definition first_of_march_at_eight : timestamp := 1709280000000.
Definition tenth_of_march : timestamp := 1710072000000.
Definition mid_march : timestamp := 1710493200000.

Definition usage_row (used : Z) (created : timestamp) : World :=
  quiet {| businesses := [starter_business]; social_accounts := []; mentions := [];
           sentiment_analytics := ∅; generated_posts := []; scheduled_posts := [];
           api_usage := [ {| usage_id := 7; usage_business_id := 2;
                             posts_generated := used; usage_created_at := created;
                             usage_updated_at := created |} ];
           next_uuid := 100 |}.

(** The business has generated [used] posts this month, counted in a row
    created on the 10th. *)
Definition with_usage (used : Z) : World := usage_row used tenth_of_march.

(** Tables that accept every insertion and keep one usage row per
    business. *)
Definition accept_all (rows : list Db.GeneratedPost) : bool := true.

Definition upsert_by_business (business : uuid) (n : Z) (now : timestamp)
    (rows : list ApiUsage) : list ApiUsage :=
  let fresh := {| usage_id := 0; usage_business_id := business; posts_generated := n;
                  usage_created_at := now; usage_updated_at := now |} in
  match filter (λ u, usage_business_id u = business) rows with
  | [] => rows ++ [fresh]
  | _ =>
      (λ u, if decide (usage_business_id u = business)
            then {| usage_id := usage_id u; usage_business_id := business;
                    posts_generated := n; usage_created_at := usage_created_at u;
                    usage_updated_at := now |}
            else u) <$> rows
  end.

Definition beauty (count : option Z) : GenerateRequest :=
  {| industry := "beauty"; customIndustry := None; postCount := count;
     platform_of := None; tone_of := None; includeHashtags := None;
     includeCTA := None |}.

(** The model answers with two posts, whatever it is asked. *)
Definition two_posts : string :=
  "```json" +:+ lf +:+ "{" +:+ quoted "posts" +:+ ": [{" +:+ quoted "content" +:+ ": "
  +:+ quoted "Glow up" +:+ "}, {" +:+ quoted "content" +:+ ": " +:+ quoted "Stay fresh"
  +:+ ", " +:+ quoted "estimatedEngagement" +:+ ": " +:+ quoted "high" +:+ "}]}"
  +:+ lf +:+ "```".

(** On the 15th at 09:00 the usage is counted from the 1st at 09:00. *)
Example first_of_the_month_run :
  first_of_the_month mid_march = (first_of_march_at_eight + 3600000)%Z
  ∧ getDate mid_march = 15%Z ∧ getDate first_of_march_at_eight = 1%Z.
Proof. vm_compute. repeat split. Qed.

Lemma quota_gate_on_the_usage_read_witness :
  let w := with_usage 45 in
  let reply := POST (always two_posts) first_of_the_month accept_all upsert_by_business
                    (Some 1) (beauty None) mid_march w in
  (tierLimits (Some starter) = 50%Z ∧ tierLimits (Some professional) = 200%Z)
  ∧ ((50 < 45 + 7)%Z → reply = (QuotaExceeded 45 50 (Some starter), w))
  ∧ ((45 + 7 <= 50)%Z →
     (∀ u l t, reply.1 ≠ QuotaExceeded u l t)
     ∧ ∀ info,
         industryInfo_of "beauty" None "professional" = Some info →
         calls reply.2
         = calls w ++ [prompt_of 7 "instagram" "professional" info true true]).
Proof.
  apply (quota_gate_on_the_usage_read (always two_posts) first_of_the_month accept_all
           upsert_by_business 1 (beauty None) mid_march (with_usage 45) starter_business).
  - reflexivity.
  - reflexivity.
Defined.

Example over_quota_run :
  POST (always two_posts) first_of_the_month accept_all upsert_by_business
       (Some 1) (beauty None) mid_march (with_usage 45)
  = (QuotaExceeded 45 50 (Some starter), with_usage 45).
Proof. vm_compute. reflexivity. Qed.

Example at_quota_run :
  let '(r, w') := POST (always two_posts) first_of_the_month accept_all upsert_by_business
                       (Some 1) (beauty (Some 5%Z)) mid_march (with_usage 45) in
  (∃ posts saved, r = Generated posts saved 50 50 0 ∧ length posts = 2%nat)
  ∧ length (calls w') = 1%nat
  ∧ posts_generated <$> api_usage (db w') = [50%Z].
Proof. vm_compute. split; [eexists _, _; split; reflexivity|split; reflexivity]. Qed.

(** A custom industry without its text is no input of the contract: the
    prompt cannot be written and the request fails before any call. *)
Example custom_without_text_run :
  POST (always two_posts) first_of_the_month accept_all upsert_by_business (Some 1)
       {| industry := "custom"; customIndustry := None; postCount := Some 1%Z;
          platform_of := None; tone_of := None; includeHashtags := None;
          includeCTA := None |} mid_march (with_usage 45)
  = (ServerError TYPE_ERROR, with_usage 45).
Proof. vm_compute. reflexivity. Qed.

(** C4 fails on the code.  A starter business (limit 50) has generated
    50 posts in March 2024, counted in its one usage row, which was
    created on the 1st at 08:00.  A request for seven posts on the 15th
    at 09:00 counts the usage from the 1st at 09:00: the row is older by
    an hour, no row is read, the usage is taken to be 0 and the request
    is accepted.  The model is called and the reply is a success
    reporting a usage of 7 of 50, whatever the tables do with what they
    are sent. *)
Theorem month_over_limit_is_accepted (accepts : list Db.GeneratedPost → bool)
    (upsert : uuid → Z → timestamp → list ApiUsage → list ApiUsage) :
  let w := usage_row 50 first_of_march_at_eight in
  let reply := POST (always two_posts) first_of_the_month accepts upsert
                    (Some 1) (beauty None) mid_march w in
  (posts_generated <$> api_usage (db w) = [50%Z]
   ∧ (first_of_march_at_eight <= mid_march < first_of_march_at_eight + 15 * DAY_MS)%Z
   ∧ getDate first_of_march_at_eight = 1%Z)
  ∧ (tierLimits (Some starter) < 50 + 7)%Z
  ∧ first_of_the_month mid_march = (first_of_march_at_eight + 3600000)%Z
  ∧ currentUsage_of first_of_the_month 2 mid_march (db w) = 0%Z
  ∧ (∃ posts saved, reply.1 = Generated posts saved 7 50 43)
  ∧ (∀ u l t, reply.1 ≠ QuotaExceeded u l t)
  ∧ length (calls reply.2) = 1%nat.
Proof.
  cbv zeta.
  split; [split; [reflexivity|split; [unfold first_of_march_at_eight, mid_march, DAY_MS; lia
                                     |reflexivity]]|].
  split; [reflexivity|]. split; [reflexivity|]. split; [reflexivity|].
  vm_compute. destruct (accepts _); (split; [eauto|split; [discriminate|reflexivity]]).
Qed.

(** What a success leaves behind, in the handler's own terms. *)
Lemma success_shape (anthropic : Oracle)
    (setDate1 : timestamp → timestamp) (accepts : list Db.GeneratedPost → bool)
    (upsert : uuid → Z → timestamp → list ApiUsage → list ApiUsage)
    (user : uuid) (body : GenerateRequest) (now : timestamp) (w w' : World)
    (posts : list GeneratedPost) (savedPosts : option (list Db.GeneratedPost))
    (current limit remaining : Z) :
  POST anthropic setDate1 accepts upsert (Some user) body now w
  = (Generated posts savedPosts current limit remaining, w') →
  ∃ business,
    single (filter (λ b, business_user_id b = user) (businesses (db w))) = Some business
    ∧ let usage := currentUsage_of setDate1 (business_id business) now (db w) in
      let requested := default 7%Z (postCount body) in
      let platform := default "instagram" (platform_of body) in
      let rows := postToSave (business_id business) platform now <$> posts in
      current = (usage + requested)%Z
      ∧ limit = tierLimits (subscription_tier_of business)
      ∧ remaining = (limit - current)%Z
      ∧ api_usage (db w')
        = upsert (business_id business) (usage + requested)%Z now (api_usage (db w))
      ∧ savedPosts = (if accepts rows then Some (stored_rows (next_uuid (db w)) rows)
                      else None)
      ∧ generated_posts (db w')
        = generated_posts (db w) ++ default [] savedPosts.
Proof.
  unfold POST. intros H.
  destruct (single _) as [business|]; [|discriminate].
  exists business. split; [reflexivity|].
  destruct (negb (subscribed business)); [discriminate|].
  destruct (_ <? _)%Z; [discriminate|].
  destruct (industryInfo_of _ _ _) as [info|]; [|discriminate].
  unfold call in H. destruct (anthropic _ _) as [msg|st b|content]; try discriminate.
  destruct (JSON_parse _) as [response|]; [|discriminate].
  destruct (generatedPosts_of now response) as [generatedPosts|]; [|discriminate].
  cbn [db] in H.
  destruct (accepts _) eqn:Ea; injection H as <- <- <- <- <- <-; cbv zeta;
    rewrite Ea; cbn [db api_usage generated_posts with_db with_api_usage
                     with_next_uuid with_generated_posts default];
    rewrite ?app_nil_r; repeat split; auto.
Qed.

Lemma stored_rows_ids (n : uuid) (rows : list Db.GeneratedPost) :
  generated_id <$> stored_rows n rows = seq n (length rows).
Proof.
  apply list_eq. intros i. unfold stored_rows.
  rewrite list_lookup_fmap, list_lookup_imap.
  destruct (rows !! i) as [x|] eqn:Ex; cbn.
  - symmetry. apply lookup_seq. split; [reflexivity|].
    apply lookup_lt_Some in Ex. exact Ex.
  - symmetry. apply lookup_seq_ge. apply lookup_ge_None in Ex. exact Ex.
Qed.

(** A stored row, field by field, against the post it was made of. *)
Definition row_of_post (business : uuid) (platform : string) (now : timestamp)
    (post : GeneratedPost) (row : Db.GeneratedPost) : Prop :=
  generated_business_id row = business
  ∧ generated_platform row = platform
  ∧ generated_content row = content post
  ∧ generated_hashtags row = hashtags post
  ∧ generated_cta row = cta post
  ∧ image_prompt row = imagePrompt post
  ∧ best_time_to_post row = bestTimeToPost post
  ∧ estimated_engagement row = estimatedEngagement post
  ∧ generated_status row = draft
  ∧ Db.scheduled_post_id row = None
  ∧ generated_at row = now.

Lemma stored_rows_fields (business : uuid) (platform : string) (now : timestamp)
    (n : uuid) (posts : list GeneratedPost) :
  Forall2 (row_of_post business platform now) posts
          (stored_rows n (postToSave business platform now <$> posts)).
Proof.
  apply Forall2_same_length_lookup_2.
  - unfold stored_rows. rewrite length_imap, length_fmap. reflexivity.
  - intros i post row Hp Hr. unfold stored_rows in Hr.
    rewrite list_lookup_imap, list_lookup_fmap, Hp in Hr. cbn in Hr.
    injection Hr as <-. repeat split.
Qed.

(** A success counts the posts asked for.  When a generation call
    succeeds, the reply reports the usage read plus the requested
    [postCount] (7 when absent) against the tier limit, and that sum is
    what is handed to the usage table for the business, whatever the
    number of posts the model returned and whether or not the posts were
    stored.  When they were stored, the rows appended to
    [generated_posts] are one for each returned post, in order, with
    fresh consecutive identifiers; each row carries the business, the
    platform, the post's content, hashtags, call to action, image
    prompt, best time and estimated engagement, the status draft, no
    scheduled post and the time of the request.  When the store refused
    them, [generated_posts] is as it was. *)
Theorem success_counts_the_requested_posts (anthropic : Oracle)
    (setDate1 : timestamp → timestamp) (accepts : list Db.GeneratedPost → bool)
    (upsert : uuid → Z → timestamp → list ApiUsage → list ApiUsage)
    (user : uuid) (body : GenerateRequest) (now : timestamp) (w w' : World)
    (posts : list GeneratedPost) (savedPosts : option (list Db.GeneratedPost))
    (current limit remaining : Z) :
  POST anthropic setDate1 accepts upsert (Some user) body now w
  = (Generated posts savedPosts current limit remaining, w') →
  ∃ business,
    single (filter (λ b, business_user_id b = user) (businesses (db w))) = Some business
    ∧ let usage := currentUsage_of setDate1 (business_id business) now (db w) in
      let requested := default 7%Z (postCount body) in
      let platform := default "instagram" (platform_of body) in
      current = (usage + requested)%Z
      ∧ limit = tierLimits (subscription_tier_of business)
      ∧ remaining = (limit - (usage + requested))%Z
      ∧ api_usage (db w')
        = upsert (business_id business) (usage + requested)%Z now (api_usage (db w))
      ∧ match savedPosts with
        | Some rows =>
            generated_posts (db w') = generated_posts (db w) ++ rows
            ∧ generated_id <$> rows = seq (next_uuid (db w)) (length posts)
            ∧ Forall2 (row_of_post (business_id business) platform now) posts rows
        | None => generated_posts (db w') = generated_posts (db w)
        end.
Proof.
  intros H. apply success_shape in H as (business & Hb & H). cbv zeta in H.
  destruct H as (Hc & Hl & Hr & Hu & Hs & Hg).
  exists business. split; [exact Hb|]. cbv zeta.
  split; [exact Hc|]. split; [exact Hl|]. split; [rewrite Hr, Hc; reflexivity|].
  split; [exact Hu|].
  destruct (accepts _); subst savedPosts; cbn [default] in Hg.
  - split; [exact Hg|]. split.
    + rewrite stored_rows_ids, length_fmap. reflexivity.
    + apply stored_rows_fields.
  - rewrite app_nil_r in Hg. exact Hg.
Qed.

(** Seven posts are requested (the default), the model returns two: the
    usage counted on the 10th goes from 40 to 47. *)
Lemma success_counts_the_requested_posts_witness :
  ∃ posts savedPosts w',
    POST (always two_posts) first_of_the_month accept_all upsert_by_business
         (Some 1) (beauty None) mid_march (with_usage 40)
    = (Generated posts savedPosts 47 50 3, w')
    ∧ length posts = 2%nat
    ∧ ∃ business,
        single (filter (λ b, business_user_id b = 1) (businesses (db (with_usage 40))))
        = Some business
        ∧ let usage := currentUsage_of first_of_the_month (business_id business) mid_march
                                       (db (with_usage 40)) in
          let requested := 7%Z in
          let platform := "instagram" in
          47%Z = (usage + requested)%Z
          ∧ 50%Z = tierLimits (subscription_tier_of business)
          ∧ 3%Z = (50 - (usage + requested))%Z
          ∧ api_usage (db w')
            = upsert_by_business (business_id business) (usage + requested)%Z mid_march
                                 (api_usage (db (with_usage 40)))
          ∧ match savedPosts with
            | Some rows =>
                generated_posts (db w') = generated_posts (db (with_usage 40)) ++ rows
                ∧ generated_id <$> rows
                  = seq (next_uuid (db (with_usage 40))) (length posts)
                ∧ Forall2 (row_of_post (business_id business) platform mid_march)
                          posts rows
            | None => generated_posts (db w') = generated_posts (db (with_usage 40))
            end.
Proof.
  eexists _, _, _. split; [|split].
  3: { eapply (success_counts_the_requested_posts (always two_posts) first_of_the_month
                 accept_all upsert_by_business 1 (beauty None) mid_march (with_usage 40)).
       lazy. reflexivity. }
  - lazy. reflexivity.
  - reflexivity.
Defined.

Example two_returned_seven_counted :
  let '(r, w') := POST (always two_posts) first_of_the_month accept_all upsert_by_business
                       (Some 1) (beauty None) mid_march (with_usage 40) in
  (∃ posts saved, r = Generated posts saved 47 50 3 ∧ length posts = 2%nat)
  ∧ posts_generated <$> api_usage (db w') = [47%Z]
  ∧ generated_status <$> generated_posts (db w') = [draft; draft]
  ∧ generated_content <$> generated_posts (db w')
    = [Some (JString "Glow up"); Some (JString "Stay fresh")].
Proof.
  vm_compute. split; [eexists _, _; split; reflexivity|repeat split; reflexivity].
Qed.

(** C5 fails on the code.  A starter business has generated 40 posts in
    March 2024, counted in its one usage row, which was created on the
    1st at 08:00.  A request for seven posts on the 15th at 09:00 counts
    the usage from the 1st at 09:00 and reads no row: the success
    reports a usage of 7, and 7 is what is handed to the usage table for
    the business, not 47.  On a table that keeps one usage row for each
    business the month's usage goes from 40 down to 7. *)
Theorem month_usage_restarts_at_the_request
    (accepts : list Db.GeneratedPost → bool)
    (upsert : uuid → Z → timestamp → list ApiUsage → list ApiUsage) :
  let w := usage_row 40 first_of_march_at_eight in
  let reply := POST (always two_posts) first_of_the_month accepts upsert
                    (Some 1) (beauty None) mid_march w in
  let kept := POST (always two_posts) first_of_the_month accept_all upsert_by_business
                   (Some 1) (beauty None) mid_march w in
  (posts_generated <$> api_usage (db w) = [40%Z]
   ∧ (first_of_march_at_eight <= mid_march < first_of_march_at_eight + 15 * DAY_MS)%Z
   ∧ getDate first_of_march_at_eight = 1%Z)
  ∧ first_of_the_month mid_march = (first_of_march_at_eight + 3600000)%Z
  ∧ currentUsage_of first_of_the_month 2 mid_march (db w) = 0%Z
  ∧ (∃ posts saved, reply.1 = Generated posts saved 7 50 43 ∧ length posts = 2%nat)
  ∧ api_usage (db reply.2) = upsert 2 7%Z mid_march (api_usage (db w))
  ∧ posts_generated <$> api_usage (db kept.2) = [7%Z]
  ∧ generated_status <$> generated_posts (db kept.2) = [draft; draft].
Proof.
  cbv zeta.
  split; [split; [reflexivity|split; [unfold first_of_march_at_eight, mid_march, DAY_MS; lia
                                     |reflexivity]]|].
  split; [reflexivity|]. split; [reflexivity|].
  split; [|split; [|split; reflexivity]].
  - vm_compute. destruct (accepts _); eexists _, _; split; reflexivity.
  - vm_compute. destruct (accepts _); reflexivity.
Qed.

End GenerationProperties.

Section SchedulingProperties.
Import JS Json Db Anthropic Schedule.

(** ** The scheduling route *)

Local Ltac destruct_single :=
  match goal with |- context [single ?l] => destruct (single l) end.

Definition http_status (r : Response) : nat :=
  match r with
  | Unauthorized => 401
  | ContentRequired | PostIdRequired | NoActiveAccount | NotInFuture => 400
  | NoBusiness | GeneratedPostNotFound | ScheduledPostNotFound => 404
  | SubscriptionRequired => 403
  | LimitReached _ _ _ => 429
  | Scheduled _ | Updated _ | Cancelled => 200
  | ServerError _ => 500
  end.

(** The request says what to post: a text, or a generated post. *)
Definition has_content (body : ScheduleRequest) : Prop :=
  match content body, postId body with
  | (None | Some EmptyString), None => False
  | _, _ => True
  end.

(** What the handler reads before it looks at the time. *)
Definition reaches_time_check (user : uuid) (body : ScheduleRequest) (d : Database)
    (business : Business) (socialAccount : SocialAccount) : Prop :=
  has_content body
  ∧ single (filter (λ b, business_user_id b = user) (businesses d)) = Some business
  ∧ subscribed business = true
  ∧ single (filter (λ a, account_business_id a = business_id business
                         ∧ account_platform a = platform_of body
                         ∧ is_active a = true) (social_accounts d)) = Some socialAccount.

Lemma has_content_test body :
  has_content body →
  match content body, postId body with
  | (None | Some EmptyString), None => true
  | _, _ => false
  end = false.
Proof.
  unfold has_content. destruct (content body) as [[|c s]|], (postId body);
    intros H; try reflexivity; contradiction.
Qed.

(** C6.  A request whose [scheduled_time] is not after the clock creates
    no row: the store is left as it was and the reply is an error; when
    the request gets as far as the time check (a user, something to post,
    a subscribed business, an active account on the platform) the reply
    is the 400 "Scheduled time must be in the future".  A request whose
    time is strictly after the clock is never answered so. *)
Theorem past_time_is_rejected (user : option uuid) (body : ScheduleRequest)
    (now t : timestamp) (d : Database) :
  scheduledTime body = Some t →
  let reply := POST user body now d in
  ((t <= now)%Z →
     reply.2 = d
     ∧ (400 <= http_status reply.1 < 500)%nat
     ∧ ∀ u business socialAccount,
         user = Some u → reaches_time_check u body d business socialAccount →
         reply.1 = NotInFuture ∧ http_status reply.1 = 400%nat)
  ∧ ((now < t)%Z → reply.1 ≠ NotInFuture).
Proof.
  intros Ht reply. subst reply. split.
  - intros Hle. apply Z.leb_le in Hle. split; [|split].
    + unfold POST. rewrite Ht, Hle. destruct user as [u|]; [|reflexivity].
      destruct (content body) as [[|c s]|], (postId body); try reflexivity;
        (destruct_single; [|reflexivity]);
        (destruct (subscribed _); [|reflexivity]); cbn [negb];
        (destruct_single; reflexivity).
    + unfold POST. rewrite Ht, Hle. destruct user as [u|]; [|simpl; lia].
      destruct (content body) as [[|c s]|], (postId body); try (simpl; lia);
        (destruct_single; [|simpl; lia]);
        (destruct (subscribed _); [|simpl; lia]); cbn [negb];
        (destruct_single; simpl; lia).
    + intros u business socialAccount -> (Hc & Hb & Hs & Ha). unfold POST.
      rewrite (has_content_test _ Hc), Hb, Hs, Ha, Ht, Hle. split; reflexivity.
  - intros Hlt. apply Z.leb_gt in Hlt. unfold POST. rewrite Ht, Hlt.
    destruct user as [u|]; [|discriminate].
    destruct (content body) as [[|c s]|], (postId body) as [post|]; try discriminate;
      (destruct_single; [|discriminate]);
      (destruct (subscribed _); [|discriminate]); cbn [negb];
      (destruct_single; [|discriminate]);
      try (destruct_single; [|discriminate]);
      (destruct (_ <=? _)%nat; discriminate).
Qed.



(** A starter business (row 2 of user 1) with an active Instagram account
    and [n] posts in status scheduled. *)
Definition booked_post (st : post_status) (i : nat) : ScheduledPost :=
  {| scheduled_id := 200 + i; scheduled_business_id := 2; scheduled_account_id := 5;
     scheduled_platform := "instagram"; scheduled_content := Some (JString "hello");
     scheduled_hashtags := JArray []; image_url := None; scheduled_time := 500000;
     status := st; created_at := 1000 |}.

Definition booked (n : nat) : Database :=
  {| businesses := [starter_business];
     social_accounts := [ {| account_row_id := 5; account_user_id := 1;
                             account_business_id := 2; account_platform := "instagram";
                             account_id := "acct"; access_token := "token";
                             is_active := true; token_expires_at := None |} ];
     mentions := []; sentiment_analytics := ∅; generated_posts := [];
     scheduled_posts := booked_post scheduled <$> seq 0 n;
     api_usage := []; next_uuid := 1000 |}.

Definition post_at (t : timestamp) : ScheduleRequest :=
  {| postId := None; content := Some "New arrivals"; platform_of := "instagram";
     scheduledTime := Some t; hashtags := None; imageUrl := None |}.

Lemma past_time_is_rejected_witness :
  let reply := POST (Some 1) (post_at 9000) 9000 (booked 3) in
  ((9000 <= 9000)%Z →
     reply.2 = booked 3
     ∧ (400 <= http_status reply.1 < 500)%nat
     ∧ ∀ u business socialAccount,
         Some 1 = Some u → reaches_time_check u (post_at 9000) (booked 3) business socialAccount →
         reply.1 = NotInFuture ∧ http_status reply.1 = 400%nat)
  ∧ ((9000 < 9000)%Z → reply.1 ≠ NotInFuture).
Proof.
  apply (past_time_is_rejected (Some 1) (post_at 9000) 9000 9000 (booked 3)).
  reflexivity.
Defined.

Example at_the_clock_run :
  POST (Some 1) (post_at 9000) 9000 (booked 3) = (NotInFuture, booked 3).
Proof. vm_compute. reflexivity. Qed.

Example a_millisecond_later_run :
  (POST (Some 1) (post_at 9001) 9000 (booked 3)).1
  = Scheduled {| scheduled_id := 1000; scheduled_business_id := 2;
                 scheduled_account_id := 5; scheduled_platform := "instagram";
                 scheduled_content := Some (JString "New arrivals");
                 scheduled_hashtags := JArray []; image_url := None;
                 scheduled_time := 9001; status := scheduled; created_at := 9000 |}.
Proof. vm_compute. reflexivity. Qed.


Example thirty_first_post_run :
  POST (Some 1) (post_at 86400000) 9000 (booked 30)
  = (LimitReached 30 30 (Some starter), booked 30).
Proof. vm_compute. reflexivity. Qed.

Example thirtieth_post_run :
  let '(r, d') := POST (Some 1) (post_at 86400000) 9000 (booked 29) in
  (∃ row, r = Scheduled row) ∧ length (scheduled_of 2 d') = 30%nat.
Proof. vm_compute. split; [eexists|]; reflexivity. Qed.

(** *** The status of a scheduled post *)

(** The calls that write [scheduled_posts]. *)
Inductive Call :=
| Create (user : option uuid) (body : ScheduleRequest) (now : timestamp)
| Change (user : option uuid) (id : option uuid) (body : UpdateRequest)
| Cancel (user : option uuid) (id : option uuid).

Definition handle (c : Call) (d : Database) : Response * Database :=
  match c with
  | Create user body now => POST user body now d
  | Change user id body => PATCH user id body d
  | Cancel user id => DELETE user id d
  end.

(** The transitions of the state machine the specification draws. *)
Definition transition (s s' : post_status) : Prop :=
  s = scheduled ∧ (s' = published ∨ s' = cancelled ∨ s' = failed).

(** A call follows it when every row whose status it changes makes one of
    these transitions. *)
Definition follows_state_machine (c : Call) (d : Database) : Prop :=
  ∀ i p p',
    scheduled_posts d !! i = Some p →
    scheduled_posts (handle c d).2 !! i = Some p' →
    status p' ≠ status p → transition (status p) (status p').

Lemma POST_keeps_rows user body now d i p :
  scheduled_posts d !! i = Some p →
  scheduled_posts (POST user body now d).2 !! i = Some p.
Proof.
  intros Hi. unfold POST.
  repeat first
    [ exact Hi
    | (cbn [snd scheduled_posts with_generated_posts with_next_uuid with_scheduled_posts];
       apply lookup_app_l_Some; exact Hi)
    | match goal with
      | |- context [match ?x with _ => _ end] => destruct x
      end ].
Qed.

Lemma PATCH_keeps_status user id body d i p :
  scheduled_posts d !! i = Some p →
  ∃ p', scheduled_posts (PATCH user id body d).2 !! i = Some p'
        ∧ scheduled_id p' = scheduled_id p ∧ status p' = status p.
Proof.
  intros Hi. unfold PATCH.
  destruct user as [u|]; [|eauto].
  destruct id as [post|]; [|eauto].
  destruct_single; [|eauto].
  destruct_single; [|eauto].
  destruct (new_scheduledTime body) as [[t|]|]; [|eauto|];
    (destruct_single; [|eauto]); cbn [snd scheduled_posts with_scheduled_posts];
    rewrite list_lookup_fmap, Hi; cbn [fmap option_fmap option_map];
    (case_decide; eauto).
Qed.

Lemma DELETE_cancels user id d i p :
  scheduled_posts d !! i = Some p →
  ∃ p', scheduled_posts (DELETE user id d).2 !! i = Some p'
        ∧ scheduled_id p' = scheduled_id p
        ∧ (p' = p
           ∨ (p' = cancel p ∧ id = Some (scheduled_id p)
              ∧ ∃ u business,
                  user = Some u
                  ∧ single (filter (λ b, business_user_id b = u) (businesses d))
                    = Some business
                  ∧ scheduled_business_id p = business_id business)).
Proof.
  intros Hi. unfold DELETE.
  destruct user as [u|]; [|eauto].
  destruct id as [post|]; [|eauto].
  destruct (single _) as [business|] eqn:Eb; [|eauto].
  cbn [snd scheduled_posts with_scheduled_posts].
  rewrite list_lookup_fmap, Hi. cbn [fmap option_fmap option_map].
  case_decide as Hd; [|eauto].
  destruct Hd as [<- Hbus]. eexists. split; [reflexivity|]. split; [reflexivity|].
  right. split; [reflexivity|]. split; [reflexivity|]. eauto.
Qed.

(** C10 (as the code has it).  Every call keeps every row of
    [scheduled_posts], and the only change of status it makes is to
    cancelled: creating and updating change no status, and cancelling
    gives the rows of that identifier and business the status cancelled
    whatever their status was (scheduled, published, failed or already
    cancelled), touching nothing else of them. *)
Theorem status_changes_only_to_cancelled (c : Call) (d : Database) (i : nat)
    (p : ScheduledPost) :
  scheduled_posts d !! i = Some p →
  ∃ p',
    scheduled_posts (handle c d).2 !! i = Some p'
    ∧ scheduled_id p' = scheduled_id p
    ∧ (status p' = status p ∨ (status p' = cancelled ∧ ∃ user, c = Cancel user (Some (scheduled_id p))))
    ∧ (∀ u business,
         c = Cancel (Some u) (Some (scheduled_id p)) →
         single (filter (λ b, business_user_id b = u) (businesses d)) = Some business →
         scheduled_business_id p = business_id business →
         p' = cancel p).
Proof.
  intros Hi. destruct c as [user body now|user id body|user id]; cbn [handle].
  - exists p. split; [apply POST_keeps_rows, Hi|]. repeat split; auto. discriminate.
  - destruct (PATCH_keeps_status user id body d i p Hi) as (p' & H1 & H2 & H3).
    exists p'. repeat split; auto. discriminate.
  - destruct (DELETE_cancels user id d i p Hi) as (p' & H1 & H2 & H3).
    exists p'. split; [exact H1|]. split; [exact H2|]. split.
    + destruct H3 as [->|(-> & -> & _)]; [left; reflexivity|].
      right. split; [reflexivity|]. eauto.
    + intros u business [= -> ->] Hb Hbus. clear H3.
      unfold DELETE in H1. rewrite Hb in H1.
      cbn [snd scheduled_posts with_scheduled_posts] in H1.
      rewrite list_lookup_fmap, Hi in H1. cbn [fmap option_fmap option_map] in H1.
      rewrite decide_True in H1 by (split; [reflexivity|exact Hbus]).
      congruence.
Qed.

(** The business of user 1 with one published post (row 200). *)
Definition one_published : Database :=
  {| businesses := [starter_business]; social_accounts := []; mentions := [];
     sentiment_analytics := ∅; generated_posts := [];
     scheduled_posts := [booked_post published 0];
     api_usage := []; next_uuid := 1000 |}.

Lemma status_changes_only_to_cancelled_witness :
  ∃ p',
    scheduled_posts (handle (Cancel (Some 1) (Some 200)) one_published).2 !! 0%nat = Some p'
    ∧ scheduled_id p' = 200
    ∧ (status p' = published
       ∨ (status p' = cancelled
          ∧ ∃ user, Cancel (Some 1) (Some 200) = Cancel user (Some 200)))
    ∧ (∀ u business,
         Cancel (Some 1) (Some 200) = Cancel (Some u) (Some 200) →
         single (filter (λ b, business_user_id b = u) (businesses one_published))
         = Some business →
         scheduled_business_id (booked_post published 0) = business_id business →
         p' = cancel (booked_post published 0)).
Proof.
  apply (status_changes_only_to_cancelled (Cancel (Some 1) (Some 200)) one_published 0
           (booked_post published 0)).
  reflexivity.
Defined.

(** C10 as stated fails: cancelling a published post takes it from
    published to cancelled, which is no transition of the state machine. *)
Lemma cancel_leaves_the_state_machine :
  ¬ follows_state_machine (Cancel (Some 1) (Some 200)) one_published.
Proof.
  intros H.
  destruct (H 0%nat (booked_post published 0) (cancel (booked_post published 0))
              eq_refl eq_refl ltac:(discriminate)) as [Hs _].
  discriminate Hs.
Qed.

Example cancel_published_run :
  DELETE (Some 1) (Some 200) one_published
  = (Cancelled, with_scheduled_posts [booked_post cancelled 0] one_published).
Proof. vm_compute. reflexivity. Qed.

End SchedulingProperties.

Section TenantProperties.
Import JS Json Db Anthropic Analyze.

(** ** The analysis route and its tenants *)

Section AnalyzeTenants.

Variable ANTHROPIC_API_KEY : string.
Variable anthropic : Oracle.

Local Abbreviation analyze_and_store := (analyze_and_store ANTHROPIC_API_KEY anthropic).
Local Abbreviation by_id_step := (by_id_step ANTHROPIC_API_KEY anthropic).
Local Abbreviation by_id_loop := (by_id_loop ANTHROPIC_API_KEY anthropic).
Local Abbreviation batch_loop := (batch_loop ANTHROPIC_API_KEY anthropic).
Local Abbreviation POST := (POST ANTHROPIC_API_KEY anthropic).

(** Who owns which row: the identifier and the tenant of every mention,
    in the order of the table. *)
Definition owners (d : Database) : list (uuid * uuid) :=
  (λ m, (mention_id m, user_id m)) <$> mentions d.

(** What a request of [user] leaves alone: which rows there are and whose,
    the rows of the other tenants, and their daily analytics. *)
Definition same_for_others (user : uuid) (d d' : Database) : Prop :=
  owners d' = owners d
  ∧ filter (λ m, user_id m ≠ user) (mentions d')
    = filter (λ m, user_id m ≠ user) (mentions d)
  ∧ ∀ t day, t ≠ user →
      sentiment_analytics d' !! (t, day) = sentiment_analytics d !! (t, day).

Lemma same_for_others_refl user d : same_for_others user d d.
Proof. repeat split. Qed.

Lemma same_for_others_trans user d1 d2 d3 :
  same_for_others user d1 d2 → same_for_others user d2 d3 →
  same_for_others user d1 d3.
Proof.
  intros (A1 & B1 & C1) (A2 & B2 & C2). split; [congruence|]. split; [congruence|].
  intros t day Ht. rewrite C2, C1 by assumption. reflexivity.
Qed.

Lemma filter_fmap_fixed {A} (P : A → Prop) `{∀ x, Decision (P x)} (f : A → A)
    (l : list A) :
  (∀ x, P x → f x = x) → (∀ x, P (f x) → P x) →
  filter P (f <$> l) = filter P l.
Proof.
  intros Hfix Hback. induction l as [|x l IH]; [reflexivity|].
  rewrite fmap_cons, !filter_cons, IH.
  destruct (decide (P x)) as [Hx|Hx].
  - rewrite (Hfix x Hx). rewrite decide_True by assumption. reflexivity.
  - rewrite decide_False; [reflexivity|]. intros Hfx. apply Hx, Hback, Hfx.
Qed.

Lemma filter_none {A} (P : A → Prop) `{∀ x, Decision (P x)} (l : list A) :
  (∀ x, x ∈ l → ¬ P x) → filter P l = [].
Proof.
  induction l as [|x l IH]; intros Hl; [reflexivity|].
  rewrite filter_cons_False by (apply Hl; left).
  apply IH. intros y Hy. apply Hl. by right.
Qed.

Lemma update_rows_same_for_others id user s l r d :
  same_for_others user d (update_rows id user s l r d).
Proof.
  split; [|split].
  - unfold owners. rewrite update_rows_mentions, <- list_fmap_compose.
    apply list_fmap_ext. intros i m _. simpl. case_decide; reflexivity.
  - rewrite update_rows_mentions. apply filter_fmap_fixed.
    + intros m Hm. rewrite decide_False; [reflexivity|]. intros [_ Hu]. contradiction.
    + intros m. case_decide; [|done]. simpl. done.
  - intros t day Ht. unfold update_rows. rewrite fire_lookup.
    assert (E : existsb (λ c : Mention * Mention,
                   recomputes (Some c.1) c.2 && bool_decide (day_key c.2 = (t, day)))
                 ((λ m, (m, set_sentiment (Some s) l r m))
                    <$> filter (λ m, mention_id m = id ∧ user_id m = user) (mentions d))
               = false).
    { apply not_true_is_false. intros (c & Hc & Hk)%existsb_exists.
      apply list_elem_of_In, list_elem_of_fmap in Hc as (m & -> & Hm).
      apply list_elem_of_filter in Hm as [[_ Hu] _].
      apply andb_true_iff in Hk as [_ Hk]. apply bool_decide_eq_true in Hk.
      unfold day_key in Hk. simpl in Hk. congruence. }
    rewrite E. reflexivity.
Qed.

Lemma update_rows_null_same_for_others id user l r d :
  same_for_others user d (update_rows_null id user l r d).
Proof.
  split; [|split].
  - unfold owners. rewrite update_rows_null_mentions, <- list_fmap_compose.
    apply list_fmap_ext. intros i m _. simpl. case_decide; reflexivity.
  - rewrite update_rows_null_mentions. apply filter_fmap_fixed.
    + intros m Hm. rewrite decide_False; [reflexivity|]. intros [_ Hu]. contradiction.
    + intros m. case_decide; [|done]. simpl. done.
  - intros t day Ht. rewrite update_rows_null_analytics. reflexivity.
Qed.

Lemma analyze_and_store_same user id text w :
  same_for_others user (db w) (db (analyze_and_store user id text w).2).
Proof.
  pose proof (analyze_and_store_cases ANTHROPIC_API_KEY anthropic user id text w) as H.
  destruct (analyze_and_store user id text w) as [r w']. simpl.
  destruct H as (_ & _ & [E | [(s & l & t & E) | (l & t & E)]]); rewrite E.
  - apply same_for_others_refl.
  - apply update_rows_same_for_others.
  - apply update_rows_null_same_for_others.
Qed.

Lemma by_id_step_same user id w :
  same_for_others user (db w) (db (by_id_step user id w).2).
Proof.
  unfold Analyze.by_id_step.
  destruct (single _) as [mention|]; [|apply same_for_others_refl].
  destruct (sentiment_score mention); [apply same_for_others_refl|].
  apply analyze_and_store_same.
Qed.

Lemma by_id_loop_same user ids w :
  same_for_others user (db w) (db (by_id_loop user ids w).2).
Proof.
  revert w. induction ids as [|id ids IH]; intros w; [apply same_for_others_refl|].
  cbn [Analyze.by_id_loop].
  pose proof (by_id_step_same user id w) as H1.
  destruct (by_id_step user id w) as [r w1]. specialize (IH w1).
  destruct (by_id_loop user ids w1) as [rs w2]. simpl in *.
  eapply same_for_others_trans; eassumption.
Qed.

Lemma batch_loop_same user batch w :
  same_for_others user (db w) (db (batch_loop user batch w).2).
Proof.
  revert w. induction batch as [|m batch IH]; intros w; [apply same_for_others_refl|].
  cbn [Analyze.batch_loop].
  pose proof (analyze_and_store_same user (mention_id m) (content m) w) as H1.
  destruct (analyze_and_store user (mention_id m) (content m) w) as [r w1].
  specialize (IH w1). destruct (batch_loop user batch w1) as [rs w2]. simpl in *.
  eapply same_for_others_trans; eassumption.
Qed.

Lemma POST_same user body w :
  same_for_others user (db w) (db (POST (Some user) body w).2).
Proof.
  unfold Analyze.POST.
  destruct (mentionIds body) as [[|id ids]|].
  2: { pose proof (by_id_loop_same user (id :: ids) w) as H.
       destruct (by_id_loop user (id :: ids) w) as [rs w']. exact H. }
  all: destruct (content_of body) as [[|a text]|].
  all: try (pose proof (analyzeSentimentWithClaude_db ANTHROPIC_API_KEY anthropic
                          (String a text) w) as H;
            destruct (analyzeSentimentWithClaude _ _ (String a text) w) as [[e|sent] w'];
            simpl in *; rewrite H; apply same_for_others_refl).
  all: destruct (select_unanalyzed user _ (db w)) as [|m batch] eqn:E;
    [apply same_for_others_refl|];
    pose proof (batch_loop_same user (m :: batch) w) as H;
    destruct (batch_loop user (m :: batch) w) as [rs w']; exact H.
Qed.


(** *** Identifiers that are not the tenant's *)

(** No row of [user] has the identifier [i]: there is no such row, or it
    is another tenant's. *)
Definition foreign (user i : uuid) (d : Database) : Prop :=
  ∀ m, m ∈ mentions d → mention_id m = i → user_id m ≠ user.

Lemma foreign_owners user i d : foreign user i d ↔ (i, user) ∉ owners d.
Proof.
  unfold foreign, owners. split.
  - intros H (m & [= -> ->] & Hm)%list_elem_of_fmap. by apply (H m).
  - intros H m Hm Hi Hu. apply H, list_elem_of_fmap. exists m. by subst.
Qed.

Lemma foreign_same user i d d' :
  same_for_others user d d' → foreign user i d → foreign user i d'.
Proof. intros (E & _) H. apply foreign_owners. rewrite E. by apply foreign_owners. Qed.

Definition NOT_FOUND : string := "Mention not found or access denied".

Lemma by_id_step_foreign user i w :
  foreign user i (db w) → by_id_step user i w = (ItemFailed i NOT_FOUND, w).
Proof.
  intros H. unfold Analyze.by_id_step.
  assert (E : filter (λ m, mention_id m = i ∧ user_id m = user) (mentions (db w)) = []).
  { apply filter_none. intros m Hm [Hi Hu]. by apply (H m). }
  rewrite E. reflexivity.
Qed.

Lemma by_id_loop_foreign user i ids w :
  foreign user i (db w) →
  let '(results, w') := by_id_loop user ids w in
  (∀ r, r ∈ results → item_id r = i → r = ItemFailed i NOT_FOUND)
  ∧ (by_id_loop user (filter (λ j, j ≠ i) ids) w).2 = w'.
Proof.
  revert w. induction ids as [|id ids IH]; intros w Hw.
  - simpl. split; [|reflexivity]. intros r Hr. by apply elem_of_nil in Hr.
  - cbn [Analyze.by_id_loop]. destruct (decide (id = i)) as [->|Hne].
    + rewrite by_id_step_foreign by assumption.
      rewrite filter_cons_False by (intros H; by apply H).
      specialize (IH w Hw). destruct (by_id_loop user ids w) as [rs w2].
      destruct IH as [H2 H3]. split; [|assumption].
      intros r Hr Hrid. apply elem_of_cons in Hr as [->|Hr]; [reflexivity|].
      by apply H2.
    + rewrite filter_cons_True by assumption. cbn [Analyze.by_id_loop].
      pose proof (by_id_step_id ANTHROPIC_API_KEY anthropic user id w) as Hid.
      pose proof (by_id_step_same user id w) as Hsame.
      destruct (by_id_step user id w) as [r1 w1]. simpl in Hid, Hsame.
      specialize (IH w1 (foreign_same _ _ _ _ Hsame Hw)).
      destruct (by_id_loop user ids w1) as [rs w2].
      destruct (by_id_loop user (filter _ ids) w1) as [rs' w2'].
      destruct IH as [H2 H3]. simpl in H3. split; [|assumption].
      intros r Hr Hrid. apply elem_of_cons in Hr as [->|Hr]; [congruence|].
      by apply H2.
Qed.

(** *** The three numbers of the reply *)

Lemma count_three rs :
  (count (λ r, succeeded r && negb (is_cached r)) rs
   + count (λ r, succeeded r && is_cached r) rs
   + count (λ r, negb (succeeded r)) rs = length rs)%nat.
Proof.
  unfold count. induction rs as [|r rs IH]; [reflexivity|].
  destruct r; simpl in *; lia.
Qed.

(** *** Asking again *)

Lemma filter_hit_upd id user s l r (ms : list Mention) :
  filter (λ m, mention_id m = id ∧ user_id m = user)
         ((λ m, if decide (mention_id m = id ∧ user_id m = user)
                then set_sentiment (Some s) l r m else m) <$> ms)
  = set_sentiment (Some s) l r
      <$> filter (λ m, mention_id m = id ∧ user_id m = user) ms.
Proof.
  induction ms as [|m ms IH]; [reflexivity|].
  rewrite fmap_cons, !filter_cons, IH.
  destruct (decide (mention_id m = id ∧ user_id m = user)) as [Hm|Hm].
  - rewrite decide_True by exact Hm. reflexivity.
  - rewrite decide_False by exact Hm. reflexivity.
Qed.

Lemma filter_hit_clear id user l r (ms : list Mention) :
  filter (λ m, mention_id m = id ∧ user_id m = user)
         ((λ m, if decide (mention_id m = id ∧ user_id m = user)
                then set_sentiment None l r m else m) <$> ms)
  = set_sentiment None l r
      <$> filter (λ m, mention_id m = id ∧ user_id m = user) ms.
Proof.
  induction ms as [|m ms IH]; [reflexivity|].
  rewrite fmap_cons, !filter_cons, IH.
  destruct (decide (mention_id m = id ∧ user_id m = user)) as [Hm|Hm].
  - rewrite decide_True by exact Hm. reflexivity.
  - rewrite decide_False by exact Hm. reflexivity.
Qed.

(** With a key, [analyze_and_store] calls the classifier, once. *)
Lemma analyze_and_store_calls user id text w :
  String.eqb ANTHROPIC_API_KEY EmptyString = false →
  calls (analyze_and_store user id text w).2 = calls w ++ [text].
Proof.
  intros Hk. unfold Analyze.analyze_and_store, Analyze.analyzeSentimentWithClaude, call.
  rewrite Hk. destruct (interpret _) as [e|sent]; [reflexivity|].
  destruct (update_mention_sentiment _ _ _ _ _ _); reflexivity.
Qed.

(** What the same identifier comes to after it was analyzed: a cache
    hit, when the score was stored; another analysis, when the score
    was no finite number and the row was left without one. *)
Lemma by_id_step_again user i w w' sentiment :
  by_id_step user i w = (ItemAnalyzed i sentiment, w') →
  match wire (score sentiment) with
  | Some sent =>
      ∃ t, numeric_3_1 sent = Some t
           ∧ by_id_step user i w'
             = (ItemCached i t (Some (label sentiment)) (Some (reasoning sentiment)), w')
  | None =>
      (∃ m, filter (λ m, mention_id m = i ∧ user_id m = user) (mentions (db w')) = [m]
            ∧ sentiment_score m = None
            ∧ sentiment_label_of m = Some (label sentiment)
            ∧ sentiment_reasoning m = Some (reasoning sentiment))
      ∧ is_cached (by_id_step user i w').1 = false
      ∧ length (calls (by_id_step user i w').2) = S (length (calls w'))
  end.
Proof.
  unfold Analyze.by_id_step at 1.
  destruct (single _) as [mention|] eqn:Es; [|discriminate].
  destruct (sentiment_score mention) eqn:Em; [discriminate|].
  unfold Analyze.analyze_and_store.
  pose proof (analyzeSentimentWithClaude_db ANTHROPIC_API_KEY anthropic
                (content mention) w) as Hdb.
  assert (Hkey : ∀ sent w1,
            analyzeSentimentWithClaude ANTHROPIC_API_KEY anthropic (content mention) w
            = (inr sent, w1) → String.eqb ANTHROPIC_API_KEY EmptyString = false).
  { unfold analyzeSentimentWithClaude. destruct (String.eqb _ _); [discriminate|reflexivity]. }
  destruct (analyzeSentimentWithClaude _ _ (content mention) w) as [[e|sent] w1] eqn:Ec;
    [discriminate|]. simpl in Hdb. specialize (Hkey _ _ eq_refl).
  unfold update_mention_sentiment.
  assert (Hone : filter (λ m, mention_id m = i ∧ user_id m = user) (mentions (db w))
                 = [mention]).
  { destruct (filter _ (mentions (db w))) as [|x [|y rest]]; try discriminate.
    injection Es as ->. reflexivity. }
  destruct (wire (score sent)) as [sent_score|] eqn:Ew.
  - destruct (numeric_3_1 sent_score) as [t|] eqn:En; [|discriminate].
    intros [= <- <-]. rewrite Ew. exists t. split; [exact En|].
    unfold Analyze.by_id_step.
    cbn [db with_db]. rewrite update_rows_mentions, filter_hit_upd, Hdb, Hone.
    reflexivity.
  - intros [= <- <-]. rewrite Ew.
    assert (Hnow : filter (λ m, mention_id m = i ∧ user_id m = user)
                          (mentions (db (with_db (update_rows_null i user (label sent)
                                                    (reasoning sent) (db w1)) w1)))
                   = [set_sentiment None (label sent) (reasoning sent) mention]).
    { cbn [db with_db]. rewrite update_rows_null_mentions, filter_hit_clear, Hdb, Hone.
      reflexivity. }
    split; [eexists; split; [exact Hnow|repeat split]|].
    unfold Analyze.by_id_step. rewrite Hnow. cbn [single sentiment_score set_sentiment].
    pose proof (analyze_and_store_cases ANTHROPIC_API_KEY anthropic user i
                  (content (set_sentiment None (label sent) (reasoning sent) mention))
                  (with_db (update_rows_null i user (label sent) (reasoning sent) (db w1))
                           w1)) as Hcases.
    pose proof (analyze_and_store_calls user i
                  (content (set_sentiment None (label sent) (reasoning sent) mention))
                  (with_db (update_rows_null i user (label sent) (reasoning sent) (db w1))
                           w1) Hkey) as Hcalls.
    destruct (analyze_and_store _ _ _ _) as [r w2]. cbn [fst snd] in *.
    split; [apply Hcases|]. rewrite Hcalls, length_app. simpl. lia.
Qed.


(** *** The analytics stay consistent *)

(** Identifiers are unique ([id] is the primary key), every scored
    mention is labelled and every daily row, present or not, agrees with
    the scored mentions of its day. *)
Definition consistent (d : Database) : Prop :=
  NoDup (mention_id <$> mentions d)
  ∧ labelled (mentions d) ∧ ∀ t day, day_consistent d t day.

(** The rows of an identifier and user have no score. *)
Definition unscored_hits (id user : uuid) (d : Database) : Prop :=
  ∀ m, m ∈ mentions d → mention_id m = id → user_id m = user → sentiment_score m = None.

Lemma update_rows_ids id user s l r d :
  mention_id <$> mentions (update_rows id user s l r d) = mention_id <$> mentions d.
Proof.
  rewrite update_rows_mentions, <- list_fmap_compose.
  apply list_fmap_ext. intros i m _. simpl. case_decide; reflexivity.
Qed.

Lemma update_rows_null_ids id user l r d :
  mention_id <$> mentions (update_rows_null id user l r d) = mention_id <$> mentions d.
Proof.
  rewrite update_rows_null_mentions, <- list_fmap_compose.
  apply list_fmap_ext. intros i m _. simpl. case_decide; reflexivity.
Qed.

Lemma update_rows_keeps_consistent id user s l r d :
  consistent d → consistent (update_rows id user s l r d).
Proof.
  intros (Hk & Hl & Hc). split; [|split].
  - rewrite update_rows_ids. exact Hk.
  - rewrite update_rows_mentions. apply upd_labelled, Hl.
  - intros t day. apply update_rows_consistent; [exact Hl|apply Hc].
Qed.

Lemma update_rows_null_keeps_consistent id user l r d :
  unscored_hits id user d →
  consistent d → consistent (update_rows_null id user l r d).
Proof.
  intros Hun (Hk & Hl & Hc). split; [|split].
  - rewrite update_rows_null_ids. exact Hk.
  - rewrite update_rows_null_mentions. apply clear_labelled, Hl.
  - intros t day. apply update_rows_null_consistent; [|apply Hc].
    intros m Hm [Hi Hu]. apply Hun; assumption.
Qed.

Lemma analyze_and_store_consistent user id text w :
  unscored_hits id user (db w) →
  consistent (db w) → consistent (db (analyze_and_store user id text w).2).
Proof.
  intros Hun Hc.
  pose proof (analyze_and_store_cases ANTHROPIC_API_KEY anthropic user id text w) as H.
  destruct (analyze_and_store user id text w) as [r w']. simpl.
  destruct H as (_ & _ & [E | [(s & l & t & E) | (l & t & E)]]); rewrite E.
  - exact Hc.
  - apply update_rows_keeps_consistent, Hc.
  - apply update_rows_null_keeps_consistent; assumption.
Qed.

(** The one row the by-identifiers mode has found without a score is
    the only row of its identifier and user. *)
Lemma single_unscored_hits id user d mention :
  single (filter (λ m, mention_id m = id ∧ user_id m = user) (mentions d)) = Some mention →
  sentiment_score mention = None → unscored_hits id user d.
Proof.
  intros Es Em m Hm Hi Hu.
  assert (Hin : m ∈ filter (λ x, mention_id x = id ∧ user_id x = user) (mentions d))
    by (apply list_elem_of_filter; auto).
  destruct (filter _ (mentions d)) as [|x [|y rest]]; try discriminate.
  injection Es as ->. apply list_elem_of_singleton in Hin as ->. exact Em.
Qed.

Lemma by_id_loop_consistent user ids w :
  consistent (db w) → consistent (db (by_id_loop user ids w).2).
Proof.
  revert w. induction ids as [|id ids IH]; intros w Hc; [exact Hc|].
  cbn [Analyze.by_id_loop].
  assert (H1 : consistent (db (by_id_step user id w).2)).
  { unfold Analyze.by_id_step.
    destruct (single _) as [mention|] eqn:Es; [|exact Hc].
    destruct (sentiment_score mention) eqn:Em; [exact Hc|].
    apply analyze_and_store_consistent; [|exact Hc].
    eapply single_unscored_hits; eassumption. }
  destruct (by_id_step user id w) as [r w1]. specialize (IH w1 H1).
  destruct (by_id_loop user ids w1) as [rs w2]. exact IH.
Qed.

Lemma same_key_same_row (ms : list Mention) x y :
  NoDup (mention_id <$> ms) → x ∈ ms → y ∈ ms → mention_id x = mention_id y → x = y.
Proof.
  induction ms as [|m ms IH]; intros Hnd Hx Hy E; [by apply elem_of_nil in Hx|].
  rewrite fmap_cons in Hnd. apply NoDup_cons in Hnd as [Hm Hnd].
  apply elem_of_cons in Hx as [->|Hx]; apply elem_of_cons in Hy as [->|Hy].
  - reflexivity.
  - exfalso. apply Hm. rewrite E. apply list_elem_of_fmap. eauto.
  - exfalso. apply Hm. rewrite <- E. apply list_elem_of_fmap. eauto.
  - apply IH; assumption.
Qed.

(** A batch of rows of the table that await their score. *)
Definition awaiting (batch : list Mention) (d : Database) : Prop :=
  Forall (λ m, m ∈ mentions d ∧ sentiment_score m = None) batch.

Lemma awaiting_unscored_hits m batch user d :
  NoDup (mention_id <$> mentions d) → awaiting (m :: batch) d →
  unscored_hits (mention_id m) user d.
Proof.
  intros Hk Hb x Hx Hi _. apply Forall_cons in Hb as [[Hm Hmu] _].
  rewrite (same_key_same_row _ x m Hk Hx Hm Hi). exact Hmu.
Qed.

(** The analysis of one identifier leaves the rows of the others as
    they were. *)
Lemma analyze_and_store_awaiting user id text batch w :
  id ∉ mention_id <$> batch →
  awaiting batch (db w) → awaiting batch (db (analyze_and_store user id text w).2).
Proof.
  intros Hid Hb.
  pose proof (analyze_and_store_cases ANTHROPIC_API_KEY anthropic user id text w) as Hc.
  destruct (analyze_and_store user id text w) as [r w1]. simpl.
  destruct Hc as (_ & _ & Hdb).
  assert (Hkeep : ∀ (f : Mention → Mention) x,
            x ∈ batch →
            (if decide (mention_id x = id ∧ user_id x = user) then f x else x) = x).
  { intros f x Hx. rewrite decide_False; [reflexivity|]. intros [Hi _]. apply Hid.
    rewrite <- Hi. apply list_elem_of_fmap. eauto. }
  unfold awaiting in *.
  destruct Hdb as [E | [(s & l & t & E) | (l & t & E)]]; rewrite E; [exact Hb|..].
  - rewrite update_rows_mentions. rewrite Forall_forall in Hb |- *.
    intros x Hx. destruct (Hb x Hx) as [Hin Hxs]. split; [|exact Hxs].
    apply list_elem_of_fmap. exists x. split; [|exact Hin].
    symmetry. apply (Hkeep (set_sentiment (Some s) l t)), Hx.
  - rewrite update_rows_null_mentions. rewrite Forall_forall in Hb |- *.
    intros x Hx. destruct (Hb x Hx) as [Hin Hxs]. split; [|exact Hxs].
    apply list_elem_of_fmap. exists x. split; [|exact Hin].
    symmetry. apply (Hkeep (set_sentiment None l t)), Hx.
Qed.

Lemma batch_loop_consistent user batch w :
  consistent (db w) → awaiting batch (db w) → NoDup (mention_id <$> batch) →
  consistent (db (batch_loop user batch w).2).
Proof.
  revert w. induction batch as [|m batch IH]; intros w Hc Hb Hnd; [exact Hc|].
  cbn [Analyze.batch_loop].
  rewrite fmap_cons in Hnd. apply NoDup_cons in Hnd as [Hmid Hnd].
  pose proof (awaiting_unscored_hits m batch user (db w) (proj1 Hc) Hb) as Hun.
  pose proof (analyze_and_store_consistent user (mention_id m) (content m) w Hun Hc) as H1.
  apply Forall_cons in Hb as [_ Hb].
  pose proof (analyze_and_store_awaiting user (mention_id m) (content m) batch w
                Hmid Hb) as Hb1.
  destruct (analyze_and_store user (mention_id m) (content m) w) as [r w1].
  specialize (IH w1 H1 Hb1 Hnd). destruct (batch_loop user batch w1) as [rs w2]. exact IH.
Qed.

Lemma select_unanalyzed_batch user n d :
  NoDup (mention_id <$> mentions d) →
  awaiting (select_unanalyzed user n d) d
  ∧ NoDup (mention_id <$> select_unanalyzed user n d).
Proof.
  intros Hk.
  assert (Hsel : select_unanalyzed user n d `sublist_of` mentions d).
  { unfold select_unanalyzed.
    etransitivity; [apply sublist_take|apply sublist_filter]. }
  split.
  - apply Forall_forall. intros x Hx. split.
    + eapply elem_of_sublist; [exact Hx|exact Hsel].
    + eapply select_unanalyzed_unscored, Hx.
  - eapply sublist_NoDup; [exact Hk|]. apply fmap_sublist, Hsel.
Qed.

Lemma POST_consistent user body w :
  consistent (db w) → consistent (db (POST user body w).2).
Proof.
  intros Hc. unfold Analyze.POST. destruct user as [user|]; [|exact Hc].
  destruct (mentionIds body) as [[|id ids]|].
  2: { pose proof (by_id_loop_consistent user (id :: ids) w Hc) as H.
       destruct (by_id_loop user (id :: ids) w) as [rs w']. exact H. }
  all: destruct (content_of body) as [[|a text]|].
  all: try (pose proof (analyzeSentimentWithClaude_db ANTHROPIC_API_KEY anthropic
                          (String a text) w) as H;
            destruct (analyzeSentimentWithClaude _ _ (String a text) w) as [[e|sent] w'];
            simpl in *; rewrite H; exact Hc).
  all: match goal with
       | |- context [select_unanalyzed ?x ?n (db ?y)] =>
           pose proof (select_unanalyzed_batch x n (db y) (proj1 Hc)) as [Hb Hnd];
           destruct (select_unanalyzed x n (db y)) as [|m batch]; [exact Hc|]
       end.
  all: pose proof (batch_loop_consistent user (m :: batch) w Hc Hb Hnd) as H;
       destruct (batch_loop user (m :: batch) w) as [rs w']; exact H.
Qed.

(** A store with unique identifiers, without a score and without a
    daily row is consistent. *)
Lemma unscored_consistent d :
  NoDup (mention_id <$> mentions d) →
  Forall (λ m, sentiment_score m = None) (mentions d) →
  sentiment_analytics d = ∅ → consistent d.
Proof.
  intros Hk Hn He. split; [exact Hk|]. split.
  - unfold labelled. eapply Forall_impl; [exact Hn|].
    intros m Hm [s Hs]. congruence.
  - intros t day. unfold day_consistent. rewrite He, lookup_empty.
    unfold scored_on. apply filter_none. intros m Hm (_ & _ & [s Hs]).
    rewrite Forall_forall in Hn. rewrite (Hn m Hm) in Hs. discriminate.
Qed.

End AnalyzeTenants.

(** Tenant isolation.  Whatever a tenant asks of the analysis route, in
    any of its three modes and whatever the classifier answers, the table
    keeps the same rows with the same owners, the mentions of every other
    tenant are left as they were, sentiment included, and so is every
    daily analytics row of another tenant. *)
Theorem analysis_leaves_other_tenants_alone (key : string) (anthropic : Oracle)
    (user : uuid) (body : AnalyzeRequest) (w : World) :
  let d' := db (POST key anthropic (Some user) body w).2 in
  (λ m, (mention_id m, user_id m)) <$> mentions d'
  = (λ m, (mention_id m, user_id m)) <$> mentions (db w)
  ∧ filter (λ m, user_id m ≠ user) (mentions d')
    = filter (λ m, user_id m ≠ user) (mentions (db w))
  ∧ ∀ t day, t ≠ user →
      sentiment_analytics d' !! (t, day) = sentiment_analytics (db w) !! (t, day).
Proof. exact (POST_same key anthropic user body w). Qed.

(** Tenant 1 has its batch analyzed; the mention of tenant 2 stays
    unscored and no daily row of tenant 2 appears. *)
Example other_tenant_run :
  let d' := db (POST "key" (always reply_42) (Some 1)
                  {| mentionIds := None; content_of := None; batchSize := None |}
                  (quiet (with_mentions [unscored 11 1 2000 "fine";
                                         unscored 20 2 3000 "theirs"] Db.empty))).2 in
  (λ m, (mention_id m, user_id m, sentiment_score m)) <$> mentions d'
  = [(11%nat, 1%nat, Some 420%Z); (20%nat, 2%nat, None)]
  ∧ fst <$> map_to_list (sentiment_analytics d') = [(1%nat, 0%Z)].
Proof. vm_compute. split; reflexivity. Qed.

(** Identifiers that are not the tenant's own.  In the by-identifiers mode
    the reply has one result for each identifier asked, in the order
    asked; at every place where an identifier was asked under which the
    tenant has no mention (there is none, or it is another tenant's) the
    result is the failure "Mention not found or access denied"; and the
    request ends in the same world as the request without that
    identifier: no call to the classifier and no write is made for it. *)
Theorem foreign_mention_is_refused (key : string) (anthropic : Oracle)
    (user i : uuid) (body : AnalyzeRequest) (ids : list uuid) (w : World) :
  mentionIds body = Some ids → ids ≠ [] →
  (∀ m, m ∈ mentions (db w) → mention_id m = i → user_id m ≠ user) →
  let refused := ItemFailed i "Mention not found or access denied" in
  ∃ results analyzed cached failed w',
    POST key anthropic (Some user) body w = (ByIds results analyzed cached failed, w')
    ∧ item_id <$> results = ids
    ∧ (∀ k, ids !! k = Some i → results !! k = Some refused)
    ∧ (∀ r, r ∈ results → item_id r = i → r = refused)
    ∧ (i ∈ ids → refused ∈ results ∧ (1 <= failed)%nat)
    ∧ (by_id_loop key anthropic user (filter (λ j, j ≠ i) ids) w).2 = w'.
Proof.
  intros Hb Hne Hf refused.
  pose proof (by_id_loop_foreign key anthropic user i ids w Hf) as H.
  pose proof (by_id_loop_ids key anthropic user ids w) as Hids.
  unfold POST. rewrite Hb. destruct ids as [|id ids]; [contradiction|].
  destruct (by_id_loop key anthropic user (id :: ids) w) as [results w'].
  destruct H as [H1 H2]. cbn [fst] in Hids.
  assert (Hplace : ∀ k, (id :: ids) !! k = Some i → results !! k = Some refused)
    by (eapply result_at_place; eassumption).
  eexists _, _, _, _, _. split; [reflexivity|].
  split; [exact Hids|]. split; [exact Hplace|]. split; [exact H1|].
  split; [|exact H2].
  intros [k Hk]%list_elem_of_lookup_1. apply Hplace in Hk.
  assert (Hr : refused ∈ results) by (eapply list_elem_of_lookup_2, Hk).
  split; [exact Hr|]. unfold count.
  assert (Hin : In refused (List.filter (λ r, negb (succeeded r)) results)).
  { apply filter_In. split; [apply list_elem_of_In, Hr|reflexivity]. }
  destruct (List.filter _ results); [destruct Hin|simpl; lia].
Qed.

(** Tenant 1 asks for row 20, which is tenant 2's, and for its own row 11. *)
Definition two_tenants : World :=
  quiet (with_mentions [unscored 11 1 2000 "fine"; unscored 20 2 3000 "theirs"] Db.empty).

Lemma foreign_mention_is_refused_witness :
  let refused := ItemFailed 20 "Mention not found or access denied" in
  ∃ results analyzed cached failed w',
    POST "key" (always reply_42) (Some 1)
         {| mentionIds := Some [20; 11; 20]; content_of := None; batchSize := None |}
         two_tenants
    = (ByIds results analyzed cached failed, w')
    ∧ item_id <$> results = [20; 11; 20]
    ∧ (∀ k, [20; 11; 20] !! k = Some 20 → results !! k = Some refused)
    ∧ (∀ r, r ∈ results → item_id r = 20 → r = refused)
    ∧ (20 ∈ [20; 11; 20] → refused ∈ results ∧ (1 <= failed)%nat)
    ∧ (by_id_loop "key" (always reply_42) 1 (filter (λ j, j ≠ 20) [20; 11; 20])
                  two_tenants).2 = w'.
Proof.
  apply (foreign_mention_is_refused "key" (always reply_42) 1 20
           {| mentionIds := Some [20; 11; 20]; content_of := None; batchSize := None |}
           [20; 11; 20] two_tenants).
  - reflexivity.
  - discriminate.
  - intros m Hm Hi.
    apply elem_of_cons in Hm as [->|Hm]; [discriminate Hi|].
    apply elem_of_cons in Hm as [->|Hm]; [discriminate|].
    by apply elem_of_nil in Hm.
Defined.

Example foreign_mention_run :
  (POST "key" (always reply_42) (Some 1)
        {| mentionIds := Some [20; 11; 20]; content_of := None; batchSize := None |}
        two_tenants).1
  = ByIds [ItemFailed 20 "Mention not found or access denied";
           ItemAnalyzed 11 result_42;
           ItemFailed 20 "Mention not found or access denied"] 1 0 2.
Proof. vm_compute. reflexivity. Qed.

(** The reply of the by-identifiers mode accounts for every identifier
    asked: there is one result per identifier, in the order asked and
    under that identifier, and the numbers [analyzed], [cached] and
    [failed] add up to the number of identifiers. *)
Theorem by_ids_reply_accounts_for_every_id (key : string) (anthropic : Oracle)
    (user : uuid) (body : AnalyzeRequest) (ids : list uuid) (w : World) :
  mentionIds body = Some ids → ids ≠ [] →
  ∃ results analyzed cached failed w',
    POST key anthropic (Some user) body w = (ByIds results analyzed cached failed, w')
    ∧ item_id <$> results = ids
    ∧ (analyzed + cached + failed = length ids)%nat.
Proof.
  intros Hb Hne.
  pose proof (by_id_loop_ids key anthropic user ids w) as H.
  unfold POST. rewrite Hb. destruct ids as [|id ids]; [contradiction|].
  destruct (by_id_loop key anthropic user (id :: ids) w) as [results w'].
  simpl in H. eexists _, _, _, _, _. split; [reflexivity|]. split; [exact H|].
  rewrite count_three, <- H, length_fmap. reflexivity.
Qed.

Lemma by_ids_reply_accounts_for_every_id_witness :
  ∃ results analyzed cached failed w',
    POST "key" (always reply_42) (Some 1)
         {| mentionIds := Some [20; 11; 11]; content_of := None; batchSize := None |}
         two_tenants
    = (ByIds results analyzed cached failed, w')
    ∧ item_id <$> results = [20; 11; 11]
    ∧ (analyzed + cached + failed = length [20; 11; 11])%nat.
Proof.
  apply (by_ids_reply_accounts_for_every_id "key" (always reply_42) 1
           {| mentionIds := Some [20; 11; 11]; content_of := None; batchSize := None |}
           [20; 11; 11] two_tenants).
  - reflexivity.
  - discriminate.
Defined.

(** What the same request, made again in the world [w'] the first one
    left, is answered: a cache hit that changes nothing when the score
    was a finite double, and one more analysis when it was not. *)
Definition asked_again (key : string) (anthropic : Oracle) (user i : uuid)
    (body : AnalyzeRequest) (sentiment : SentimentResult) (w' : World) : Prop :=
  match wire (score sentiment) with
  | Some sent =>
      ∃ t, numeric_3_1 sent = Some t
           ∧ POST key anthropic (Some user) body w'
             = (ByIds [ItemCached i t (Some (label sentiment))
                                  (Some (reasoning sentiment))] 0 1 0, w')
  | None =>
      (∃ m, filter (λ m, mention_id m = i ∧ user_id m = user) (mentions (db w')) = [m]
            ∧ sentiment_score m = None
            ∧ sentiment_label_of m = Some (label sentiment)
            ∧ sentiment_reasoning m = Some (reasoning sentiment))
      ∧ ∃ r w'',
          POST key anthropic (Some user) body w'
          = (ByIds [r] (if succeeded r then 1 else 0) 0 (if succeeded r then 0 else 1), w'')
          ∧ is_cached r = false
          ∧ length (calls w'') = S (length (calls w'))
  end.

(** Asking again.  A request for one identifier has had the mention
    analyzed.  When the score the classifier gave is a finite double,
    the same request made again is answered from the row: the result is
    a cache hit carrying the label and the reasoning the classifier gave
    and the score as the column keeps it (the shortest decimal of the
    double, rounded to one decimal), and the world is left as it was, so
    the classifier is not called a second time.  When the score is past
    the largest double, the row was given the label and the reasoning
    and no score, and the same request made again is no cache hit: the
    classifier is called once more. *)
Theorem analyzed_once_then_cached (key : string) (anthropic : Oracle)
    (user i : uuid) (body : AnalyzeRequest) (w w' : World)
    (sentiment : SentimentResult) (analyzed cached failed : nat) :
  mentionIds body = Some [i] →
  POST key anthropic (Some user) body w
  = (ByIds [ItemAnalyzed i sentiment] analyzed cached failed, w') →
  asked_again key anthropic user i body sentiment w'.
Proof.
  intros Hb. unfold asked_again, POST. rewrite Hb. cbn [by_id_loop].
  destruct (by_id_step key anthropic user i w) as [r w1] eqn:E1.
  intros [= -> _ _ _ ->].
  apply by_id_step_again in E1.
  destruct (wire (score sentiment)) as [sent|].
  - destruct E1 as (t & Ht & E2). exists t. split; [exact Ht|]. rewrite E2. reflexivity.
  - destruct E1 as (Hrow & Hc & Hcalls). split; [exact Hrow|].
    destruct (by_id_step key anthropic user i w') as [r w2]. cbn [fst snd] in *.
    exists r, w2. split; [|split; assumption].
    unfold count. destruct r; try discriminate; reflexivity.
Qed.

Definition reply_with_score (literal : string) : string :=
  "{" +:+ quoted "score" +:+ ": " +:+ literal +:+ ", " +:+ quoted "label" +:+ ": "
  +:+ quoted "positive" +:+ ", " +:+ quoted "reasoning" +:+ ": " +:+ quoted "warm" +:+ "}".

Definition reply_755 : string := reply_with_score "7.55".

Definition ask_11 : AnalyzeRequest :=
  {| mentionIds := Some [11]; content_of := None; batchSize := None |}.

Lemma analyzed_once_then_cached_witness :
  ∃ sentiment w',
    POST "key" (always reply_755) (Some 1) ask_11 two_tenants
    = (ByIds [ItemAnalyzed 11 sentiment] 1 0 0, w')
    ∧ asked_again "key" (always reply_755) 1 11 ask_11 sentiment w'.
Proof.
  eexists _, _. split; [vm_compute; reflexivity|].
  apply (analyzed_once_then_cached "key" (always reply_755) 1 11 ask_11 two_tenants
           _ _ 1 0 0).
  - reflexivity.
  - vm_compute. reflexivity.
Defined.

(** The score 7.55 comes back as 7.6 the second time. *)
Example asked_again_run :
  let w' := (POST "key" (always reply_755) (Some 1) ask_11 two_tenants).2 in
  (POST "key" (always reply_755) (Some 1) ask_11 w').1
  = ByIds [ItemCached 11 76 (Some positive) (Some "warm")] 0 1 0
  ∧ calls w' = ["fine"].
Proof. vm_compute. split; reflexivity. Qed.

(** A literal of twenty digits just below 7.45 is the double 7.45, which
    is written 7.45 and stored as 7.5. *)
Example long_literal_run :
  let reply := reply_with_score "7.4499999999999999999" in
  let w' := (POST "key" (always reply) (Some 1) ask_11 two_tenants).2 in
  (POST "key" (always reply) (Some 1) ask_11 w').1
  = ByIds [ItemCached 11 75 (Some positive) (Some "warm")] 0 1 0.
Proof. vm_compute. reflexivity. Qed.

(** A literal of twenty-three digits just below 99.95 is the double
    99.95, which one decimal makes 100.0: the column refuses it and the
    item fails. *)
Example literal_past_the_column_run :
  (POST "key" (always (reply_with_score "99.949999999999999999999")) (Some 1) ask_11
        two_tenants).1
  = ByIds [ItemFailed 11 "Analysis failed"] 0 0 1.
Proof. vm_compute. reflexivity. Qed.

(** The score 1e400 is no finite double: the mention is reported as
    analyzed, its row gets the label and no score, no daily row is
    written, and the same request has the mention analyzed again. *)
Example score_past_the_doubles_run :
  let reply := reply_with_score "1e400" in
  let '(r1, w1) := POST "key" (always reply) (Some 1) ask_11 two_tenants in
  let '(r2, w2) := POST "key" (always reply) (Some 1) ask_11 w1 in
  (∃ sentiment, r1 = ByIds [ItemAnalyzed 11 sentiment] 1 0 0
                ∧ r2 = ByIds [ItemAnalyzed 11 sentiment] 1 0 0)
  ∧ (λ m, (mention_id m, sentiment_score m, sentiment_label_of m)) <$> mentions (db w1)
    = [(11%nat, None, Some positive); (20%nat, None, None)]
  ∧ sentiment_analytics (db w1) = ∅
  ∧ calls w2 = ["fine"; "fine"].
Proof. vm_compute. split; [eexists; split; reflexivity|repeat split]. Qed.

(** The analytics stay consistent.  From a store in which identifiers
    are unique, every scored mention has a label and every daily row
    agrees with the scored mentions of its day (a row is there exactly
    when the day has one, its three counts add up to its total, the
    total is their number and the average is their rounded mean), a
    request to the analysis route, by anyone, in any mode and whatever
    the classifier answers, leads to such a store again. *)
Theorem analysis_keeps_analytics_consistent (key : string) (anthropic : Oracle)
    (user : option uuid) (body : AnalyzeRequest) (w : World) :
  NoDup (mention_id <$> mentions (db w)) →
  labelled (mentions (db w)) →
  (∀ t day, day_consistent (db w) t day) →
  let d' := db (POST key anthropic user body w).2 in
  NoDup (mention_id <$> mentions d')
  ∧ labelled (mentions d') ∧ ∀ t day, day_consistent d' t day.
Proof. intros Hk Hl Hc. apply POST_consistent. repeat split; assumption. Qed.

Lemma analysis_keeps_analytics_consistent_witness :
  let d' := db (POST "key" (always reply_42) (Some 1)
                  {| mentionIds := None; content_of := None; batchSize := None |}
                  two_tenants).2 in
  NoDup (mention_id <$> mentions d')
  ∧ labelled (mentions d') ∧ ∀ t day, day_consistent d' t day.
Proof.
  assert (H : consistent (db two_tenants)).
  { apply unscored_consistent; [|repeat constructor|reflexivity].
    apply (bool_decide_unpack _). vm_compute. exact I. }
  exact (analysis_keeps_analytics_consistent "key" (always reply_42) (Some 1)
           {| mentionIds := None; content_of := None; batchSize := None |} two_tenants
           (proj1 H) (proj1 (proj2 H)) (proj2 (proj2 H))).
Defined.

(** The batch scores the one mention of tenant 1, and the row of its day
    appears. *)
Example batch_writes_the_day_run :
  let d' := db (POST "key" (always reply_42) (Some 1)
                  {| mentionIds := None; content_of := None; batchSize := None |}
                  two_tenants).2 in
  map_to_list (sentiment_analytics d')
  = [((1%nat, 0%Z), {| positive_count := 1; negative_count := 0; neutral_count := 0;
                       average_score := Some 420%Z; total_mentions := 1 |})].
Proof. vm_compute. reflexivity. Qed.

End TenantProperties.

Section IngestionWrites.
Import JS Json Db Anthropic Ingest.

(** ** What ingestion writes *)

(** The store with the rows [new] appended to [mentions] and as many
    identifiers drawn from the supply; every other table as it is. *)
Definition appended (new : list Mention) (d : Database) : Database :=
  with_next_uuid (length new + next_uuid d) (with_mentions (mentions d ++ new) d).

Lemma appended_nil d : appended [] d = d.
Proof. destruct d. unfold appended. simpl. rewrite app_nil_r. reflexivity. Qed.

Lemma appended_app a b d : appended b (appended a d) = appended (a ++ b) d.
Proof.
  unfold appended, with_next_uuid, with_mentions. simpl.
  rewrite <- app_assoc, length_app. f_equal. lia.
Qed.

(** A row as the route inserts it: of the tenant, the account and the
    platform of the request, and without sentiment. *)
Definition fresh (user account : uuid) (platform : string) (m : Mention) : Prop :=
  user_id m = user ∧ social_account_id m = account ∧ Db.platform m = platform
  ∧ sentiment_score m = None ∧ sentiment_label_of m = None
  ∧ sentiment_reasoning m = None.

Section Loop.

Variables (user account : uuid) (platform : string) (force : bool).

Local Abbreviation step := (ingest_step user account platform force).
Local Abbreviation fresh' := (fresh user account platform).

Lemma row_of_fresh mention d : fresh' (row_of user account platform mention d).
Proof. repeat split. Qed.

Lemma store_appended mention d :
  store user account platform mention d
  = appended [row_of user account platform mention d] d.
Proof. reflexivity. Qed.

(** A turn of the loop skips the mention, or inserts one row for it, or,
    the store refusing the row, does nothing. *)
Lemma step_cases mention ins skp d :
  (step mention (ins, skp, d) = (ins, skp ++ [mention], d)
   ∧ force = false ∧ length (duplicates user account mention d) = 1%nat)
  ∨ (∃ row, step mention (ins, skp, d) = (ins ++ [row], skp, appended [row] d)
            ∧ fresh' row ∧ mention_id row = next_uuid d
            ∧ accepted mention = true
            ∧ (force = true ∨ length (duplicates user account mention d) ≠ 1%nat))
  ∨ (step mention (ins, skp, d) = (ins, skp, d)
     ∧ accepted mention = false
     ∧ (force = true ∨ length (duplicates user account mention d) ≠ 1%nat)).
Proof.
  unfold ingest_step, insert_step.
  assert (Hins : ∀ (P : Prop), P →
    (∃ row, match insert_mention (new_row user account platform mention) d with
            | (Some inserted, d') => (ins ++ [inserted], skp, d')
            | (None, d') => (ins, skp, d')
            end = (ins ++ [row], skp, appended [row] d)
            ∧ fresh' row ∧ mention_id row = next_uuid d
            ∧ accepted mention = true ∧ P)
    ∨ (match insert_mention (new_row user account platform mention) d with
       | (Some inserted, d') => (ins ++ [inserted], skp, d')
       | (None, d') => (ins, skp, d')
       end = (ins, skp, d)
       ∧ accepted mention = false ∧ P)).
  { intros P HP. destruct (accepted mention) eqn:Ea.
    - left. exists (row_of user account platform mention d).
      rewrite insert_accepted by exact Ea. rewrite store_appended.
      split; [reflexivity|]. split; [apply row_of_fresh|]. auto.
    - right. rewrite insert_refused by exact Ea. auto. }
  destruct (single (duplicates user account mention d)) as [e|] eqn:Es.
  - destruct force; cbn [negb].
    + right. apply Hins. left. reflexivity.
    + left. repeat split. apply single_length. rewrite Es. eauto.
  - right. apply Hins.
    right. intros H%single_length. rewrite Es in H. by apply is_Some_None in H.
Qed.

Lemma loop_from ms ins0 skp0 d :
  ∃ new skp,
    fold_left (λ st mention, step mention st) ms (ins0, skp0, d)
    = (ins0 ++ new, skp0 ++ skp, appended new d)
    ∧ Forall fresh' new
    ∧ mention_id <$> new = seq (next_uuid d) (length new)
    ∧ (length new + length skp <= length ms)%nat
    ∧ (Forall (λ m, accepted m = true) ms →
       (length new + length skp = length ms)%nat)
    ∧ (force = true → skp = []).
Proof.
  revert ins0 skp0 d. induction ms as [|m ms IH]; intros ins0 skp0 d.
  - exists [], []. rewrite !app_nil_r, appended_nil.
    split; [reflexivity|]. split; [constructor|]. repeat split; reflexivity.
  - cbn [fold_left].
    destruct (step_cases m ins0 skp0 d)
      as [(E & Hf & _)|[(row & E & Hrow & Hid & _)|(E & Ha & _)]]; rewrite E.
    + destruct (IH ins0 (skp0 ++ [m]) d)
        as (new & skp & E' & Hn & Hids & Hle & Hlen & Hs).
      exists new, (m :: skp). rewrite E', <- app_assoc. split; [reflexivity|].
      split; [exact Hn|]. split; [exact Hids|]. split; [simpl; lia|].
      split; [|congruence].
      intros [_ Hall]%Forall_cons. specialize (Hlen Hall). simpl. lia.
    + destruct (IH (ins0 ++ [row]) skp0 (appended [row] d))
        as (new & skp & E' & Hn & Hids & Hle & Hlen & Hs).
      exists (row :: new), skp. rewrite E', <- app_assoc, appended_app.
      split; [reflexivity|]. split; [by constructor|].
      split; [rewrite fmap_cons, Hids, Hid; reflexivity|].
      split; [simpl; lia|]. split; [|exact Hs].
      intros [_ Hall]%Forall_cons. specialize (Hlen Hall). simpl. lia.
    + destruct (IH ins0 skp0 d) as (new & skp & E' & Hn & Hids & Hle & Hlen & Hs).
      exists new, skp. rewrite E'. split; [reflexivity|].
      split; [exact Hn|]. split; [exact Hids|]. split; [simpl; lia|].
      split; [|exact Hs].
      intros [Hm _]%Forall_cons. congruence.
Qed.

Lemma ingest_loop_spec ms d :
  ∃ new skp,
    ingest_loop user account platform force ms d = (new, skp, appended new d)
    ∧ Forall fresh' new
    ∧ mention_id <$> new = seq (next_uuid d) (length new)
    ∧ (length new + length skp <= length ms)%nat
    ∧ (Forall (λ m, accepted m = true) ms →
       (length new + length skp = length ms)%nat)
    ∧ (force = true → skp = []).
Proof. exact (loop_from ms [] [] d). Qed.


End Loop.

(** The handler answers with an error and leaves the store alone, or it
    runs the loop over what the adapter fetched. *)
Lemma ingestion_cases sources user body now d :
  ((∀ f i s, (POST sources user body now d).1 ≠ Ingested f i s)
   ∧ (POST sources user body now d).2 = d)
  ∨ (∃ u account socialAccount fetchMentions fetched,
       user = Some u ∧ socialAccountId body = Some account
       ∧ single (filter (λ a, account_row_id a = account ∧ account_user_id a = u)
                        (social_accounts d)) = Some socialAccount
       ∧ source_of sources (platform_of body) = Some fetchMentions
       ∧ fetchMentions (access_token socialAccount) (account_id socialAccount) now
         = inr fetched
       ∧ POST sources user body now d
         = let '(ins, skp, d') :=
             ingest_loop u account (platform_of body)
                         (default false (forceRefresh body)) fetched d in
           (Ingested (length fetched) ins (length skp), d')).
Proof.
  unfold POST.
  destruct user as [u|]; [|left; split; [discriminate|reflexivity]].
  destruct (socialAccountId body) as [account|]; [|left; split; [discriminate|reflexivity]].
  destruct (String.eqb _ _); [left; split; [discriminate|reflexivity]|].
  destruct (single _) as [socialAccount|] eqn:Ea;
    [|left; split; [discriminate|reflexivity]].
  destruct (negb _); [left; split; [discriminate|reflexivity]|].
  destruct (match token_expires_at socialAccount with Some _ => _ | None => _ end);
    [left; split; [discriminate|reflexivity]|].
  destruct (source_of sources (platform_of body)) as [fetchMentions|] eqn:Es;
    [|left; split; [discriminate|reflexivity]].
  destruct (fetchMentions _ _ now) as [e|fetched] eqn:Ef;
    [left; split; [discriminate|reflexivity]|].
  right. exists u, account, socialAccount, fetchMentions, fetched. repeat split; auto.
Qed.

(** Ingestion only appends.  Whatever the request and whatever the
    adapter fetches, the store after the call is the store before it with
    rows appended to [mentions] (and their identifiers drawn): no stored
    mention is changed or removed, and no other table is written, the
    daily analytics included.  The appended rows carry no score, label or
    reasoning.  A reply other than the success reply appends nothing. *)
Theorem ingestion_only_appends (sources : Sources) (user : option uuid)
    (body : IngestRequest) (now : timestamp) (d : Database) :
  ∃ new,
    (POST sources user body now d).2 = appended new d
    ∧ mentions (POST sources user body now d).2 = mentions d ++ new
    ∧ sentiment_analytics (POST sources user body now d).2 = sentiment_analytics d
    ∧ Forall (λ m, sentiment_score m = None ∧ sentiment_label_of m = None
                   ∧ sentiment_reasoning m = None) new
    ∧ ((∀ f i s, (POST sources user body now d).1 ≠ Ingested f i s) → new = []).
Proof.
  destruct (ingestion_cases sources user body now d)
    as [[Hr Hd]|(u & account & sa & src & fetched & _ & _ & _ & _ & _ & E)].
  - exists []. rewrite Hd, appended_nil, app_nil_r. repeat split. constructor.
  - rewrite E.
    destruct (ingest_loop_spec u account (platform_of body)
                (default false (forceRefresh body)) fetched d)
      as (new & skp & El & Hn & _).
    rewrite El. exists new. cbn [fst snd]. repeat split.
    + eapply Forall_impl; [exact Hn|]. intros m (_ & _ & _ & H). exact H.
    + intros H. exfalso. eapply H. reflexivity.
Qed.


Definition force_instagram : IngestRequest :=
  {| socialAccountId := Some 5; platform_of := "instagram"; forceRefresh := Some true |}.

(** A forced refresh of the comment and the post the store refuses, on
    the store that already holds the comment. *)
Definition comment_stored : Database :=
  (POST fixed_sources (Some 1) ingest_instagram 90000000 connected).2.


Example forced_refresh_run :
  let '(r, d') := POST fixed_sources (Some 1) force_instagram 90060000 comment_stored in
  (∃ row, r = Ingested 2 [row] 0)
  ∧ Db.content <$> mentions d' = ["Lovely work"; "Lovely work"].
Proof. vm_compute. split; [eexists|]; reflexivity. Qed.





(** What ingestion inserts is what the analysis batch then finds.  After
    a successful ingestion the tenant's unanalyzed mentions are those
    there were, followed by the inserted rows; a batch at least as large
    as their number selects every inserted row. *)
Theorem ingested_rows_await_analysis (sources : Sources) (user : uuid)
    (body : IngestRequest) (now : timestamp) (d d' : Database)
    (fetched : nat) (inserted : list Mention) (skipped : nat) :
  POST sources (Some user) body now d = (Ingested fetched inserted skipped, d') →
  let pending := λ x, filter (λ m, user_id m = user ∧ sentiment_score m = None)
                             (mentions x) in
  pending d' = pending d ++ inserted
  ∧ ∀ n row, (length (pending d') <= n)%nat → row ∈ inserted →
             row ∈ Analyze.select_unanalyzed user n d'.
Proof.
  intros H pending.
  assert (E : pending d' = pending d ++ inserted).
  { destruct (ingestion_cases sources (Some user) body now d)
      as [[Hr _]|(u & account & sa & src & ms & [= <-] & Ha & _ & _ & _ & E)].
    - exfalso. eapply Hr. rewrite H. reflexivity.
    - rewrite E in H.
      destruct (ingest_loop_spec user account (platform_of body)
                  (default false (forceRefresh body)) ms d)
        as (new & skp & El & Hn & _).
      rewrite El in H. injection H as <- <- <- <-.
      unfold pending. cbn [appended mentions with_next_uuid with_mentions].
      rewrite filter_app. f_equal.
      clear El. induction Hn as [|m new Hm Hn IH]; [reflexivity|].
      rewrite filter_cons_True, IH; [reflexivity|].
      destruct Hm as (Hu & _ & _ & Hs & _). split; assumption. }
  split; [exact E|].
  intros n row Hn Hrow. unfold Analyze.select_unanalyzed.
  fold (pending d'). rewrite take_ge by exact Hn. rewrite E.
  apply elem_of_app. right. exact Hrow.
Qed.

Lemma ingested_rows_await_analysis_witness :
  ∃ inserted d',
    POST mock_sources (Some 1) ingest_instagram 90000000 connected
    = (Ingested 3 inserted 0, d')
    ∧ let pending := λ x, filter (λ m, user_id m = 1%nat ∧ sentiment_score m = None)
                                 (mentions x) in
      pending d' = pending connected ++ inserted
      ∧ ∀ n row, (length (pending d') <= n)%nat → row ∈ inserted →
                 row ∈ Analyze.select_unanalyzed 1 n d'.
Proof.
  eexists _, _. split; [vm_compute; reflexivity|].
  eapply (ingested_rows_await_analysis mock_sources 1 ingest_instagram 90000000 connected).
  vm_compute. reflexivity.
Defined.

(** The expiry of the access token.  For an active account of the caller
    whose token has an expiry time, the request is refused with "Access
    token has expired" exactly when that time is before the clock, and
    the store is then left as it was; at the very instant of expiry, and
    before it, the request goes on to the adapter. *)
Theorem expired_token_is_refused (sources : Sources) (user account : uuid)
    (body : IngestRequest) (now expiresAt : timestamp) (socialAccount : SocialAccount)
    (d : Database) :
  socialAccountId body = Some account →
  platform_of body ≠ EmptyString →
  single (filter (λ a, account_row_id a = account ∧ account_user_id a = user)
                 (social_accounts d)) = Some socialAccount →
  is_active socialAccount = true →
  token_expires_at socialAccount = Some expiresAt →
  ((expiresAt < now)%Z → POST sources (Some user) body now d = (TokenExpired, d))
  ∧ ((now <= expiresAt)%Z →
     (POST sources (Some user) body now d).1 ≠ TokenExpired
     ∧ ∀ fetchMentions fetched,
         source_of sources (platform_of body) = Some fetchMentions →
         fetchMentions (access_token socialAccount) (account_id socialAccount) now
         = inr fetched →
         ∃ inserted skipped,
           (POST sources (Some user) body now d).1
           = Ingested (length fetched) inserted skipped).
Proof.
  intros Hacc Hplat Hsingle Hactive Hexp.
  apply String.eqb_neq in Hplat.
  unfold POST. rewrite Hacc, Hplat, Hsingle, Hactive, Hexp. cbn [negb]. split.
  - intros Hlt. apply Z.ltb_lt in Hlt. rewrite Hlt. reflexivity.
  - intros Hle. apply Z.ltb_ge in Hle. rewrite Hle. split.
    + destruct (source_of sources (platform_of body)) as [src|]; [|discriminate].
      destruct (src _ _ now); [discriminate|].
      destruct (ingest_loop _ _ _ _ _ _) as [[ins skp] d']. discriminate.
    + intros src fetched -> ->.
      destruct (ingest_loop _ _ _ _ _ _) as [[ins skp] d']. eauto.
Qed.

(** The Instagram account of tenant 1 with a token that expires at
    instant 90000000. *)
Definition expiring : Database :=
  {| businesses := [];
     social_accounts :=
       [ {| account_row_id := 5; account_user_id := 1; account_business_id := 2;
            account_platform := "instagram"; account_id := "acct";
            access_token := "token"; is_active := true;
            token_expires_at := Some 90000000%Z |} ];
     mentions := []; sentiment_analytics := ∅; generated_posts := [];
     scheduled_posts := []; api_usage := []; next_uuid := 100 |}.

Lemma expired_token_is_refused_witness :
  ((90000000 < 90000000)%Z →
   POST mock_sources (Some 1) ingest_instagram 90000000 expiring = (TokenExpired, expiring))
  ∧ ((90000000 <= 90000000)%Z →
     (POST mock_sources (Some 1) ingest_instagram 90000000 expiring).1 ≠ TokenExpired
     ∧ ∀ fetchMentions fetched,
         source_of mock_sources (platform_of ingest_instagram) = Some fetchMentions →
         fetchMentions "token" "acct" 90000000%Z = inr fetched →
         ∃ inserted skipped,
           (POST mock_sources (Some 1) ingest_instagram 90000000 expiring).1
           = Ingested (length fetched) inserted skipped).
Proof.
  apply (expired_token_is_refused mock_sources 1 5 ingest_instagram 90000000 90000000
           {| account_row_id := 5; account_user_id := 1; account_business_id := 2;
              account_platform := "instagram"; account_id := "acct";
              access_token := "token"; is_active := true;
              token_expires_at := Some 90000000%Z |} expiring).
  - reflexivity.
  - discriminate.
  - reflexivity.
  - reflexivity.
  - reflexivity.
Defined.

Example token_expiry_run :
  (POST mock_sources (Some 1) ingest_instagram 90000001 expiring).1 = TokenExpired
  ∧ ∃ rows, (POST mock_sources (Some 1) ingest_instagram 90000000 expiring).1
            = Ingested 3 rows 0.
Proof. vm_compute. split; [reflexivity|eexists; reflexivity]. Qed.

End IngestionWrites.

Section GenerationReplies.
Import JS Json Db Anthropic Generate.

(** ** What a generation request can and cannot do *)

Section GenerateReplies.

Variable anthropic : Oracle.
Variable setDate1 : timestamp → timestamp.
Variable accepts : list Db.GeneratedPost → bool.
Variable upsert : uuid → Z → timestamp → list ApiUsage → list ApiUsage.

Local Abbreviation POST := (POST anthropic setDate1 accepts upsert).
Local Abbreviation currentUsage_of := (currentUsage_of setDate1).

(** The handler, read branch by branch: the replies that come before the
    call of the model leave the world as it is; the failures after it
    leave the database as it is and one more call in the log; the success
    reply is that of a subscribed business within its limit. *)
Lemma generation_cases user body now w :
  let '(r, w') := POST user body now w in
  match r with
  | Generated posts savedPosts current limit remaining =>
      ∃ u business info,
        user = Some u
        ∧ single (filter (λ b, business_user_id b = u) (businesses (db w)))
          = Some business
        ∧ subscribed business = true
        ∧ industryInfo_of (industry body) (customIndustry body)
                          (default "professional" (tone_of body)) = Some info
        ∧ limit = tierLimits (subscription_tier_of business)
        ∧ current = (currentUsage_of (business_id business) now (db w)
                     + default 7 (postCount body))%Z
        ∧ (current <= limit)%Z
        ∧ remaining = (limit - current)%Z
        ∧ calls w' = calls w
                     ++ [prompt_of (default 7%Z (postCount body))
                                   (default "instagram" (platform_of body))
                                   (default "professional" (tone_of body)) info
                                   (default true (includeHashtags body))
                                   (default true (includeCTA body))]
  | ServerError _ =>
      db w' = db w ∧ (calls w' = calls w ∨ ∃ prompt, calls w' = calls w ++ [prompt])
  | _ => w' = w
  end.
Proof.
  unfold Generate.POST.
  destruct user as [u|]; [|reflexivity].
  destruct (single _) as [business|] eqn:Eb; [|reflexivity].
  destruct (subscribed business) eqn:Es; [|reflexivity]. cbn [negb].
  destruct (_ <? _)%Z eqn:Eq; [reflexivity|]. apply Z.ltb_ge in Eq.
  destruct (industryInfo_of _ _ _) as [info|] eqn:Ei; [|split; [reflexivity|by left]].
  unfold call.
  destruct (anthropic _ _) as [msg|st b|content];
    [split; [reflexivity|right; eexists; reflexivity]..|].
  destruct (JSON_parse _) as [response|];
    [|split; [reflexivity|right; eexists; reflexivity]].
  destruct (generatedPosts_of now response) as [posts|];
    [|split; [reflexivity|right; eexists; reflexivity]].
  cbn [db].
  destruct (accepts _); exists u, business, info; repeat split; auto.
Qed.

End GenerateReplies.

(** A success reply is within the limit.  When the route answers with the
    generated posts, the caller has a business whose subscription is
    active or trialing; the [current] usage it reports is the usage read
    plus the count asked and does not exceed the tier's [limit]; the
    [remaining] it reports is the difference and is never negative; and
    the model was called exactly once for it. *)
Theorem generation_success_is_within_limit (anthropic : Oracle)
    (setDate1 : timestamp → timestamp) (accepts : list Db.GeneratedPost → bool)
    (upsert : uuid → Z → timestamp → list ApiUsage → list ApiUsage)
    (user : option uuid) (body : GenerateRequest) (now : timestamp) (w w' : World)
    (posts : list GeneratedPost) (savedPosts : option (list Db.GeneratedPost))
    (current limit remaining : Z) :
  POST anthropic setDate1 accepts upsert user body now w
  = (Generated posts savedPosts current limit remaining, w') →
  ∃ u business,
    user = Some u
    ∧ single (filter (λ b, business_user_id b = u) (businesses (db w))) = Some business
    ∧ subscribed business = true
    ∧ limit = tierLimits (subscription_tier_of business)
    ∧ current = (currentUsage_of setDate1 (business_id business) now (db w)
                 + default 7 (postCount body))%Z
    ∧ (current <= limit)%Z
    ∧ (0 <= remaining)%Z ∧ (current + remaining = limit)%Z
    ∧ length (calls w') = S (length (calls w)).
Proof.
  intros H.
  pose proof (generation_cases anthropic setDate1 accepts upsert user body now w) as C.
  rewrite H in C.
  destruct C as (u & business & info & Hu & Hb & Hs & _ & Hl & Hc & Hle & Hr & Hcalls).
  exists u, business. repeat split; try assumption; try lia.
  rewrite Hcalls, length_app. simpl. lia.
Qed.

Lemma generation_success_is_within_limit_witness :
  ∃ posts savedPosts w',
    POST (always two_posts) first_of_the_month accept_all upsert_by_business
         (Some 1) (beauty (Some 5%Z)) mid_march (with_usage 45)
    = (Generated posts savedPosts 50 50 0, w')
    ∧ ∃ u business,
        Some 1%nat = Some u
        ∧ single (filter (λ b, business_user_id b = u)
                         (businesses (db (with_usage 45)))) = Some business
        ∧ subscribed business = true
        ∧ 50%Z = tierLimits (subscription_tier_of business)
        ∧ 50%Z = (currentUsage_of first_of_the_month (business_id business) mid_march
                                   (db (with_usage 45))
                  + default 7 (postCount (beauty (Some 5%Z))))%Z
        ∧ (50 <= 50)%Z
        ∧ (0 <= 0)%Z ∧ (50 + 0 = 50)%Z
        ∧ length (calls w') = S (length (calls (with_usage 45))).
Proof.
  eexists _, _, _. split; [lazy; reflexivity|].
  eapply (generation_success_is_within_limit (always two_posts) first_of_the_month accept_all
            upsert_by_business (Some 1) (beauty (Some 5%Z)) mid_march (with_usage 45)).
  lazy. reflexivity.
Defined.

(** A request that does not succeed writes nothing.  The replies 401,
    404, 403 and 429 leave the world exactly as it was, the log of calls
    to the model included.  A 500 leaves the database as it was (no
    draft is stored and the usage is not counted) and at most one call
    in the log: a call that was made and whose reply could not be used
    is not counted against the quota. *)
Theorem failed_generation_writes_nothing (anthropic : Oracle)
    (setDate1 : timestamp → timestamp) (accepts : list Db.GeneratedPost → bool)
    (upsert : uuid → Z → timestamp → list ApiUsage → list ApiUsage)
    (user : option uuid) (body : GenerateRequest) (now : timestamp) (w : World) :
  let reply := POST anthropic setDate1 accepts upsert user body now w in
  match reply.1 with
  | Generated _ _ _ _ _ => True
  | ServerError _ =>
      db reply.2 = db w
      ∧ (calls reply.2 = calls w ∨ ∃ prompt, calls reply.2 = calls w ++ [prompt])
  | _ => reply.2 = w
  end.
Proof.
  intros reply. subst reply.
  pose proof (generation_cases anthropic setDate1 accepts upsert user body now w) as C.
  destruct (POST anthropic setDate1 accepts upsert user body now w) as [r w'].
  cbn [fst snd]. destruct r; try exact C. exact I.
Qed.

(** The model answers with prose: the request fails after the call. *)
Example unusable_reply_run :
  let '(r, w') := POST (always "Sure! Here are your posts.") first_of_the_month accept_all
                       upsert_by_business (Some 1) (beauty None) mid_march (with_usage 40) in
  r = ServerError SYNTAX_ERROR ∧ db w' = db (with_usage 40)
  ∧ length (calls w') = 1%nat.
Proof. vm_compute. repeat split. Qed.

(** The count asked is not validated.  For a subscribed business whose
    usage is within its limit, a request asking for no post, or for a
    negative number of posts, is never refused for quota; and when it
    succeeds the usage it reports and writes is the usage read plus that
    count, so no more than before: a negative count lowers the counter. *)
Theorem count_is_not_validated (anthropic : Oracle)
    (setDate1 : timestamp → timestamp) (accepts : list Db.GeneratedPost → bool)
    (upsert : uuid → Z → timestamp → list ApiUsage → list ApiUsage)
    (user : uuid) (body : GenerateRequest) (now : timestamp) (w : World)
    (business : Business) (n : Z) :
  single (filter (λ b, business_user_id b = user) (businesses (db w))) = Some business →
  subscribed business = true →
  postCount body = Some n → (n <= 0)%Z →
  let usage := currentUsage_of setDate1 (business_id business) now (db w) in
  (usage <= tierLimits (subscription_tier_of business))%Z →
  let reply := POST anthropic setDate1 accepts upsert (Some user) body now w in
  (∀ u l t, reply.1 ≠ QuotaExceeded u l t)
  ∧ ∀ posts savedPosts current limit remaining,
      reply.1 = Generated posts savedPosts current limit remaining →
      current = (usage + n)%Z ∧ (current <= usage)%Z
      ∧ api_usage (db reply.2)
        = upsert (business_id business) (usage + n)%Z now (api_usage (db w)).
Proof.
  intros Hb Hs Hn Hneg usage Hle reply. subst reply. split.
  - apply (within_quota_passes anthropic setDate1 accepts upsert user body now w
             business Hb Hs).
    rewrite Hn. simpl. fold usage. lia.
  - unfold Generate.POST. rewrite Hb, Hs, Hn. cbn [negb default]. fold usage.
    destruct (_ <? _)%Z; [discriminate|].
    destruct (industryInfo_of _ _ _) as [info|]; [|discriminate].
    unfold call. destruct (anthropic _ _) as [msg|st b|content]; try discriminate.
    destruct (JSON_parse _) as [response|]; [|discriminate].
    destruct (generatedPosts_of now response) as [posts|]; [|discriminate].
    cbn [db].
    intros ps sv c l r.
    destruct (accepts _); cbn [fst snd]; intros [= <- <- <- <- <-];
      (split; [reflexivity|split; [lia|reflexivity]]).
Qed.

Lemma count_is_not_validated_witness :
  let w := with_usage 40 in
  let body := beauty (Some (-30)%Z) in
  let usage := currentUsage_of first_of_the_month (business_id starter_business) mid_march (db w) in
  let reply := POST (always two_posts) first_of_the_month accept_all upsert_by_business
                    (Some 1) body mid_march w in
  (∀ u l t, reply.1 ≠ QuotaExceeded u l t)
  ∧ ∀ posts savedPosts current limit remaining,
      reply.1 = Generated posts savedPosts current limit remaining →
      current = (usage + -30)%Z ∧ (current <= usage)%Z
      ∧ api_usage (db reply.2)
        = upsert_by_business (business_id starter_business) (usage + -30)%Z mid_march
                             (api_usage (db w)).
Proof.
  apply (count_is_not_validated (always two_posts) first_of_the_month accept_all
           upsert_by_business 1 (beauty (Some (-30)%Z)) mid_march (with_usage 40)
           starter_business (-30)%Z).
  - reflexivity.
  - reflexivity.
  - reflexivity.
  - lia.
  - vm_compute. discriminate.
Defined.

(** Thirty posts are "given back": the usage goes from 40 to 10. *)
Example negative_count_run :
  let '(r, w') := POST (always two_posts) first_of_the_month accept_all upsert_by_business
                       (Some 1) (beauty (Some (-30)%Z)) mid_march (with_usage 40) in
  (∃ posts saved, r = Generated posts saved 10 50 40)
  ∧ posts_generated <$> api_usage (db w') = [10%Z].
Proof. vm_compute. split; [eexists _, _|]; reflexivity. Qed.

(** The usage is read with [.single()].  Where the month holds two or
    more usage rows of the business, the read finds no single row and the
    usage counts as zero: whatever those rows say, a request for no more
    posts than the tier's limit is not refused for quota, and a success
    reports the count asked as the current usage. *)
Theorem several_usage_rows_read_as_zero (anthropic : Oracle)
    (setDate1 : timestamp → timestamp) (accepts : list Db.GeneratedPost → bool)
    (upsert : uuid → Z → timestamp → list ApiUsage → list ApiUsage)
    (user : uuid) (body : GenerateRequest) (now : timestamp) (w : World)
    (business : Business) :
  single (filter (λ b, business_user_id b = user) (businesses (db w))) = Some business →
  subscribed business = true →
  (2 <= length (filter (λ u, usage_business_id u = business_id business
                             ∧ (setDate1 now <= usage_created_at u)%Z)
                       (api_usage (db w))))%nat →
  (default 7 (postCount body) <= tierLimits (subscription_tier_of business))%Z →
  let reply := POST anthropic setDate1 accepts upsert (Some user) body now w in
  currentUsage_of setDate1 (business_id business) now (db w) = 0%Z
  ∧ (∀ u l t, reply.1 ≠ QuotaExceeded u l t)
  ∧ ∀ posts savedPosts current limit remaining,
      reply.1 = Generated posts savedPosts current limit remaining →
      current = default 7%Z (postCount body).
Proof.
  intros Hb Hs Hrows Hle reply. subst reply.
  assert (H0 : currentUsage_of setDate1 (business_id business) now (db w) = 0%Z).
  { unfold currentUsage_of.
    destruct (filter _ (api_usage (db w))) as [|x [|y rest]]; simpl in *; lia. }
  split; [exact H0|]. split.
  - apply (within_quota_passes anthropic setDate1 accepts upsert user body now w
             business Hb Hs).
    rewrite H0. lia.
  - intros posts savedPosts current limit remaining H.
    pose proof (generation_cases anthropic setDate1 accepts upsert (Some user) body now w) as C.
    destruct (POST anthropic setDate1 accepts upsert (Some user) body now w) as [r w'].
    cbn [fst] in H. subst r.
    destruct C as (u & b & info & [= <-] & Hb' & _ & _ & _ & Hc & _).
    rewrite Hb in Hb'. injection Hb' as <-. rewrite H0 in Hc. lia.
Qed.

(** The business of user 1 with two usage rows of 45 posts each. *)
Definition counted_twice : World :=
  quiet {| businesses := [starter_business]; social_accounts := []; mentions := [];
           sentiment_analytics := ∅; generated_posts := []; scheduled_posts := [];
           api_usage := [ {| usage_id := 7; usage_business_id := 2;
                             posts_generated := 45; usage_created_at := tenth_of_march;
                             usage_updated_at := tenth_of_march |};
                          {| usage_id := 8; usage_business_id := 2;
                             posts_generated := 45; usage_created_at := mid_march - DAY_MS;
                             usage_updated_at := mid_march - DAY_MS |} ];
           next_uuid := 100 |}.

Lemma several_usage_rows_read_as_zero_witness :
  let w := counted_twice in
  let body := beauty (Some 50%Z) in
  let reply := POST (always two_posts) first_of_the_month accept_all upsert_by_business
                    (Some 1) body mid_march w in
  currentUsage_of first_of_the_month (business_id starter_business) mid_march (db w) = 0%Z
  ∧ (∀ u l t, reply.1 ≠ QuotaExceeded u l t)
  ∧ ∀ posts savedPosts current limit remaining,
      reply.1 = Generated posts savedPosts current limit remaining →
      current = default 7%Z (postCount body).
Proof.
  apply (several_usage_rows_read_as_zero (always two_posts) first_of_the_month accept_all
           upsert_by_business 1 (beauty (Some 50%Z)) mid_march counted_twice
           starter_business).
  - reflexivity.
  - reflexivity.
  - vm_compute. lia.
  - vm_compute. discriminate.
Defined.

Example counted_twice_run :
  let '(r, w') := POST (always two_posts) first_of_the_month accept_all upsert_by_business
                       (Some 1) (beauty (Some 50%Z)) mid_march counted_twice in
  ∃ posts saved, r = Generated posts saved 50 50 0.
Proof. vm_compute. eexists _, _. reflexivity. Qed.

End GenerationReplies.

Section ScheduleCallProperties.
Import JS Json Db Anthropic Schedule.

(** ** Creating, changing and cancelling scheduled posts *)

Section ScheduleCalls.

Implicit Types (d : Database) (p : ScheduledPost).

(** The caller's business, as every handler of the route looks it up. *)
Definition business_of (user : uuid) d : option Business :=
  single (filter (λ b, business_user_id b = user) (businesses d)).

(** [id] is the primary key of [scheduled_posts]. *)
Definition keyed d : Prop := NoDup (scheduled_id <$> scheduled_posts d).

Lemma filter_by_key (ps : list ScheduledPost) p :
  NoDup (scheduled_id <$> ps) → p ∈ ps →
  filter (λ q, scheduled_id q = scheduled_id p) ps = [p].
Proof.
  induction ps as [|x ps IH]; intros Hnd Hin; [by apply elem_of_nil in Hin|].
  rewrite fmap_cons in Hnd. apply NoDup_cons in Hnd as [Hx Hnd].
  apply elem_of_cons in Hin as [->|Hin].
  - rewrite filter_cons_True by reflexivity. f_equal.
    clear IH Hnd. induction ps as [|y ps IH]; [reflexivity|].
    rewrite fmap_cons in Hx. apply not_elem_of_cons in Hx as [Hxy Hx].
    rewrite filter_cons_False by congruence. apply IH, Hx.
  - rewrite filter_cons_False; [apply IH; assumption|].
    intros E. apply Hx. rewrite E. apply list_elem_of_fmap. eauto.
Qed.


(** *** Cancelling *)

Lemma cancel_cancel p : cancel (cancel p) = cancel p.
Proof. reflexivity. Qed.

Lemma DELETE_businesses user id d : businesses (DELETE user id d).2 = businesses d.
Proof.
  unfold DELETE. destruct user; [|reflexivity]. destruct id; [|reflexivity].
  destruct (single _); reflexivity.
Qed.

Lemma with_scheduled_posts_same d : with_scheduled_posts (scheduled_posts d) d = d.
Proof. destruct d. reflexivity. Qed.



(** *** Creating *)



End ScheduleCalls.

(** Cancelling is idempotent.  A DELETE repeated on the store its first
    run left gives the same reply and the same store: the second run
    changes nothing. *)
Theorem cancel_is_idempotent (user id : option uuid) (d : Database) :
  DELETE user id (DELETE user id d).2 = DELETE user id d.
Proof.
  unfold DELETE. destruct user as [user|]; [|reflexivity].
  destruct id as [post|]; [|reflexivity].
  destruct (single (filter _ (businesses d))) as [business|] eqn:E;
    cbn [snd businesses with_scheduled_posts scheduled_posts]; rewrite E;
    [|reflexivity].
  f_equal. unfold with_scheduled_posts. simpl. f_equal.
  rewrite <- list_fmap_compose. apply list_fmap_ext. intros i p _. simpl.
  destruct (decide (scheduled_id p = post ∧ scheduled_business_id p = business_id business))
    as [H|H].
  - rewrite decide_True by exact H. reflexivity.
  - rewrite decide_False by exact H. reflexivity.
Qed.

Example cancel_twice_run :
  let d1 := (DELETE (Some 1) (Some 201) (booked 3)).2 in
  status <$> scheduled_posts d1 = [scheduled; cancelled; scheduled]
  ∧ DELETE (Some 1) (Some 201) d1 = (Cancelled, d1).
Proof. vm_compute. split; reflexivity. Qed.

(** A DELETE that matches nothing still answers success.  For a caller
    with a business, when no scheduled post of that business has the
    identifier given (there is none, or it is another business's), the
    reply is the success reply and the store is left as it was: the post
    of the other business is not cancelled, and the caller is not told. *)
Theorem cancel_without_match_succeeds (user post : uuid) (d : Database)
    (business : Business) :
  single (filter (λ b, business_user_id b = user) (businesses d)) = Some business →
  (∀ p, p ∈ scheduled_posts d → scheduled_id p = post →
        scheduled_business_id p ≠ business_id business) →
  DELETE (Some user) (Some post) d = (Cancelled, d).
Proof.
  intros Hb Hnone. unfold DELETE. rewrite Hb. f_equal.
  assert (E : (λ p, if decide (scheduled_id p = post
                               ∧ scheduled_business_id p = business_id business)
                    then cancel p else p) <$> scheduled_posts d
              = scheduled_posts d).
  { rewrite <- (list_fmap_id (scheduled_posts d)) at 2.
    apply list_fmap_ext. intros i p Hp. simpl.
    apply decide_False. intros [Hi Hbus].
    apply (Hnone p); [|exact Hi|exact Hbus]. eapply list_elem_of_lookup_2, Hp. }
  rewrite E. apply with_scheduled_posts_same.
Qed.

(** User 1 (business 2) tries to cancel post 300, which is business 9's. *)
Definition others_post : ScheduledPost :=
  {| scheduled_id := 300; scheduled_business_id := 9; scheduled_account_id := 6;
     scheduled_platform := "facebook"; scheduled_content := Some (JString "theirs");
     scheduled_hashtags := JArray []; image_url := None; scheduled_time := 700000;
     status := scheduled; created_at := 1000 |}.

Definition shared_store : Database :=
  with_scheduled_posts (scheduled_posts (booked 2) ++ [others_post]) (booked 2).

Lemma cancel_without_match_succeeds_witness :
  DELETE (Some 1) (Some 300) shared_store = (Cancelled, shared_store).
Proof.
  apply (cancel_without_match_succeeds 1 300 shared_store starter_business).
  - reflexivity.
  - intros p Hp Hi.
    apply elem_of_cons in Hp as [->|Hp]; [discriminate Hi|].
    apply elem_of_cons in Hp as [->|Hp]; [discriminate Hi|].
    apply elem_of_cons in Hp as [->|Hp]; [discriminate|].
    by apply elem_of_nil in Hp.
Defined.



(** Scheduling a generated post.  When the request names a generated
    post and is accepted, the new row takes its content and its hashtags
    from that post (one of the caller's business, found by identifier),
    not from the request; and afterwards every generated post of that
    identifier is in status scheduled and points to the new row.  The
    status the generated post had is not looked at. *)
Theorem scheduling_from_a_draft (user g : uuid) (body : ScheduleRequest)
    (now : timestamp) (d d' : Database) (row : ScheduledPost) :
  postId body = Some g →
  POST (Some user) body now d = (Scheduled row, d') →
  ∃ business generatedPost,
    single (filter (λ b, business_user_id b = user) (businesses d)) = Some business
    ∧ single (filter (λ q, generated_id q = g
                           ∧ generated_business_id q = business_id business)
                     (generated_posts d)) = Some generatedPost
    ∧ scheduled_content row = generated_content generatedPost
    ∧ scheduled_hashtags row
      = or_else (Some (generated_hashtags generatedPost)) (JArray [])
    ∧ generated_posts d'
      = (λ q, if decide (generated_id q = g)
              then mark_scheduled (scheduled_id row) q else q) <$> generated_posts d
    ∧ ∀ q, q ∈ generated_posts d' → generated_id q = g →
           generated_status q = draft_scheduled
           ∧ scheduled_post_id q = Some (scheduled_id row).
Proof.
  intros Hg. unfold POST. rewrite Hg.
  destruct (match content body with Some EmptyString | None => false | _ => false end);
    [discriminate|].
  destruct (single (filter _ (businesses d))) as [business|]; [|discriminate].
  destruct (negb (subscribed business)); [discriminate|].
  destruct (single (filter _ (social_accounts d))) as [socialAccount|]; [|discriminate].
  destruct (match scheduledTime body with Some _ => _ | None => _ end); [discriminate|].
  destruct (single (filter _ (generated_posts d))) as [generatedPost|] eqn:Eg;
    [|discriminate].
  destruct (_ <=? _)%nat; [discriminate|].
  destruct (scheduledTime body) as [t|]; [|discriminate].
  intros [= <- <-]. exists business, generatedPost.
  split; [reflexivity|]. split; [exact Eg|]. split; [reflexivity|].
  split; [reflexivity|]. split; [reflexivity|].
  cbn [generated_posts with_generated_posts with_next_uuid with_scheduled_posts
       scheduled_id].
  intros q (q0 & -> & _)%list_elem_of_fmap Hq.
  destruct (decide (generated_id q0 = g)) as [E|E]; [split; reflexivity|].
  contradiction.
Qed.

(** Business 2 has drafted post 60, and has scheduled it once already. *)
Definition drafted : Database :=
  with_generated_posts
    [ {| generated_id := 60; generated_business_id := 2;
         generated_platform := "instagram";
         generated_content := Some (JString "Glow up");
         generated_hashtags := JArray [JString "#glow"]; generated_cta := None;
         image_prompt := None; best_time_to_post := JString "morning";
         estimated_engagement := JString "high";
         generated_status := draft_scheduled; scheduled_post_id := Some 200%nat;
         generated_at := 1000 |} ]
    (booked 1).

Definition schedule_draft : ScheduleRequest :=
  {| postId := Some 60; content := Some "ignored"; platform_of := "instagram";
     scheduledTime := Some 86400000%Z; hashtags := Some ["#ignored"];
     imageUrl := None |}.

Lemma scheduling_from_a_draft_witness :
  ∃ row d',
    POST (Some 1) schedule_draft 9000 drafted = (Scheduled row, d')
    ∧ ∃ business generatedPost,
        single (filter (λ b, business_user_id b = 1%nat) (businesses drafted))
        = Some business
        ∧ single (filter (λ q, generated_id q = 60%nat
                               ∧ generated_business_id q = business_id business)
                         (generated_posts drafted)) = Some generatedPost
        ∧ scheduled_content row = generated_content generatedPost
        ∧ scheduled_hashtags row
          = or_else (Some (generated_hashtags generatedPost)) (JArray [])
        ∧ generated_posts d'
          = (λ q, if decide (generated_id q = 60%nat)
                  then mark_scheduled (scheduled_id row) q else q)
              <$> generated_posts drafted
        ∧ ∀ q, q ∈ generated_posts d' → generated_id q = 60%nat →
               generated_status q = draft_scheduled
               ∧ scheduled_post_id q = Some (scheduled_id row).
Proof.
  eexists _, _. split; [vm_compute; reflexivity|].
  eapply (scheduling_from_a_draft 1 60 schedule_draft 9000 drafted).
  - reflexivity.
  - vm_compute. reflexivity.
Defined.

(** The draft that pointed to row 200 now points to the new row 1000, and
    both rows are scheduled. *)
Example scheduled_a_second_time_run :
  let d' := (POST (Some 1) schedule_draft 9000 drafted).2 in
  (scheduled_post_id <$> generated_posts d') = [Some 1000%nat]
  ∧ ((λ p, (scheduled_id p, scheduled_content p, status p)) <$> scheduled_posts d')
    = [(200%nat, Some (JString "hello"), scheduled);
       (1000%nat, Some (JString "Glow up"), scheduled)].
Proof. vm_compute. split; reflexivity. Qed.


(** The published post of [one_published] is moved to instant 5, long
    past. *)
Definition move_to (t : timestamp) : UpdateRequest :=
  {| new_scheduledTime := Some (Some t); new_content := None; new_hashtags := None;
     new_imageUrl := None |}.


Example patch_into_the_past_run :
  (PATCH (Some 1) (Some 200) (move_to 5) one_published).1
  = Updated {| scheduled_id := 200; scheduled_business_id := 2; scheduled_account_id := 5;
               scheduled_platform := "instagram";
               scheduled_content := Some (JString "hello");
               scheduled_hashtags := JArray []; image_url := None; scheduled_time := 5;
               status := published; created_at := 1000 |}.
Proof. vm_compute. reflexivity. Qed.

(** Who made the call. *)
Definition caller (c : Call) : option uuid :=
  match c with
  | Create user _ _ | Change user _ _ | Cancel user _ => user
  end.

(** The posts of other businesses.  Whatever call a user makes on the
    route (create, change or cancel, with whatever identifier), a
    scheduled post that is not of the user's business stays in the table
    exactly as it was. *)
Theorem other_businesses_posts_are_kept (c : Call) (d : Database) (p : ScheduledPost) :
  NoDup (scheduled_id <$> scheduled_posts d) →
  p ∈ scheduled_posts d →
  (∀ user business,
     caller c = Some user →
     single (filter (λ b, business_user_id b = user) (businesses d)) = Some business →
     scheduled_business_id p ≠ business_id business) →
  p ∈ scheduled_posts (handle c d).2.
Proof.
  intros Hk Hin Hother. destruct c as [user body now|user id body|user id]; cbn [handle].
  - apply list_elem_of_lookup in Hin as [i Hi].
    eapply list_elem_of_lookup_2, POST_keeps_rows, Hi.
  - unfold PATCH. destruct user as [user|]; [|exact Hin].
    destruct id as [post|]; [|exact Hin].
    destruct (single (filter _ (businesses d))) as [business|] eqn:Eb; [|exact Hin].
    specialize (Hother user business eq_refl Eb).
    destruct (single (filter _ (scheduled_posts d))) as [existing|] eqn:Ee; [|exact Hin].
    destruct (new_scheduledTime body) as [[t|]|].
    2: exact Hin.
    all: destruct (single (_ <$> _)); [|exact Hin];
      cbn [snd scheduled_posts with_scheduled_posts];
      apply list_elem_of_fmap; exists p; split; [|exact Hin];
      rewrite decide_False; [reflexivity|];
      intros Hp;
      assert (Hex : existing ∈ filter (λ q, scheduled_id q = post
                                           ∧ scheduled_business_id q = business_id business)
                                     (scheduled_posts d))
        by (destruct (filter _ (scheduled_posts d)) as [|x [|y l]];
            try discriminate; injection Ee as ->; apply list_elem_of_here);
      apply list_elem_of_filter in Hex as [[He1 He2] He3];
      pose proof (filter_by_key (scheduled_posts d) existing Hk He3) as Hf;
      assert (Hpf : p ∈ filter (λ x, scheduled_id x = scheduled_id existing)
                               (scheduled_posts d))
        by (apply list_elem_of_filter; split; [congruence|exact Hin]);
      rewrite Hf in Hpf; apply list_elem_of_singleton in Hpf; congruence.
  - unfold DELETE. destruct user as [user|]; [|exact Hin].
    destruct id as [post|]; [|exact Hin].
    destruct (single (filter _ (businesses d))) as [business|] eqn:Eb; [|exact Hin].
    specialize (Hother user business eq_refl Eb).
    cbn [snd scheduled_posts with_scheduled_posts].
    apply list_elem_of_fmap. exists p. split; [|exact Hin].
    rewrite decide_False; [reflexivity|]. intros [_ H]. contradiction.
Qed.

Lemma other_businesses_posts_are_kept_witness :
  others_post ∈ scheduled_posts (handle (Change (Some 1) (Some 300) (move_to 5))
                                        shared_store).2.
Proof.
  apply (other_businesses_posts_are_kept (Change (Some 1) (Some 300) (move_to 5))
           shared_store others_post).
  - apply (bool_decide_unpack _). vm_compute. exact I.
  - apply elem_of_cons. right. apply elem_of_cons. right. apply list_elem_of_here.
  - intros user business [= <-] [= <-]. discriminate.
Defined.

End ScheduleCallProperties.

Section HelperProperties.
Import JS Json Db Anthropic.

(** ** The helpers, the status and the feed *)

(** The subscription check of the helpers is the check of the routes.
    [hasActiveSubscription()] answers true exactly when the generation
    route lets the same caller past its first three replies (401, no
    business, subscription required); and, for a scheduling request that
    says what to post, exactly when the scheduling route does. *)
Theorem subscription_check_agrees_with_routes (anthropic : Oracle)
    (setDate1 : timestamp → timestamp) (accepts : list Db.GeneratedPost → bool)
    (upsert : uuid → Z → timestamp → list ApiUsage → list ApiUsage)
    (user : option uuid) (generate : Generate.GenerateRequest)
    (schedule : Schedule.ScheduleRequest) (now : timestamp) (w : World) :
  let ok := Supabase.hasActiveSubscription user None (db w) in
  let g := (Generate.POST anthropic setDate1 accepts upsert user generate now w).1 in
  let s := (Schedule.POST user schedule now (db w)).1 in
  (ok = true ↔ g ≠ Generate.Unauthorized ∧ g ≠ Generate.NoBusiness
               ∧ g ≠ Generate.SubscriptionRequired)
  ∧ (has_content schedule →
     (ok = true ↔ s ≠ Schedule.Unauthorized ∧ s ≠ Schedule.NoBusiness
                  ∧ s ≠ Schedule.SubscriptionRequired)).
Proof.
  intros ok g s. subst ok g s.
  unfold Supabase.hasActiveSubscription, Supabase.getCurrentBusiness. split.
  - unfold Generate.POST. destruct user as [user|]; [|split; [discriminate|tauto]].
    destruct (single _) as [business|]; [|split; [discriminate|tauto]].
    unfold Generate.subscribed.
    destruct (subscription_status_of business) as [[]|]; cbn [negb fst];
      try (split; [discriminate|tauto]).
    all: split; [intros _|reflexivity].
    all: destruct (_ <? _)%Z; [repeat split; discriminate|].
    all: destruct (Generate.industryInfo_of _ _ _); [|repeat split; discriminate].
    all: unfold call; destruct (anthropic _ _); try (repeat split; discriminate).
    all: destruct (JSON_parse _); [|repeat split; discriminate].
    all: destruct (Generate.generatedPosts_of _ _); [|repeat split; discriminate].
    all: destruct (accepts _); repeat split; discriminate.
  - intros Hc. unfold Schedule.POST. rewrite (has_content_test schedule Hc).
    destruct user as [user|]; [|split; [discriminate|tauto]].
    destruct (single (filter _ (businesses (db w)))) as [business|];
      [|split; [discriminate|tauto]].
    unfold Schedule.subscribed.
    destruct (subscription_status_of business) as [[]|]; cbn [negb fst];
      try (split; [discriminate|tauto]).
    all: split; [intros _|reflexivity].
    all: repeat first
           [ (repeat split; discriminate)
           | match goal with
             | |- context [match ?x with _ => _ end] => destruct x
             end ].
Qed.

Example trialing_is_active_run :
  Supabase.hasActiveSubscription (Some 1) None
    {| businesses := [ {| business_id := 2; business_user_id := 1;
                          subscription_status_of := Some trialing;
                          subscription_tier_of := Some starter |} ];
       social_accounts := []; mentions := []; sentiment_analytics := ∅;
       generated_posts := []; scheduled_posts := []; api_usage := [];
       next_uuid := 0 |} = true
  ∧ Supabase.hasActiveSubscription (Some 1) (Some professional) (booked 0) = false
  ∧ Supabase.hasActiveSubscription (Some 7) None (booked 0) = false.
Proof. vm_compute. repeat split. Qed.

(** Access to a business is its owner's.  The identifiers of businesses
    being unique, [enforceBusinessAccess] returns the identifier asked
    when, and only when, a business of that identifier belongs to the
    signed-in user; it throws "Unauthorized" when nobody is signed in and
    "Access denied to this business" otherwise, be the business another
    user's or not there at all. *)
Theorem business_access_is_the_owners (user : option uuid) (businessId : uuid)
    (d : Database) :
  NoDup (business_id <$> businesses d) →
  match Supabase.enforceBusinessAccess user businessId d with
  | inr granted =>
      granted = businessId
      ∧ ∃ u b, user = Some u ∧ b ∈ businesses d
               ∧ business_id b = businessId ∧ business_user_id b = u
  | inl e =>
      (user = None ∧ e = Error "Unauthorized")
      ∨ (e = Error "Access denied to this business"
         ∧ ∃ u, user = Some u
                ∧ ∀ b, b ∈ businesses d → business_id b = businessId →
                       business_user_id b ≠ u)
  end.
Proof.
  intros Hk. unfold Supabase.enforceBusinessAccess.
  destruct user as [u|]; [|left; split; reflexivity].
  destruct (single _) as [business|] eqn:Es.
  - assert (Hin : business ∈ filter (λ b, business_id b = businessId
                                         ∧ business_user_id b = u) (businesses d)).
    { destruct (filter _ (businesses d)) as [|x [|y l]]; try discriminate.
      injection Es as ->. apply list_elem_of_here. }
    apply list_elem_of_filter in Hin as [[Hi Hu] Hin].
    split; [exact Hi|]. exists u, business. auto.
  - right. split; [reflexivity|]. exists u. split; [reflexivity|].
    intros b Hb Hi Hu.
    assert (E : filter (λ x, business_id x = businessId ∧ business_user_id x = u)
                       (businesses d) = [b]).
    { clear Es. induction (businesses d) as [|x l IH]; [by apply elem_of_nil in Hb|].
      rewrite fmap_cons in Hk. apply NoDup_cons in Hk as [Hx Hk].
      apply elem_of_cons in Hb as [<-|Hb].
      - rewrite filter_cons_True by (split; assumption). f_equal.
        apply filter_none. intros y Hy [Hyi _]. apply Hx. rewrite Hi, <- Hyi.
        apply list_elem_of_fmap. eauto.
      - rewrite filter_cons_False; [apply IH; assumption|].
        intros [Hxi _]. apply Hx. rewrite Hxi, <- Hi. apply list_elem_of_fmap. eauto. }
    rewrite E in Es. discriminate.
Qed.

Lemma business_access_is_the_owners_witness :
  match Supabase.enforceBusinessAccess (Some 7) 2 (booked 0) with
  | inr granted =>
      granted = 2%nat
      ∧ ∃ u b, Some 7%nat = Some u ∧ b ∈ businesses (booked 0)
               ∧ business_id b = 2%nat ∧ business_user_id b = u
  | inl e =>
      (Some 7%nat = None ∧ e = Error "Unauthorized")
      ∨ (e = Error "Access denied to this business"
         ∧ ∃ u, Some 7%nat = Some u
                ∧ ∀ b, b ∈ businesses (booked 0) → business_id b = 2%nat →
                       business_user_id b ≠ u)
  end.
Proof.
  apply (business_access_is_the_owners (Some 7) 2 (booked 0)).
  apply (bool_decide_unpack _). vm_compute. exact I.
Defined.

Example business_access_run :
  Supabase.enforceBusinessAccess (Some 1) 2 (booked 0) = inr 2%nat
  ∧ Supabase.enforceBusinessAccess (Some 7) 2 (booked 0)
    = inl (Error "Access denied to this business")
  ∧ Supabase.enforceBusinessAccess None 2 (booked 0) = inl (Error "Unauthorized").
Proof. vm_compute. repeat split. Qed.

(** The status endpoint reports zeros.  It counts with HEAD requests and
    reads their [data], which such a reply does not carry: whoever asks
    and whatever is stored, the reply says total 0, analyzed 0, pending 0
    and 0 percent complete. *)
Theorem status_reports_zeros (user : uuid) (d : Database) :
  Status.GET (Some user) d
  = Status.Success {| Status.total := 0; Status.analyzed := 0; Status.pending := 0;
                      Status.percentageComplete := 0 |}.
Proof. reflexivity. Qed.

Example status_of_fifteen_run :
  Status.GET (Some 1) (db fifteen_unscored)
  = Status.Success {| Status.total := 0; Status.analyzed := 0; Status.pending := 0;
                      Status.percentageComplete := 0 |}
  ∧ Status.count (Status.head_count
                    (filter (λ m, user_id m = 1%nat) (mentions (db fifteen_unscored))))
    = Some 15%nat.
Proof. vm_compute. split; reflexivity. Qed.

(** *** The age of a mention *)

Section TimeAgo.
Import MentionFeed.

Local Open Scope Z_scope.

(** The label is the age cut down to whole units of the largest of
    second, minute, hour and day that fits, with a number below 60, 60
    and 24 for the first three.  A date ahead of the clock is shown as a
    negative number of seconds, however far ahead it is. *)
Theorem time_ago_shows_the_age (now date : timestamp) :
  let age := now - date in
  (0 <= age →
   ∃ n unit size,
     getTimeAgo now date = Generate.show_Z n +:+ (unit +:+ " ago")
     ∧ n * size <= age < (n + 1) * size
     ∧ ((unit = "s" ∧ size = 1000 ∧ 0 <= n < 60)
        ∨ (unit = "m" ∧ size = 60000 ∧ 1 <= n < 60)
        ∨ (unit = "h" ∧ size = 3600000 ∧ 1 <= n < 24)
        ∨ (unit = "d" ∧ size = 86400000 ∧ 1 <= n)))
  ∧ (age < 0 →
     ∃ n, getTimeAgo now date = Generate.show_Z n +:+ "s ago"
          ∧ n < 0 ∧ n * 1000 <= age < (n + 1) * 1000).
Proof.
  intros age. unfold getTimeAgo. fold age. split.
  - intros Hage.
    destruct (age / 1000 <? 60) eqn:E1; [apply Z.ltb_lt in E1|apply Z.ltb_ge in E1].
    { exists (age / 1000), "s"%string, 1000. split; [reflexivity|].
      split; [|left]; repeat split; try lia;
        Z.div_mod_to_equations; lia. }
    destruct (age / 1000 <? 3600) eqn:E2; [apply Z.ltb_lt in E2|apply Z.ltb_ge in E2].
    { exists (age / 1000 / 60), "m"%string, 60000. split; [reflexivity|].
      split; [|right; left]; repeat split; try lia;
        Z.div_mod_to_equations; lia. }
    destruct (age / 1000 <? 86400) eqn:E3; [apply Z.ltb_lt in E3|apply Z.ltb_ge in E3].
    { exists (age / 1000 / 3600), "h"%string, 3600000. split; [reflexivity|].
      split; [|right; right; left]; repeat split; try lia;
        Z.div_mod_to_equations; lia. }
    exists (age / 1000 / 86400), "d"%string, 86400000. split; [reflexivity|].
    split; [|right; right; right]; repeat split; try lia;
      Z.div_mod_to_equations; lia.
  - intros Hage.
    assert (H : age / 1000 < 0) by (Z.div_mod_to_equations; lia).
    assert (E : (age / 1000 <? 60) = true) by (apply Z.ltb_lt; lia).
    rewrite E. exists (age / 1000). split; [reflexivity|].
    split; [exact H|]. Z.div_mod_to_equations; lia.
Qed.

Example time_ago_run :
  getTimeAgo 10000000 (10000000 - 59999) = "59s ago"%string
  ∧ getTimeAgo 10000000 (10000000 - 60000) = "1m ago"%string
  ∧ getTimeAgo 10000000 (10000000 - 3599999) = "59m ago"%string
  ∧ getTimeAgo 100000000 (100000000 - 86399999) = "23h ago"%string
  ∧ getTimeAgo 1000000000 (1000000000 - 3 * 86400000) = "3d ago"%string
  ∧ getTimeAgo 10000000 (10000000 + 7200000) = "-7200s ago"%string.
Proof. vm_compute. repeat split. Qed.

End TimeAgo.

(** *** The tabs of the feed *)

Section Tabs.
Import MentionFeed.

(** The tabs of the feed divide the mentions.  For mentions in which a
    score and a label come together (as the analysis route writes them),
    the tab "all" shows every mention, each mention is shown under
    exactly one of the tabs positive, neutral, negative and unanalyzed,
    and the numbers on these four tabs add up to the number on "all". *)
Theorem feed_tabs_divide_the_mentions (mentions : list Mention) :
  Forall (λ m, sentiment_score m = None ↔ sentiment_label_of m = None) mentions →
  filteredMentions all mentions = mentions
  ∧ (label_count positive mentions + label_count neutral mentions
     + label_count negative mentions + unanalyzedCount mentions
     = length mentions)%nat
  ∧ ∀ m, m ∈ mentions →
      ∃ tab, In tab [by_label positive; by_label neutral; by_label negative; unanalyzed]
             ∧ shown tab m = true
             ∧ ∀ tab', In tab' [by_label positive; by_label neutral; by_label negative;
                                unanalyzed] →
                       shown tab' m = true → tab' = tab.
Proof.
  intros Hm. split; [|split].
  - unfold filteredMentions. clear Hm.
    induction mentions as [|m ms IH]; [reflexivity|]. simpl. by rewrite IH.
  - unfold label_count, unanalyzedCount.
    induction Hm as [|m ms H _ IH]; [reflexivity|]. simpl.
    destruct (sentiment_label_of m) as [[]|] eqn:El;
      destruct (sentiment_score m) as [s|] eqn:Es;
      repeat (case_bool_decide; try congruence); simpl; try lia.
    all: exfalso; destruct H as [Ha Hb];
      first [discriminate (Ha eq_refl)|discriminate (Hb eq_refl)].
  - intros m Hin. rewrite Forall_forall in Hm. specialize (Hm m Hin).
    destruct (sentiment_label_of m) as [l|] eqn:El.
    + exists (by_label l). split; [destruct l; simpl; tauto|].
      split; [simpl; rewrite El; apply bool_decide_eq_true; reflexivity|].
      intros tab' Hin' Ht. destruct tab' as [|l'|]; simpl in Ht.
      * simpl in Hin'. intuition discriminate.
      * rewrite El in Ht. apply bool_decide_eq_true in Ht. congruence.
      * apply bool_decide_eq_true in Ht. apply Hm in Ht. discriminate.
    + exists unanalyzed. split; [simpl; tauto|].
      split; [simpl; apply bool_decide_eq_true, Hm; reflexivity|].
      intros tab' Hin' Ht. destruct tab' as [|l'|]; simpl in Ht.
      * simpl in Hin'. intuition discriminate.
      * rewrite El in Ht. apply bool_decide_eq_true in Ht. discriminate.
      * reflexivity.
Qed.

Lemma feed_tabs_divide_the_mentions_witness :
  let mentions := [scored_once; unscored 11 1 2000 "fine"] in
  filteredMentions all mentions = mentions
  ∧ (label_count positive mentions + label_count neutral mentions
     + label_count negative mentions + unanalyzedCount mentions
     = length mentions)%nat
  ∧ ∀ m, m ∈ mentions →
      ∃ tab, In tab [by_label positive; by_label neutral; by_label negative; unanalyzed]
             ∧ shown tab m = true
             ∧ ∀ tab', In tab' [by_label positive; by_label neutral; by_label negative;
                                unanalyzed] →
                       shown tab' m = true → tab' = tab.
Proof.
  apply (feed_tabs_divide_the_mentions [scored_once; unscored 11 1 2000 "fine"]).
  repeat constructor; discriminate.
Defined.

End Tabs.

End HelperProperties.

Section StoreProperties.
Import JS Json Db Anthropic.

(** ** The store under every request *)

(** What the routes keep true of [mentions] and [sentiment_analytics]:
    identifiers are unique and were drawn from the supply; a mention
    that has a score has a label; and the row of a tenant and day
    is there exactly when the day has a scored mention of the tenant, and
    is then the aggregate over the scored mentions of that day. *)
Definition sound (d : Database) : Prop :=
  NoDup (mention_id <$> mentions d)
  ∧ Forall (λ m, (mention_id m < next_uuid d)%nat) (mentions d)
  ∧ labelled (mentions d)
  ∧ ∀ t day,
      sentiment_analytics d !! (t, day)
      = match scored_on t day (mentions d) with
        | [] => None
        | _ => Some (day_aggregate t day (mentions d))
        end.

Section Soundness.

Implicit Types (d : Database) (m : Mention).

(** A store without mentions and without daily rows is sound. *)
Lemma sound_start d : mentions d = [] → sentiment_analytics d = ∅ → sound d.
Proof.
  intros Hm Ha. unfold sound. rewrite Hm, Ha.
  split; [constructor|]. split; [constructor|]. split; [constructor|].
  intros t day. apply lookup_empty.
Qed.

(** Calls that write neither table and only draw identifiers. *)
Lemma sound_frame d d' :
  mentions d' = mentions d → sentiment_analytics d' = sentiment_analytics d →
  (next_uuid d <= next_uuid d')%nat → sound d → sound d'.
Proof.
  intros Hm Ha Hn (H1 & H2 & H3 & H4). unfold sound. rewrite Hm, Ha.
  repeat split; try assumption.
  eapply Forall_impl; [exact H2|]. intros m Hlt. simpl in *. lia.
Qed.

Lemma day_aggregate_scored t day (ms ms' : list Mention) :
  scored_on t day ms' = scored_on t day ms →
  day_aggregate t day ms' = day_aggregate t day ms.
Proof. intros E. unfold day_aggregate. rewrite E. reflexivity. Qed.

(** *** Insertions *)

Lemma scored_on_app_unscored t day (ms new : list Mention) :
  Forall (λ m, sentiment_score m = None) new →
  scored_on t day (ms ++ new) = scored_on t day ms.
Proof.
  intros Hn. unfold scored_on. rewrite filter_app.
  rewrite (filter_none _ new); [apply app_nil_r|].
  intros m Hm (_ & _ & [s Hs]). rewrite Forall_forall in Hn.
  rewrite (Hn m Hm) in Hs. discriminate.
Qed.

Lemma appended_sound new d :
  Forall (λ m, sentiment_score m = None ∧ sentiment_label_of m = None) new →
  mention_id <$> new = seq (next_uuid d) (length new) →
  sound d → sound (appended new d).
Proof.
  intros Hn Hids (H1 & H2 & H3 & H4). unfold sound.
  cbn [appended mentions next_uuid sentiment_analytics with_next_uuid with_mentions].
  split; [|split; [|split]].
  - rewrite fmap_app, Hids. apply NoDup_app. split; [exact H1|]. split; [|apply NoDup_seq].
    intros i (m & -> & Hm)%list_elem_of_fmap Hi%elem_of_seq.
    rewrite Forall_forall in H2. specialize (H2 m Hm). simpl in H2. lia.
  - apply Forall_app. split.
    + eapply Forall_impl; [exact H2|]. intros m Hm. simpl in *. lia.
    + apply Forall_forall. intros m Hm.
      assert (Hi : mention_id m ∈ seq (next_uuid d) (length new)).
      { rewrite <- Hids. apply list_elem_of_fmap. eauto. }
      apply elem_of_seq in Hi. lia.
  - apply Forall_app. split; [exact H3|].
    eapply Forall_impl; [exact Hn|]. intros m [-> _] [s Hs]. discriminate.
  - intros t day.
    assert (E : scored_on t day (mentions d ++ new) = scored_on t day (mentions d)).
    { apply scored_on_app_unscored. eapply Forall_impl; [exact Hn|]. by intros m [? _]. }
    rewrite (day_aggregate_scored t day _ _ E), E. apply H4.
Qed.

(** *** Updates of unscored rows *)

Lemma filter_fmap_fixed_in {A} (P : A → Prop) `{∀ x, Decision (P x)} (f : A → A)
    (l : list A) :
  (∀ x, x ∈ l → P x → f x = x) → (∀ x, x ∈ l → P (f x) → P x) →
  filter P (f <$> l) = filter P l.
Proof.
  induction l as [|x l IH]; intros Hfix Hback; [reflexivity|].
  rewrite fmap_cons, !filter_cons, IH.
  - destruct (decide (P x)) as [Hx|Hx].
    + rewrite (Hfix x (list_elem_of_here _ _) Hx). rewrite decide_True by assumption.
      reflexivity.
    + rewrite decide_False; [reflexivity|]. intros Hfx.
      apply Hx, (Hback x (list_elem_of_here _ _)), Hfx.
  - intros y Hy. apply Hfix. by right.
  - intros y Hy. apply Hback. by right.
Qed.

Lemma fire_next_uuid changes d : next_uuid (fire d changes) = next_uuid d.
Proof.
  revert d. induction changes as [|c changes IH]; intros d; [reflexivity|].
  rewrite fire_cons, IH. unfold update_sentiment_analytics.
  destruct (sentiment_score c.2); [case_decide|]; reflexivity.
Qed.

Lemma update_rows_next_uuid id user s l r d :
  next_uuid (update_rows id user s l r d) = next_uuid d.
Proof. unfold update_rows. rewrite fire_next_uuid. reflexivity. Qed.

Lemma update_rows_sound id user s l r d :
  (∀ m, m ∈ mentions d → mention_id m = id → user_id m = user →
        sentiment_score m = None) →
  sound d → sound (update_rows id user s l r d).
Proof.
  intros Hun (H1 & H2 & H3 & H4).
  pose proof (update_rows_same_for_others id user s l r d) as (Hown & _ & _).
  assert (Hids : mention_id <$> mentions (update_rows id user s l r d)
                 = mention_id <$> mentions d).
  { apply (f_equal (fmap fst)) in Hown. unfold owners in Hown.
    rewrite <- !list_fmap_compose in Hown. exact Hown. }
  unfold sound. rewrite Hids, update_rows_next_uuid.
  split; [exact H1|]. rewrite update_rows_mentions.
  set (upd := λ m, if decide (mention_id m = id ∧ user_id m = user)
                   then set_sentiment (Some s) l r m else m).
  split; [|split].
  - apply Forall_fmap. eapply Forall_impl; [exact H2|]. intros m Hm. simpl.
    unfold upd. case_decide; exact Hm.
  - apply Forall_fmap. eapply Forall_impl; [exact H3|]. intros m Hm. simpl.
    unfold upd. case_decide; [|exact Hm]. simpl. intros _. eexists. reflexivity.
  - intros t day. unfold update_rows. rewrite fire_lookup.
    cbn [mentions with_mentions sentiment_analytics]. fold upd.
    destruct (existsb _ _) eqn:Ex.
    + apply existsb_exists in Ex as (c & Hc & Hk).
      apply list_elem_of_In, list_elem_of_fmap in Hc as (m & -> & Hm).
      apply list_elem_of_filter in Hm as [[Hi Hu] Hm].
      apply andb_true_iff in Hk as [_ Hk]. apply bool_decide_eq_true in Hk.
      unfold day_key in Hk. simpl in Hk. injection Hk as <- <-.
      assert (Hin : upd m ∈ scored_on (user_id m) (DATE (posted_at m))
                                      (upd <$> mentions d)).
      { unfold scored_on. apply list_elem_of_filter. split.
        - unfold upd. rewrite decide_True by (split; assumption). simpl. eauto.
        - apply list_elem_of_fmap. eauto. }
      destruct (scored_on _ _ (upd <$> mentions d)); [by apply elem_of_nil in Hin|].
      reflexivity.
    + assert (Hno : ∀ m, m ∈ mentions d → mention_id m = id → user_id m = user →
                        day_key m ≠ (t, day)).
      { intros m Hm Hi Hu Hk. apply not_true_iff_false in Ex. apply Ex.
        apply existsb_exists. exists (m, set_sentiment (Some s) l r m). split.
        - apply list_elem_of_In, list_elem_of_fmap. exists m. split; [reflexivity|].
          apply list_elem_of_filter. auto.
        - apply andb_true_iff. split.
          + unfold recomputes. simpl. apply bool_decide_eq_true. left.
            rewrite (Hun m Hm Hi Hu). reflexivity.
          + apply bool_decide_eq_true. exact Hk. }
      assert (E : scored_on t day (upd <$> mentions d) = scored_on t day (mentions d)).
      { unfold scored_on. apply filter_fmap_fixed_in.
        - intros m Hm (Ht & Hd & _). unfold upd. apply decide_False. intros [Hi Hu].
          apply (Hno m Hm Hi Hu). unfold day_key. congruence.
        - intros m Hm. unfold upd. case_decide as Hh; [|done].
          destruct Hh as [Hi Hu]. simpl. intros (Ht & Hd & _). exfalso.
          apply (Hno m Hm Hi Hu). unfold day_key. congruence. }
      rewrite (day_aggregate_scored t day _ _ E), E. apply H4.
Qed.

Lemma update_rows_null_sound id user l r d :
  unscored_hits id user d → sound d → sound (update_rows_null id user l r d).
Proof.
  intros Hun (H1 & H2 & H3 & H4). unfold sound.
  rewrite update_rows_null_ids, update_rows_null_analytics.
  split; [exact H1|].
  assert (E : ∀ t day, scored_on t day (mentions (update_rows_null id user l r d))
                       = scored_on t day (mentions d)).
  { intros t day. rewrite update_rows_null_mentions. apply scored_on_clear.
    intros m Hm [Hi Hu]. apply Hun; assumption. }
  rewrite update_rows_null_mentions.
  split; [|split].
  - rewrite update_rows_null_eq. cbn [next_uuid with_mentions].
    apply Forall_fmap. eapply Forall_impl; [exact H2|]. intros m Hm. simpl.
    case_decide; exact Hm.
  - apply clear_labelled, H3.
  - intros t day. rewrite <- update_rows_null_mentions.
    rewrite (day_aggregate_scored t day _ _ (E t day)), E. apply H4.
Qed.

(** *** The analysis route *)

Section Analysis.

Variable ANTHROPIC_API_KEY : string.
Variable anthropic : Oracle.

Local Abbreviation analyze_and_store := (Analyze.analyze_and_store ANTHROPIC_API_KEY anthropic).
Local Abbreviation by_id_step := (Analyze.by_id_step ANTHROPIC_API_KEY anthropic).
Local Abbreviation by_id_loop := (Analyze.by_id_loop ANTHROPIC_API_KEY anthropic).
Local Abbreviation batch_loop := (Analyze.batch_loop ANTHROPIC_API_KEY anthropic).

Lemma analyze_and_store_sound user id text w :
  unscored_hits id user (db w) →
  sound (db w) → sound (db (analyze_and_store user id text w).2).
Proof.
  intros Hun Hs.
  pose proof (analyze_and_store_cases ANTHROPIC_API_KEY anthropic user id text w) as H.
  destruct (analyze_and_store user id text w) as [r w']. simpl.
  destruct H as (_ & _ & [E | [(s & l & t & E) | (l & t & E)]]); rewrite E.
  - exact Hs.
  - apply update_rows_sound; assumption.
  - apply update_rows_null_sound; assumption.
Qed.

Lemma by_id_step_sound user id w :
  sound (db w) → sound (db (by_id_step user id w).2).
Proof.
  intros Hs. unfold Analyze.by_id_step.
  destruct (single _) as [mention|] eqn:Es; [|exact Hs].
  destruct (sentiment_score mention) eqn:Em; [exact Hs|].
  apply analyze_and_store_sound; [|exact Hs].
  eapply single_unscored_hits; eassumption.
Qed.

Lemma by_id_loop_sound user ids w :
  sound (db w) → sound (db (by_id_loop user ids w).2).
Proof.
  revert w. induction ids as [|id ids IH]; intros w Hs; [exact Hs|].
  cbn [Analyze.by_id_loop].
  pose proof (by_id_step_sound user id w Hs) as H1.
  destruct (by_id_step user id w) as [r w1]. specialize (IH w1 H1).
  destruct (by_id_loop user ids w1) as [rs w2]. exact IH.
Qed.

Lemma batch_loop_sound user batch w :
  sound (db w) → awaiting batch (db w) → NoDup (mention_id <$> batch) →
  sound (db (batch_loop user batch w).2).
Proof.
  revert w. induction batch as [|m batch IH]; intros w Hs Hb Hnd; [exact Hs|].
  cbn [Analyze.batch_loop].
  rewrite fmap_cons in Hnd. apply NoDup_cons in Hnd as [Hmid Hnd].
  pose proof (awaiting_unscored_hits m batch user (db w) (proj1 Hs) Hb) as Hun.
  pose proof (analyze_and_store_sound user (mention_id m) (content m) w Hun Hs) as H1.
  apply Forall_cons in Hb as [_ Hb].
  pose proof (analyze_and_store_awaiting ANTHROPIC_API_KEY anthropic user (mention_id m)
                (content m) batch w Hmid Hb) as Hb1.
  destruct (analyze_and_store user (mention_id m) (content m) w) as [r w1].
  specialize (IH w1 H1 Hb1 Hnd). destruct (batch_loop user batch w1) as [rs w2]. exact IH.
Qed.

Lemma analysis_sound user body w :
  sound (db w) → sound (db (Analyze.POST ANTHROPIC_API_KEY anthropic user body w).2).
Proof.
  intros Hs. unfold Analyze.POST. destruct user as [u|]; [|exact Hs].
  destruct (Analyze.mentionIds body) as [[|id ids]|].
  2: { pose proof (by_id_loop_sound u (id :: ids) w Hs) as H.
       destruct (by_id_loop u (id :: ids) w) as [rs w']. exact H. }
  all: destruct (Analyze.content_of body) as [[|a text]|].
  all: try (pose proof (analyzeSentimentWithClaude_db ANTHROPIC_API_KEY anthropic
                          (String a text) w) as H;
            destruct (Analyze.analyzeSentimentWithClaude _ _ (String a text) w)
              as [[e|sent] w'];
            simpl in *; rewrite H; exact Hs).
  all: match goal with
       | |- context [Analyze.select_unanalyzed ?x ?n (db ?y)] =>
           pose proof (select_unanalyzed_batch x n (db y) (proj1 Hs)) as [Hb Hnd];
           destruct (Analyze.select_unanalyzed x n (db y)) as [|m batch]; [exact Hs|]
       end.
  all: pose proof (batch_loop_sound u (m :: batch) w Hs Hb Hnd) as H;
       destruct (batch_loop u (m :: batch) w) as [rs w']; exact H.
Qed.

End Analysis.

(** *** The ingestion route *)

Lemma ingestion_sound sources user body now d :
  sound d → sound (Ingest.POST sources user body now d).2.
Proof.
  intros Hs.
  destruct (ingestion_cases sources user body now d)
    as [[_ ->]|(u & account & sa & src & fetched & _ & _ & _ & _ & _ & E)];
    [exact Hs|].
  rewrite E.
  destruct (ingest_loop_spec u account (Ingest.platform_of body)
              (default false (Ingest.forceRefresh body)) fetched d)
    as (new & skp & El & Hn & Hids & _).
  rewrite El. cbn [snd]. apply appended_sound; [|exact Hids|exact Hs].
  eapply Forall_impl; [exact Hn|]. intros m (_ & _ & _ & H1 & H2 & _). auto.
Qed.

(** *** The generation and scheduling routes *)

Lemma generation_frame anthropic setDate1 accepts upsert user body now w :
  let d' := db (Generate.POST anthropic setDate1 accepts upsert user body now w).2 in
  mentions d' = mentions (db w)
  ∧ sentiment_analytics d' = sentiment_analytics (db w)
  ∧ (next_uuid (db w) <= next_uuid d')%nat.
Proof.
  unfold Generate.POST.
  destruct user as [u|]; [|by repeat split].
  destruct (single _) as [business|]; [|by repeat split].
  destruct (negb _); [by repeat split|].
  destruct (_ <? _)%Z; [by repeat split|].
  destruct (Generate.industryInfo_of _ _ _) as [info|]; [|by repeat split].
  unfold call. destruct (anthropic _ _) as [msg|st b|content]; [by repeat split..|].
  destruct (JSON_parse _) as [response|]; [|by repeat split].
  destruct (Generate.generatedPosts_of now response) as [posts|]; [|by repeat split].
  cbn [db]. destruct (accepts _); cbn; repeat split; lia.
Qed.

Lemma generation_sound anthropic setDate1 accepts upsert user body now w :
  sound (db w) →
  sound (db (Generate.POST anthropic setDate1 accepts upsert user body now w).2).
Proof.
  destruct (generation_frame anthropic setDate1 accepts upsert user body now w)
    as (H1 & H2 & H3).
  apply sound_frame; assumption.
Qed.

Lemma scheduling_frame c d :
  mentions (handle c d).2 = mentions d
  ∧ sentiment_analytics (handle c d).2 = sentiment_analytics d
  ∧ (next_uuid d <= next_uuid (handle c d).2)%nat.
Proof.
  destruct c as [user body now|user id body|user id]; cbn [handle].
  - unfold Schedule.POST.
    repeat first
      [ (split; [reflexivity|split; [reflexivity|cbn; lia]])
      | match goal with
        | |- context [match ?x with _ => _ end] => destruct x
        end ].
  - unfold Schedule.PATCH.
    repeat first
      [ (split; [reflexivity|split; [reflexivity|cbn; lia]])
      | match goal with
        | |- context [match ?x with _ => _ end] => destruct x
        end ].
  - unfold Schedule.DELETE.
    repeat first
      [ (split; [reflexivity|split; [reflexivity|cbn; lia]])
      | match goal with
        | |- context [match ?x with _ => _ end] => destruct x
        end ].
Qed.

Lemma scheduling_sound c d : sound d → sound (handle c d).2.
Proof.
  destruct (scheduling_frame c d) as (H1 & H2 & H3). apply sound_frame; assumption.
Qed.

End Soundness.

(** A request to one of the four routes. *)
Inductive Request :=
| Ingestion (sources : Ingest.Sources) (user : option uuid) (body : Ingest.IngestRequest)
            (now : timestamp)
| Analysis (key : string) (anthropic : Oracle) (user : option uuid)
           (body : Analyze.AnalyzeRequest)
| Generation (anthropic : Oracle) (setDate1 : timestamp → timestamp)
             (accepts : list Db.GeneratedPost → bool)
             (upsert : uuid → Z → timestamp → list ApiUsage → list ApiUsage)
             (user : option uuid) (body : Generate.GenerateRequest) (now : timestamp)
| Scheduling (c : Call).

(** The world after the request is served. *)
Definition serve (r : Request) (w : World) : World :=
  match r with
  | Ingestion sources user body now =>
      with_db (Ingest.POST sources user body now (db w)).2 w
  | Analysis key anthropic user body => (Analyze.POST key anthropic user body w).2
  | Generation anthropic setDate1 accepts upsert user body now =>
      (Generate.POST anthropic setDate1 accepts upsert user body now w).2
  | Scheduling c => with_db (handle c (db w)).2 w
  end.

Definition serve_all (rs : list Request) (w : World) : World :=
  fold_left (λ w r, serve r w) rs w.

Lemma serve_sound r w : sound (db w) → sound (db (serve r w)).
Proof.
  destruct r; cbn [serve db with_db].
  - apply ingestion_sound.
  - apply analysis_sound.
  - apply generation_sound.
  - apply scheduling_sound.
Qed.

Lemma serve_all_sound rs w : sound (db w) → sound (db (serve_all rs w)).
Proof.
  unfold serve_all. revert w. induction rs as [|r rs IH]; intros w Hs; [exact Hs|].
  cbn [fold_left]. apply IH, serve_sound, Hs.
Qed.

(** The store under every request.  Start from a store without mentions
    and without daily rows (whatever businesses and accounts it holds)
    and serve any requests, to any of the four routes, from any callers,
    in any order and whatever the adapters and the model answer.  Then
    the identifiers of the mentions are unique; a mention that has a
    score has a label; and the daily row of a tenant and a day
    is there exactly when the tenant has a scored mention posted that
    day, and is then the aggregate over those mentions (the three counts
    by label, their number, and their average rounded to one decimal). *)
Theorem store_stays_sound (rs : list Request) (w : World) :
  mentions (db w) = [] → sentiment_analytics (db w) = ∅ →
  let d := db (serve_all rs w) in
  NoDup (mention_id <$> mentions d)
  ∧ Forall (λ m, is_Some (sentiment_score m) → is_Some (sentiment_label_of m))
           (mentions d)
  ∧ ∀ t day,
      sentiment_analytics d !! (t, day)
      = match scored_on t day (mentions d) with
        | [] => None
        | _ => Some (day_aggregate t day (mentions d))
        end.
Proof.
  intros Hm Ha d.
  destruct (serve_all_sound rs w (sound_start (db w) Hm Ha)) as (H1 & _ & H3 & H4).
  split; [exact H1|]. split; [exact H3|exact H4].
Qed.

(** An ingestion of the three mock mentions, then a batch analysis. *)
Definition ingest_then_analyze : list Request :=
  [ Ingestion Ingest.mock_sources (Some 1%nat) ingest_instagram 90000000;
    Analysis "key" (always reply_42) (Some 1%nat)
             {| Analyze.mentionIds := None; Analyze.content_of := None;
                Analyze.batchSize := None |} ].

Lemma store_stays_sound_witness :
  let d := db (serve_all ingest_then_analyze (quiet connected)) in
  NoDup (mention_id <$> mentions d)
  ∧ Forall (λ m, is_Some (sentiment_score m) → is_Some (sentiment_label_of m))
           (mentions d)
  ∧ ∀ t day,
      sentiment_analytics d !! (t, day)
      = match scored_on t day (mentions d) with
        | [] => None
        | _ => Some (day_aggregate t day (mentions d))
        end.
Proof.
  apply (store_stays_sound ingest_then_analyze (quiet connected)); reflexivity.
Defined.

Example ingest_then_analyze_run :
  let d := db (serve_all ingest_then_analyze (quiet connected)) in
  mention_id <$> mentions d = [100; 101; 102]%nat
  ∧ sentiment_score <$> mentions d = [Some 420%Z; Some 420%Z; Some 420%Z]
  ∧ map_to_list (sentiment_analytics d)
    = [((1%nat, 0%Z), {| positive_count := 3; negative_count := 0; neutral_count := 0;
                         average_score := Some 420%Z; total_mentions := 3 |})].
Proof. vm_compute. repeat split. Qed.

End StoreProperties.

Section PageProperties.
Import JS Json Db Anthropic SentimentPage.

(** ** The totals of the sentiment page *)

Section Totals.

Variables (user : uuid) (since : Z).

(** The mentions the page's totals are about: those of the tenant, posted
    on the day [since] or later, that have a score. *)
Definition counted (m : Mention) : Prop :=
  user_id m = user ∧ (since <= DATE (posted_at m))%Z ∧ is_Some (sentiment_score m).

#[local] Instance counted_dec m : Decision (counted m).
Proof. unfold counted. apply _. Defined.

Lemma foldl_sum {A} (g : A → nat) (l : list A) (a : nat) :
  foldl (λ sum x, (sum + g x)%nat) a l = (a + sum_list_with g l)%nat.
Proof.
  revert a. induction l as [|x l IH]; intros a; simpl; [lia|]. rewrite IH. lia.
Qed.

Lemma sum_list_with_ext_in {A} (g h : A → nat) (l : list A) :
  (∀ x, x ∈ l → g x = h x) → sum_list_with g l = sum_list_with h l.
Proof.
  induction l as [|x l IH]; intros H; [reflexivity|]. simpl.
  rewrite (H x) by left. rewrite IH; [reflexivity|]. intros y Hy. apply H. by right.
Qed.

Lemma sum_list_with_fmap {A B} (f : A → B) (g : B → nat) (l : list A) :
  sum_list_with g (f <$> l) = sum_list_with (g ∘ f) l.
Proof.
  induction l as [|x l IH]; [reflexivity|].
  rewrite fmap_cons. simpl. rewrite IH. reflexivity.
Qed.

(** One more on the day [x], which is one of the days of [K]. *)
Lemma sum_one_more (a : Z → nat) (x : Z) (K : list Z) :
  NoDup K → x ∈ K →
  sum_list_with (λ day, (a day + if decide (x = day) then 1 else 0)%nat) K
  = S (sum_list_with a K).
Proof.
  induction K as [|k K IH]; intros Hnd Hx; [by apply elem_of_nil in Hx|].
  apply NoDup_cons in Hnd as [Hk Hnd]. simpl.
  apply elem_of_cons in Hx as [->|Hx].
  - rewrite decide_True by reflexivity.
    rewrite (sum_list_with_ext_in _ a K); [lia|].
    intros y Hy. rewrite decide_False; [lia|]. intros ->. contradiction.
  - rewrite IH by assumption. rewrite decide_False; [lia|]. intros ->. contradiction.
Qed.

(** Counting day by day counts every counted mention once. *)
Lemma sum_over_days (R : Mention → Prop) `{∀ m, Decision (R m)} (K : list Z)
    (ms : list Mention) :
  NoDup K → (∀ day, day ∈ K → (since <= day)%Z) →
  (∀ m, m ∈ ms → counted m → DATE (posted_at m) ∈ K) →
  sum_list_with (λ day, length (filter R (scored_on user day ms))) K
  = length (filter R (filter counted ms)).
Proof.
  intros Hnd Hge. induction ms as [|m ms IH]; intros Hin.
  - simpl. clear. induction K as [|k K IH]; [reflexivity|]. simpl. exact IH.
  - specialize (IH (λ x Hx, Hin x (list_elem_of_further _ _ _ Hx))).
    unfold scored_on in *. rewrite (filter_cons counted).
    destruct (decide (counted m)) as [Hc|Hc].
    + pose proof Hc as (Hu & Hs & Hsc).
      rewrite (filter_cons R). destruct (decide (R m)) as [Hr|Hr].
      * simpl. rewrite <- IH, <- (sum_one_more _ (DATE (posted_at m)) K Hnd)
          by (apply Hin; [left|exact Hc]).
        apply sum_list_with_ext_in. intros day _. rewrite filter_cons.
        destruct (decide (DATE (posted_at m) = day)) as [E|E].
        -- rewrite decide_True by auto. rewrite filter_cons_True by exact Hr.
           simpl. lia.
        -- rewrite decide_False by (intros (_ & ? & _); contradiction). lia.
      * rewrite <- IH. apply sum_list_with_ext_in. intros day _. rewrite filter_cons.
        destruct (decide (user_id m = user ∧ DATE (posted_at m) = day
                          ∧ is_Some (sentiment_score m))); [|reflexivity].
        rewrite filter_cons_False by exact Hr. reflexivity.
    + rewrite <- IH. apply sum_list_with_ext_in. intros day Hday. rewrite filter_cons.
      rewrite decide_False; [reflexivity|].
      intros (Hu & Hd & Hsc). apply Hc. split; [exact Hu|]. split; [|exact Hsc].
      rewrite Hd. apply Hge, Hday.
Qed.


(** Every daily row is the aggregate of its day. *)
Definition exact (d : Database) : Prop :=
  ∀ t day,
    sentiment_analytics d !! (t, day)
    = match scored_on t day (mentions d) with
      | [] => None
      | _ => Some (day_aggregate t day (mentions d))
      end.

Lemma filter_all {A} (l : list A) : filter (λ _, True) l = l.
Proof. induction l as [|x l IH]; [reflexivity|]. rewrite filter_cons_True, IH; done. Qed.

(** A [reduce] over the rows read adds up, day by day, what the
    aggregate of the day says. *)
Lemma reduce_over_days (g : SentimentAnalytics → nat) (R : Mention → Prop)
    `{∀ m, Decision (R m)} (d : Database) :
  exact d →
  (∀ day, g (day_aggregate user day (mentions d))
          = length (filter R (scored_on user day (mentions d)))) →
  foldl (λ sum day, (sum + g day.2)%nat) 0%nat (analytics_since user since d)
  = length (filter R (filter counted (mentions d))).
Proof.
  intros Hex Hg. unfold analytics_since.
  set (L := filter (λ kv : uuid * Z * SentimentAnalytics,
                      kv.1.1 = user ∧ (since <= kv.1.2)%Z)
                   (map_to_list (sentiment_analytics d))).
  rewrite foldl_sum. simpl.
  rewrite (sum_list_with_Permutation_proper _ _ _ (merge_sort_Permutation by_date _)).
  rewrite sum_list_with_fmap.
  assert (HL : ∀ kv, kv ∈ L →
                 kv.1.1 = user ∧ (since <= kv.1.2)%Z
                 ∧ scored_on user kv.1.2 (mentions d) ≠ []
                 ∧ kv.2 = day_aggregate user kv.1.2 (mentions d)).
  { intros [[t day] row] Hkv. apply list_elem_of_filter in Hkv as [[Hu Hs] Hkv].
    simpl in Hu, Hs. subst t. apply elem_of_map_to_list in Hkv.
    rewrite Hex in Hkv. simpl.
    destruct (scored_on user day (mentions d)) eqn:E; [discriminate|].
    injection Hkv as <-. auto. }
  rewrite (sum_list_with_ext_in _
             ((λ day, length (filter R (scored_on user day (mentions d))))
                ∘ (λ kv : uuid * Z * SentimentAnalytics, kv.1.2)) L).
  2: { intros kv Hkv. destruct (HL kv Hkv) as (_ & _ & _ & E). simpl.
       rewrite E. apply Hg. }
  rewrite <- sum_list_with_fmap. apply sum_over_days.
  - assert (Hk : NoDup (fst <$> L)).
    { eapply sublist_NoDup; [apply (NoDup_fst_map_to_list (sentiment_analytics d))|].
      apply fmap_sublist, sublist_filter. }
    assert (E : (λ kv : uuid * Z * SentimentAnalytics, kv.1.2) <$> L
                = snd <$> (fst <$> L)).
    { rewrite <- list_fmap_compose. reflexivity. }
    rewrite E. apply NoDup_fmap_2_strong; [|exact Hk].
    intros [t1 d1] [t2 d2] (kv1 & -> & H1)%list_elem_of_fmap
           (kv2 & -> & H2)%list_elem_of_fmap Hd.
    destruct (HL kv1 H1) as (Hu1 & _). destruct (HL kv2 H2) as (Hu2 & _).
    destruct kv1 as [[? ?] ?], kv2 as [[? ?] ?]. simpl in *. congruence.
  - intros day (kv & -> & Hkv)%list_elem_of_fmap. apply (HL kv Hkv).
  - intros m Hm (Hu & Hs & Hsc).
    assert (Hin : m ∈ scored_on user (DATE (posted_at m)) (mentions d)).
    { unfold scored_on. apply list_elem_of_filter. auto. }
    pose proof (Hex user (DATE (posted_at m))) as Hrow.
    destruct (scored_on user (DATE (posted_at m)) (mentions d)) eqn:E;
      [by apply elem_of_nil in Hin|].
    apply list_elem_of_fmap.
    exists ((user, DATE (posted_at m)), day_aggregate user (DATE (posted_at m)) (mentions d)).
    split; [reflexivity|]. apply list_elem_of_filter. split; [split; [reflexivity|exact Hs]|].
    apply elem_of_map_to_list. exact Hrow.
Qed.

End Totals.

(** The totals of the page count the analyzed mentions.  Every daily row
    being the aggregate of its day (as the routes keep it), the summary
    the page computes from the rows of the tenant dated [since] or later
    says: [totalMentions] is the number of the tenant's mentions posted
    on or after that day that have a score, so mentions awaiting
    analysis are not in the total; [positiveCount] and [negativeCount]
    are the numbers of those labelled positive and negative; and
    together the two do not exceed the total. *)
Theorem page_totals_count_analyzed_mentions (user : uuid) (since : Z) (d : Database) :
  (∀ t day,
     sentiment_analytics d !! (t, day)
     = match scored_on t day (mentions d) with
       | [] => None
       | _ => Some (day_aggregate t day (mentions d))
       end) →
  let analytics := analytics_since user since d in
  let scored :=
    filter (λ m, user_id m = user ∧ (since <= DATE (posted_at m))%Z
                 ∧ is_Some (sentiment_score m)) (mentions d) in
  totalMentions analytics = length scored
  ∧ positiveCount analytics
    = length (filter (λ m, sentiment_label_of m = Some positive) scored)
  ∧ negativeCount analytics
    = length (filter (λ m, sentiment_label_of m = Some negative) scored)
  ∧ (positiveCount analytics + negativeCount analytics <= totalMentions analytics)%nat.
Proof.
  intros Hex analytics scored.
  assert (Ht : totalMentions analytics = length scored).
  { unfold totalMentions. subst analytics.
    rewrite (reduce_over_days user since total_mentions (λ _, True) d Hex).
    - rewrite filter_all. reflexivity.
    - intros day. rewrite filter_all. reflexivity. }
  assert (Hp : positiveCount analytics
               = length (filter (λ m, sentiment_label_of m = Some positive) scored)).
  { unfold positiveCount. subst analytics.
    apply (reduce_over_days user since positive_count
             (λ m, sentiment_label_of m = Some positive) d Hex).
    intros day. reflexivity. }
  assert (Hn : negativeCount analytics
               = length (filter (λ m, sentiment_label_of m = Some negative) scored)).
  { unfold negativeCount. subst analytics.
    apply (reduce_over_days user since negative_count
             (λ m, sentiment_label_of m = Some negative) d Hex).
    intros day. reflexivity. }
  split; [exact Ht|]. split; [exact Hp|]. split; [exact Hn|].
  rewrite Ht, Hp, Hn. clear.
  induction scored as [|m ms IH]; [simpl; lia|].
  rewrite !filter_cons. destruct (sentiment_label_of m) as [[]|];
    repeat case_decide; try congruence; simpl; lia.
Qed.

Lemma page_totals_count_analyzed_mentions_witness :
  let d := db (serve_all ingest_then_analyze (quiet connected)) in
  let analytics := analytics_since 1 0 d in
  let scored :=
    filter (λ m, user_id m = 1%nat ∧ (0 <= DATE (posted_at m))%Z
                 ∧ is_Some (sentiment_score m)) (mentions d) in
  totalMentions analytics = length scored
  ∧ positiveCount analytics
    = length (filter (λ m, sentiment_label_of m = Some positive) scored)
  ∧ negativeCount analytics
    = length (filter (λ m, sentiment_label_of m = Some negative) scored)
  ∧ (positiveCount analytics + negativeCount analytics <= totalMentions analytics)%nat.
Proof.
  apply (page_totals_count_analyzed_mentions 1 0
           (db (serve_all ingest_then_analyze (quiet connected)))).
  apply (serve_all_sound ingest_then_analyze (quiet connected)).
  apply sound_start; reflexivity.
Defined.

Example page_totals_run :
  let d := db (serve_all ingest_then_analyze (quiet connected)) in
  totalMentions (analytics_since 1 0 d) = 3%nat
  ∧ positiveCount (analytics_since 1 0 d) = 3%nat
  ∧ negativeCount (analytics_since 1 0 d) = 0%nat
  ∧ totalMentions (analytics_since 1 1 d) = 0%nat.
Proof. vm_compute. repeat split. Qed.

End PageProperties.

Section BoundProperties.
Import JS Json Db Anthropic Analyze.

(** ** Bounds *)

Section AverageBounds.

Local Open Scope Z_scope.

Lemma score_sum_bounds (rows : list Mention) (lo hi : Z) :
  (∀ m, m ∈ rows → ∃ s, sentiment_score m = Some s ∧ lo <= s <= hi) →
  Z.of_nat (length rows) * lo <= score_sum rows <= Z.of_nat (length rows) * hi.
Proof.
  induction rows as [|m rows IH]; intros H; [simpl; lia|].
  destruct (H m ltac:(left)) as (s & Hs & Hb).
  specialize (IH (λ x Hx, H x (list_elem_of_further _ _ _ Hx))).
  unfold score_sum in *. cbn [foldr length]. rewrite Hs. simpl default. lia.
Qed.

Lemma round_half_away_between n d lo hi :
  0 < d → d * lo <= n <= d * hi → lo <= round_half_away n d <= hi.
Proof.
  intros Hd Hn. pose proof (round_half_away_bound n d Hd) as Hb. nia.
Qed.

End AverageBounds.

(** The daily average lies between the scores of the day.  When the
    scores of the scored mentions of a tenant and a day all lie between
    [lo] and [hi] (in tenths, as the column keeps them) and there is at
    least one, the average the trigger writes for that day, rounded as
    it is to one decimal, lies between [lo] and [hi] too. *)
Theorem daily_average_within_scores (user : uuid) (day : Z) (ms : list Mention)
    (lo hi : Z) :
  scored_on user day ms ≠ [] →
  (∀ m, m ∈ scored_on user day ms →
        ∃ s, sentiment_score m = Some s ∧ (lo <= s <= hi)%Z) →
  ∃ a, average_score (day_aggregate user day ms) = Some a ∧ (lo <= a <= hi)%Z.
Proof.
  intros Hne Hb. unfold day_aggregate. cbn [average_score]. unfold AVG.
  pose proof (score_sum_bounds (scored_on user day ms) lo hi Hb) as Hs.
  destruct (scored_on user day ms) as [|m rows] eqn:E; [contradiction|].
  eexists. split; [reflexivity|].
  apply round_half_away_between; [simpl; lia|exact Hs].
Qed.

Lemma daily_average_within_scores_witness :
  ∃ a, average_score (day_aggregate 1 0 (mentions (apply_updates two_updates two_mentions)))
       = Some a ∧ (75 <= a <= 80)%Z.
Proof.
  apply (daily_average_within_scores 1 0
           (mentions (apply_updates two_updates two_mentions)) 75 80).
  - vm_compute. discriminate.
  - intros m Hm. vm_compute in Hm.
    apply elem_of_cons in Hm as [->|Hm]; [exists 75%Z; split; [reflexivity|lia]|].
    apply elem_of_cons in Hm as [->|Hm]; [exists 80%Z; split; [reflexivity|lia]|].
    by apply elem_of_nil in Hm.
Defined.

Section CallBounds.

Variable ANTHROPIC_API_KEY : string.
Variable anthropic : Oracle.

Local Abbreviation analyze_and_store := (analyze_and_store ANTHROPIC_API_KEY anthropic).
Local Abbreviation by_id_step := (by_id_step ANTHROPIC_API_KEY anthropic).
Local Abbreviation by_id_loop := (by_id_loop ANTHROPIC_API_KEY anthropic).
Local Abbreviation batch_loop := (batch_loop ANTHROPIC_API_KEY anthropic).

(** The log of [w'] is the log of [w] and at most [n] calls more. *)
Definition at_most (n : nat) (w w' : World) : Prop :=
  ∃ more, calls w' = calls w ++ more ∧ (length more <= n)%nat.

Lemma at_most_refl n w : at_most n w w.
Proof. exists []. rewrite app_nil_r. split; [reflexivity|simpl; lia]. Qed.

Lemma at_most_trans n1 n2 w1 w2 w3 :
  at_most n1 w1 w2 → at_most n2 w2 w3 → at_most (n1 + n2) w1 w3.
Proof.
  intros (a & Ea & Ha) (b & Eb & Hb). exists (a ++ b).
  rewrite Eb, Ea, <- app_assoc, length_app. split; [reflexivity|lia].
Qed.

Lemma classify_at_most text w :
  at_most 1 w (analyzeSentimentWithClaude ANTHROPIC_API_KEY anthropic text w).2.
Proof.
  unfold analyzeSentimentWithClaude. destruct (String.eqb _ _); [apply at_most_refl|].
  unfold call. simpl. exists [text]. split; [reflexivity|simpl; lia].
Qed.

Lemma analyze_and_store_at_most user id text w :
  at_most 1 w (analyze_and_store user id text w).2.
Proof.
  unfold Analyze.analyze_and_store.
  pose proof (classify_at_most text w) as H.
  destruct (analyzeSentimentWithClaude _ _ text w) as [[e|sent] w1]; [exact H|].
  destruct (update_mention_sentiment _ _ _ _ _ _); exact H.
Qed.

Lemma by_id_loop_at_most user ids w :
  at_most (length ids) w (by_id_loop user ids w).2.
Proof.
  revert w. induction ids as [|id ids IH]; intros w; [apply at_most_refl|].
  cbn [Analyze.by_id_loop].
  assert (H1 : at_most 1 w (by_id_step user id w).2).
  { unfold Analyze.by_id_step. destruct (single _) as [mention|]; [|apply at_most_refl].
    destruct (sentiment_score mention); [apply at_most_refl|].
    apply analyze_and_store_at_most. }
  destruct (by_id_step user id w) as [r w1]. specialize (IH w1).
  destruct (by_id_loop user ids w1) as [rs w2].
  exact (at_most_trans 1 (length ids) w w1 w2 H1 IH).
Qed.

Lemma batch_loop_at_most user batch w :
  at_most (length batch) w (batch_loop user batch w).2.
Proof.
  revert w. induction batch as [|m batch IH]; intros w; [apply at_most_refl|].
  cbn [Analyze.batch_loop].
  pose proof (analyze_and_store_at_most user (mention_id m) (content m) w) as H1.
  destruct (analyze_and_store user (mention_id m) (content m) w) as [r w1].
  specialize (IH w1). destruct (batch_loop user batch w1) as [rs w2].
  exact (at_most_trans 1 (length batch) w w1 w2 H1 IH).
Qed.

End CallBounds.

(** The most a request can ask of the classifier: one call per identifier
    in the by-identifiers mode, one call for a text, and in the batch mode
    as many calls as [batchSize] says (10 when it is absent or zero). *)
Definition call_budget (body : AnalyzeRequest) : nat :=
  match mentionIds body with
  | Some ((_ :: _) as ids) => length ids
  | _ =>
      match content_of body with
      | Some (String _ _) => 1
      | _ => match batchSize body with
             | Some (S _ as n) => n
             | _ => 10
             end
      end
  end.

(** The calls to the classifier are bounded.  A request to the analysis
    route keeps the log of calls made so far and adds at most its budget
    to it: the number of identifiers asked, one for a text, the batch
    size (10 by default) in the batch mode, however many mentions wait
    for analysis. *)
Theorem classifier_calls_are_bounded (key : string) (anthropic : Oracle)
    (user : option uuid) (body : AnalyzeRequest) (w : World) :
  ∃ more,
    calls (POST key anthropic user body w).2 = calls w ++ more
    ∧ (length more <= call_budget body)%nat.
Proof.
  unfold POST, call_budget. destruct user as [u|]; [|apply at_most_refl].
  destruct (mentionIds body) as [[|id ids]|].
  2: { pose proof (by_id_loop_at_most key anthropic u (id :: ids) w) as H.
       destruct (by_id_loop key anthropic u (id :: ids) w) as [rs w']. exact H. }
  all: destruct (content_of body) as [[|a text]|].
  all: try (pose proof (classify_at_most key anthropic (String a text) w) as H;
            destruct (analyzeSentimentWithClaude key anthropic (String a text) w)
              as [[e|sent] w']; exact H).
  all: match goal with
       | |- context [select_unanalyzed ?x ?n (db ?y)] =>
           pose proof (batch_loop_at_most key anthropic x (select_unanalyzed x n (db y)) y)
             as H;
           assert (Hlen : (length (select_unanalyzed x n (db y)) <= n)%nat)
             by (unfold select_unanalyzed; rewrite length_take; lia);
           destruct (select_unanalyzed x n (db y)) as [|m batch]; [apply at_most_refl|]
       end.
  all: destruct (batch_loop key anthropic u (m :: batch) w) as [rs w'];
       destruct H as (more & E & Hm); exists more; split; [exact E|];
       cbn [length] in *; lia.
Qed.

Example fifteen_waiting_ten_calls_run :
  length (calls (POST "key" (always reply_42) (Some 1)
                      {| mentionIds := None; content_of := None; batchSize := None |}
                      fifteen_unscored).2) = 10%nat.
Proof. vm_compute. reflexivity. Qed.

End BoundProperties.
